(** * Job search automation: ingestion, matching and tracking pipeline

    A shallow embedding of the class [JobSearchAutomation] of the Python
    implementation (match scorer, filter and ranker, job store, workflow
    trigger), with the properties of its specification.

    Conventions of the embedding.
    - Python strings are modelled as [string]; [str.lower] acts on the
      ASCII letters.
    - Python floats are modelled as rationals.  Every floating-point
      operation of the source goes through [fl], the rounding of its exact
      result, which is a parameter of the development.
    - Exceptions are values of the type [result].
    - The calls into scikit-learn, the chat-completion service and the
      file system are parameters: the code of those libraries is outside
      the repository.
    - A date is a day number, a timestamp a number of seconds. *)

From Stdlib Require Import ZArith QArith List String Ascii Bool Lia.
From Stdlib Require Import Permutation Sorted.
Import ListNotations.

Set Implicit Arguments.

Open Scope string_scope.
Open Scope Z_scope.

(** ** Python strings *)

(** A Python string is modelled by a string of characters of 8 bits.  The
    operations below are those of Python on ASCII text, where one
    character of the model is one character of the string and the
    letters A to Z alone have another case; text with other characters is
    outside their domain, and the statements that depend on slices or on
    the case of letters say so in a hypothesis. *)

Module PyStr.

(** [c.lower()] for one ASCII character. *)
Definition lower_char (c : ascii) : ascii :=
  let n := nat_of_ascii c in
  if (65 <=? n)%nat && (n <=? 90)%nat then ascii_of_nat (n + 32) else c.

(** [s.lower()] *)
Fixpoint lower (s : string) : string :=
  match s with
  | EmptyString => EmptyString
  | String c s' => String (lower_char c) (lower s')
  end.

(** [needle in hay] *)
Fixpoint contains (needle hay : string) : bool :=
  String.prefix needle hay ||
  match hay with
  | EmptyString => false
  | String _ hay' => contains needle hay'
  end.

(** [s[:n]] on ASCII text: the first [n] characters. *)
Fixpoint slice_to (n : nat) (s : string) : string :=
  match n, s with
  | O, _ => EmptyString
  | S _, EmptyString => EmptyString
  | S n', String c s' => String c (slice_to n' s')
  end.

(** [s.replace(a, b)] for one-character [a] and [b]. *)
Fixpoint replace_char (a b : ascii) (s : string) : string :=
  match s with
  | EmptyString => EmptyString
  | String c s' =>
      String (if Ascii.eqb c a then b else c) (replace_char a b s')
  end.

(** [sep.join(l)] *)
Definition join (sep : string) (l : list string) : string :=
  String.concat sep l.

(** The test of the specification: [needle] occurs in [hay] when the case
    of the letters is ignored. *)
Definition contains_ci (needle hay : string) : bool :=
  contains (lower needle) (lower hay).

End PyStr.

(** ** Exceptions *)

Inductive exn : Type :=
| KeyError
| ValueError
| ZeroDivisionError
| OtherException.

Inductive result (A : Type) : Type :=
| Ok (a : A)
| Raise (e : exn).

Arguments Ok {A} a.
Arguments Raise {A} e.

Definition bind {A B : Type} (m : result A) (k : A -> result B) : result B :=
  match m with
  | Ok a => k a
  | Raise e => Raise e
  end.

Notation "x <- m ;; k" := (bind m (fun x => k))
  (at level 61, m at next level, right associativity).

(** [d[key]] on a dictionary read from the configuration file. *)
Definition getitem {A : Type} (field : option A) : result A :=
  match field with
  | Some a => Ok a
  | None => Raise KeyError
  end.

(** [try: body except ValueError: handler] *)
Definition try_except_ValueError {A : Type}
  (body handler : result A) : result A :=
  match body with
  | Raise ValueError => handler
  | other => other
  end.

(** [try: body except Exception as e: handler].  Every exception of the
    model derives from [Exception]. *)
Definition try_except_Exception {A : Type}
  (body handler : result A) : result A :=
  match body with
  | Ok a => Ok a
  | Raise _ => handler
  end.

(** [for x in xs: ...] collecting the results, stopping at the first
    exception. *)
Fixpoint map_result {A B : Type} (f : A -> result B) (xs : list A)
  : result (list B) :=
  match xs with
  | [] => Ok []
  | x :: xs' => y <- f x ;; ys <- map_result f xs' ;; Ok (y :: ys)
  end.

(** ** Configuration *)

Record Profile : Type := {
  technical_skills : option (list string);
  core_competencies : option (list string)
}.

Record Criteria : Type := {
  locations : list string;
  blacklisted_companies : option (list string);
  min_match_score : option Z
}.

Record Config : Type := {
  user_profile : option Profile;
  search_criteria : Criteria
}.

(** ** Match scorer *)

(** [int(x)] on a float: truncation towards zero. *)
Definition py_int (x : Q) : Z := Z.quot (Qnum x) (Zpos (Qden x)).

Definition bonus_keywords : list string :=
  [ "business analyst"; "requirements"; "crm"; "sql"; "senior";
    "stakeholder"; "process"; "analysis"; "healthcare"; "remote" ].

(** [sum(5 for keyword in bonus_keywords if keyword in job_text)] *)
Definition bonus_score (job_text : string) : Z :=
  fold_right Z.add 0
    (map (fun _ => 5)
       (filter (fun keyword => PyStr.contains keyword job_text)
          bonus_keywords)).

Section MatchScorer.

(** [TfidfVectorizer(max_features=100, stop_words='english')] fitted on
    the two documents, followed by [cosine_similarity] of the two rows:
    the similarity, or the exception raised by the library. *)
Variable tfidf_cosine : string -> string -> result Q.

(** Rounding of the exact result of a floating-point operation. *)
Variable fl : Q -> Q.

(** [sum(1 for skill in user_skills if skill.lower() in job_text_lower)] *)
Definition count_matches (job_text_lower : string)
  (user_skills : list string) : nat :=
  List.length
    (filter (fun skill => PyStr.contains (PyStr.lower skill) job_text_lower)
       user_skills).

Definition simple_keyword_match (job_text : string)
  (user_skills : list string) : result Z :=
  let job_text_lower := PyStr.lower job_text in
  let matches := count_matches job_text_lower user_skills in
  match user_skills with
  | [] => Raise ZeroDivisionError
  | _ :: _ =>
      let ratio :=
        fl (inject_Z (Z.of_nat matches)
            / inject_Z (Z.of_nat (List.length user_skills)))%Q in
      Ok (Z.min (py_int (fl (ratio * 100)%Q)) 100)
  end.

(** [user_skills]: the concatenation of the two lists of the profile. *)
Definition user_skills_of (config : Config) : result (list string) :=
  profile <- getitem (user_profile config) ;;
  technical <- getitem (technical_skills profile) ;;
  core <- getitem (core_competencies profile) ;;
  Ok (technical ++ core)%list.

Definition user_skill_text_of (user_skills : list string) : string :=
  PyStr.lower (PyStr.join " " user_skills).

Definition job_text_of (job_title job_description : string) : string :=
  PyStr.lower (job_title ++ " " ++ job_description).

(** [int(similarity * 100)] *)
Definition base_score_of (similarity : Q) : Z :=
  py_int (fl (similarity * 100)%Q).

(** The body of the outer [try] of [calculate_job_match_score]. *)
Definition score_body (config : Config)
  (job_description job_title : string) : result Z :=
  user_skills <- user_skills_of config ;;
  let user_skill_text := user_skill_text_of user_skills in
  let job_text := job_text_of job_title job_description in
  try_except_ValueError
    (similarity <- tfidf_cosine user_skill_text job_text ;;
     let base_score := base_score_of similarity in
     let final_score := Z.min (base_score + bonus_score job_text) 100 in
     Ok final_score)
    (simple_keyword_match job_text user_skills).

Definition calculate_job_match_score (config : Config)
  (job_description job_title : string) : result Z :=
  try_except_Exception (score_body config job_description job_title) (Ok 0).

End MatchScorer.

(** ** Job frames *)

(** A cell of a [pandas.DataFrame] column of text. *)
Inductive cell : Type :=
| Str (s : string)
| NaN
| PyNone.

(** [str(c)] *)
Definition py_str (c : cell) : string :=
  match c with
  | Str s => s
  | NaN => "nan"
  | PyNone => "None"
  end.

(** One row of the frame returned by the scrapers, after
    [clean_job_data] has dropped the rows without title or company. *)
Record RawJob : Type := {
  title : string;
  company : string;
  location : cell;
  description : cell;
  salary : cell;
  job_url : cell;
  date_posted : option Z
}.

(** A row with the column [match_score] added by [filter_jobs]. *)
Record ScoredJob : Type := {
  job : RawJob;
  match_score : Z
}.

(** A frame: its rows, and whether it has the two columns the code
    tests for.  The columns [title], [company], [salary] and [job_url]
    are taken to be there. *)
Record DataFrame (A : Type) : Type := {
  has_location : bool;
  has_description : bool;
  rows : list A
}.

Definition with_rows {A B : Type} (df : DataFrame A) (l : list B)
  : DataFrame B :=
  {| has_location := has_location df;
     has_description := has_description df;
     rows := l |}.

(** [jobs_df.drop_duplicates(subset=['title', 'company'], keep='first')],
    the step of [clean_job_data] that removes the duplicates of a batch:
    a row is dropped when an earlier row has the same title and the same
    company. *)
Definition same_title_company (a b : RawJob) : bool :=
  String.eqb (title a) (title b) && String.eqb (company a) (company b).

Fixpoint drop_duplicates_seen (seen l : list RawJob) : list RawJob :=
  match l with
  | [] => []
  | j :: l' =>
      if existsb (same_title_company j) seen
      then drop_duplicates_seen seen l'
      else j :: drop_duplicates_seen (j :: seen) l'
  end.

Definition drop_duplicates_title_company (l : list RawJob) : list RawJob :=
  drop_duplicates_seen [] l.

(** ** Stable sorting *)

Section StableSort.

Variable A : Type.

(** [precedes y x]: [y] has to come before [x]. *)
Variable precedes : A -> A -> bool.

Fixpoint insert_sorted (x : A) (l : list A) : list A :=
  match l with
  | [] => [x]
  | y :: l' => if precedes y x then y :: insert_sorted x l' else x :: y :: l'
  end.

Definition stable_sort (l : list A) : list A :=
  fold_right insert_sorted [] l.

End StableSort.

(** ** Filter and ranker *)

(** The alternatives of the regular expression ['|'.join(parts)], for
    parts free of regular-expression metacharacters: the empty list joins
    to the empty pattern. *)
Definition regex_alternatives (parts : list string) : list string :=
  match parts with
  | [] => [""]
  | _ :: _ => parts
  end.

(** [column.str.contains('|'.join(parts), case=False, na=False)] on one
    cell, for parts that are plain: ASCII text free of the characters a
    regular expression reads specially.  The pattern then matches the
    text that has one of the parts as a substring, the case of the
    letters ignored.  For other parts the library can match otherwise or
    raise [re.error]; they are outside the domain of this definition. *)
Definition str_contains (parts : list string) (c : cell) : bool :=
  match c with
  | Str s =>
      existsb (fun part => PyStr.contains_ci part s) (regex_alternatives parts)
  | NaN | PyNone => false
  end.

(** [sort_values('match_score', ascending=False)].  The library promises
    nothing on rows of equal score; the model keeps them in their
    order. *)
Definition sort_values_match_score_desc (l : list ScoredJob)
  : list ScoredJob :=
  stable_sort (fun y x => match_score x <? match_score y) l.

Section FilterRanker.

Variable tfidf_cosine : string -> string -> result Q.
Variable fl : Q -> Q.

Definition location_rows (criteria : Criteria) (df : DataFrame RawJob)
  : list RawJob :=
  if has_location df
  then filter (fun j => str_contains (locations criteria) (location j))
         (rows df)
  else rows df.

Definition blacklist_rows (criteria : Criteria) (l : list RawJob)
  : list RawJob :=
  match blacklisted_companies criteria with
  | Some blacklist =>
      filter (fun j => negb (str_contains blacklist (Str (company j)))) l
  | None => l
  end.

Definition score_rows (config : Config) (has_desc : bool)
  (l : list RawJob) : result (list ScoredJob) :=
  if has_desc
  then map_result
         (fun j =>
            s <- calculate_job_match_score tfidf_cosine fl config
                   (py_str (description j)) (title j) ;;
            Ok {| job := j; match_score := s |}) l
  else Ok (map (fun j => {| job := j; match_score := 50 |}) l).

Definition min_score_of (criteria : Criteria) : Z :=
  match min_match_score criteria with
  | Some m => m
  | None => 60
  end.

Definition filter_jobs (config : Config) (jobs_df : DataFrame RawJob)
  : result (DataFrame ScoredJob) :=
  match rows jobs_df with
  | [] => Ok (with_rows jobs_df [])
  | _ :: _ =>
      let criteria := search_criteria config in
      let filtered := location_rows criteria jobs_df in
      let filtered := blacklist_rows criteria filtered in
      scored <- score_rows config (has_description jobs_df) filtered ;;
      let min_score := min_score_of criteria in
      let kept := filter (fun sj => min_score <=? match_score sj) scored in
      Ok (with_rows jobs_df (sort_values_match_score_desc kept))
  end.

End FilterRanker.

(** ** Job store *)

Module App.

(** One row of the table [applications]. *)
Record t : Type := {
  id : Z;
  job_id : string;
  title : string;
  company : string;
  location : option string;
  salary_range : option string;
  job_url : option string;
  description : option string;
  requirements : option string;
  application_date : option Z;
  status : string;
  match_score : Z;
  cv_version : option string;
  cover_letter_path : option string;
  follow_up_date : option Z;
  response_date : option Z;
  interview_date : option Z;
  notes : option string;
  created_at : Z
}.

(** [SET status = 'ready_to_apply', cv_version = ?, cover_letter_path = ?] *)
Definition set_ready (cv cover : option string) (r : t) : t :=
  {| id := id r; job_id := job_id r; title := title r; company := company r;
     location := location r; salary_range := salary_range r;
     job_url := job_url r; description := description r;
     requirements := requirements r;
     application_date := application_date r;
     status := "ready_to_apply";
     match_score := match_score r;
     cv_version := cv;
     cover_letter_path := cover;
     follow_up_date := follow_up_date r; response_date := response_date r;
     interview_date := interview_date r; notes := notes r;
     created_at := created_at r |}.

(** [SET status = 'follow_up_needed', follow_up_date = ?] *)
Definition set_follow_up (today : Z) (r : t) : t :=
  {| id := id r; job_id := job_id r; title := title r; company := company r;
     location := location r; salary_range := salary_range r;
     job_url := job_url r; description := description r;
     requirements := requirements r;
     application_date := application_date r;
     status := "follow_up_needed";
     match_score := match_score r;
     cv_version := cv_version r;
     cover_letter_path := cover_letter_path r;
     follow_up_date := Some today; response_date := response_date r;
     interview_date := interview_date r; notes := notes r;
     created_at := created_at r |}.

End App.

(** The database file: the table and the counter of [AUTOINCREMENT],
    the largest [id] handed out so far. *)
Record Database : Type := {
  applications : list App.t;
  sqlite_sequence : Z
}.

(** [UPDATE applications SET ... WHERE id = ?] *)
Definition update_where_id (key : Z) (set : App.t -> App.t)
  (table : list App.t) : list App.t :=
  map (fun r => if App.id r =? key then set r else r) table.

(** The value bound to a text parameter of a statement: a missing cell
    is stored as NULL. *)
Definition to_sql (c : cell) : option string :=
  match c with
  | Str s => Some s
  | NaN | PyNone => None
  end.

(** [job.get(column, '')] *)
Definition get_cell (present : bool) (c : cell) : cell :=
  if present then c else Str "".

(** The identity key computed by [save_jobs_to_database]. *)
Definition make_job_id (job_title job_company : string) : string :=
  PyStr.replace_char " " "_"
    (PyStr.slice_to 50 job_title ++ "_" ++ PyStr.slice_to 30 job_company).

Definition job_id_of (sj : ScoredJob) : string :=
  make_job_id (title (job sj)) (company (job sj)).

Definition has_job_id (key : string) (table : list App.t) : bool :=
  existsb (fun r => String.eqb (App.job_id r) key) table.

(** The row written by the [INSERT] statement for one job. *)
Definition new_row (new_id today now : Z) (has_loc has_desc : bool)
  (sj : ScoredJob) : App.t :=
  {| App.id := new_id;
     App.job_id := job_id_of sj;
     App.title := title (job sj);
     App.company := company (job sj);
     App.location := to_sql (get_cell has_loc (location (job sj)));
     App.salary_range := to_sql (salary (job sj));
     App.job_url := to_sql (job_url (job sj));
     App.description := to_sql (get_cell has_desc (description (job sj)));
     App.requirements := None;
     App.application_date := Some today;
     App.status := "found";
     App.match_score := match_score sj;
     App.cv_version := None;
     App.cover_letter_path := None;
     App.follow_up_date := None;
     App.response_date := None;
     App.interview_date := None;
     App.notes := None;
     App.created_at := now |}.

(** [INSERT OR IGNORE INTO applications ...]: the new database and the
    number of rows changed.  The [id] of the row is taken from the
    [AUTOINCREMENT] counter before the constraints are checked.  A row
    whose [job_id] is already stored violates the [UNIQUE] constraint and
    is ignored: no row is written, but the counter keeps the value
    taken.  The statement itself is taken to succeed: failures of the
    storage engine are outside the model. *)
Definition insert_or_ignore (today now : Z) (has_loc has_desc : bool)
  (sj : ScoredJob) (db : Database) : Database * Z :=
  let new_id := sqlite_sequence db + 1 in
  if has_job_id (job_id_of sj) (applications db)
  then ({| applications := applications db;
           sqlite_sequence := new_id |}, 0)
  else
    ({| applications :=
          applications db ++ [new_row new_id today now has_loc has_desc sj];
        sqlite_sequence := new_id |}, 1).

(** The state of the loop of [save_jobs_to_database]. *)
Record SaveState : Type := {
  conn : Database;
  total_changes : Z;
  new_jobs_count : Z
}.

Definition save_step (today now : Z) (has_loc has_desc : bool)
  (st : SaveState) (sj : ScoredJob) : SaveState :=
  let '(db', changed) :=
    insert_or_ignore today now has_loc has_desc sj (conn st) in
  let total := total_changes st + changed in
  {| conn := db';
     total_changes := total;
     new_jobs_count :=
       if 0 <? total then new_jobs_count st + 1 else new_jobs_count st |}.

Definition save_loop (today now : Z) (has_loc has_desc : bool)
  (l : list ScoredJob) (st : SaveState) : SaveState :=
  fold_left (save_step today now has_loc has_desc) l st.

(** [save_jobs_to_database]: the database afterwards and the value
    returned, [None] for an empty frame. *)
Definition save_jobs_to_database (today now : Z)
  (jobs_df : DataFrame ScoredJob) (db : Database) : Database * option Z :=
  match rows jobs_df with
  | [] => (db, None)
  | _ :: _ =>
      let st :=
        save_loop today now (has_location jobs_df) (has_description jobs_df)
          (rows jobs_df)
          {| conn := db; total_changes := 0; new_jobs_count := 0 |} in
      (conn st, Some (new_jobs_count st))
  end.

(** ** Workflow trigger *)

(** [ORDER BY match_score DESC, created_at DESC]; rows equal on both
    columns are kept in the order of the table. *)
Definition priority_precedes (y x : App.t) : bool :=
  (App.match_score x <? App.match_score y) ||
  ((App.match_score x =? App.match_score y) &&
   (App.created_at x <? App.created_at y)).

Definition is_high_priority (r : App.t) : bool :=
  String.eqb (App.status r) "found" && (85 <=? App.match_score r).

Definition get_high_priority_jobs (db : Database) : list App.t :=
  firstn 10
    (stable_sort priority_precedes (filter is_high_priority (applications db))).

Section WorkflowTrigger.

(** The body of the [try] of [optimize_cv_for_job]: the base CV is read,
    the completion is requested and written to a file whose path is
    returned, or one of these steps raises. *)
Variable cv_request : option string -> string -> result string.

(** The body of the [try] of [generate_cover_letter]. *)
Variable cover_letter_request : App.t -> result string.

Definition optimize_cv_for_job (job_description : option string)
  (job_title : string) : option string :=
  match cv_request job_description job_title with
  | Ok filepath => Some filepath
  | Raise _ => None
  end.

Definition generate_cover_letter (job_data : App.t) : option string :=
  match cover_letter_request job_data with
  | Ok filepath => Some filepath
  | Raise _ => None
  end.

(** One iteration of the loop of [process_high_priority_jobs]. *)
Definition process_job (table : list App.t) (job_data : App.t)
  : list App.t :=
  let cv_path :=
    optimize_cv_for_job (App.description job_data) (App.title job_data) in
  let cover_path := generate_cover_letter job_data in
  update_where_id (App.id job_data) (App.set_ready cv_path cover_path) table.

Definition process_high_priority_jobs (db : Database) : Database :=
  {| applications :=
       fold_left process_job (get_high_priority_jobs db) (applications db);
     sqlite_sequence := sqlite_sequence db |}.

End WorkflowTrigger.

(** [application_date <= ?]: a comparison with NULL is not true. *)
Definition date_leb (d : option Z) (bound : Z) : bool :=
  match d with
  | Some v => v <=? bound
  | None => false
  end.

Definition is_null {A : Type} (v : option A) : bool :=
  match v with
  | Some _ => false
  | None => true
  end.

(** The [WHERE] clause of [check_follow_ups]. *)
Definition needs_follow_up (week_ago : Z) (r : App.t) : bool :=
  date_leb (App.application_date r) week_ago &&
  String.eqb (App.status r) "applied" &&
  is_null (App.response_date r).

Definition check_follow_ups (today : Z) (db : Database) : Database :=
  let week_ago := today - 7 in
  let follow_up_jobs := filter (needs_follow_up week_ago) (applications db) in
  {| applications :=
       fold_left
         (fun table job_row =>
            update_where_id (App.id job_row) (App.set_follow_up today) table)
         follow_up_jobs (applications db);
     sqlite_sequence := sqlite_sequence db |}.

(** ** Invariants of the store *)

(** The constraints of the schema: [id] is the primary key, [job_id] is
    [UNIQUE], and no [id] exceeds the counter of [AUTOINCREMENT]. *)
Record db_wf (db : Database) : Prop := {
  wf_ids : NoDup (map App.id (applications db));
  wf_job_ids : NoDup (map App.job_id (applications db));
  wf_sequence : Forall (fun r => App.id r <= sqlite_sequence db)
                  (applications db)
}.

(** ** Cleaning of the scraped frame *)

(** One row of the frame returned by a scraper: every cell may be
    missing.  [source_platform] and [search_date] are the columns added
    by [search_jobs_multi_platform], [salary_clean] the column added by
    [clean_job_data]. *)
Record ScrapedJob : Type := {
  sc_title : cell;
  sc_company : cell;
  sc_location : cell;
  sc_description : cell;
  sc_salary : cell;
  sc_job_url : cell;
  sc_date_posted : option Z;
  sc_source_platform : cell;
  sc_search_date : option Z;
  sc_salary_clean : cell
}.

(** A scraped frame: its rows and the columns it has among those the
    code tests for.  The columns [title] and [company] are taken to be
    there, and the text columns to hold text or missing values. *)
Record ScrapedFrame : Type := {
  sf_has_salary : bool;
  sf_has_location : bool;
  sf_has_description : bool;
  sf_has_salary_clean : bool;
  sf_rows : list ScrapedJob
}.

Definition is_missing (c : cell) : bool :=
  match c with
  | Str _ => false
  | NaN | PyNone => true
  end.

(** Two cells are the same value for [drop_duplicates]: equal texts, or
    two missing values. *)
Definition cell_same (a b : cell) : bool :=
  match a, b with
  | Str s, Str t => String.eqb s t
  | Str _, _ | _, Str _ => false
  | _, _ => true
  end.

Definition same_key (a b : ScrapedJob) : bool :=
  cell_same (sc_title a) (sc_title b) &&
  cell_same (sc_company a) (sc_company b).

(** [drop_duplicates(subset=['title', 'company'], keep='first')] *)
Fixpoint drop_duplicates_from (seen l : list ScrapedJob)
  : list ScrapedJob :=
  match l with
  | [] => []
  | j :: l' =>
      if existsb (same_key j) seen
      then drop_duplicates_from seen l'
      else j :: drop_duplicates_from (j :: seen) l'
  end.

Definition drop_duplicates (l : list ScrapedJob) : list ScrapedJob :=
  drop_duplicates_from [] l.

(** [s.replace(pat, repl)] for a pattern [pat] that is not empty, and its
    variant that ignores the case of letters, [re.sub] with [IGNORECASE]
    on a pattern of letters: the occurrences are replaced from the left
    and do not overlap.  [skip] counts the characters of an occurrence
    still to pass over. *)
Fixpoint replace_from (ignore_case : bool) (pat repl : string)
  (skip : nat) (s : string) : string :=
  match s with
  | EmptyString => EmptyString
  | String c s' =>
      match skip with
      | S k => replace_from ignore_case pat repl k s'
      | O =>
          if (if ignore_case
              then String.prefix (PyStr.lower pat) (PyStr.lower s)
              else String.prefix pat s)
          then repl ++ replace_from ignore_case pat repl
                         (String.length pat - 1) s'
          else String c (replace_from ignore_case pat repl 0 s')
      end
  end.

Definition str_replace (pat repl s : string) : string :=
  replace_from false pat repl 0 s.

Definition str_replace_ignore_case (pat repl s : string) : string :=
  replace_from true pat repl 0 s.

(** [c.isspace()] on the ASCII characters. *)
Definition py_isspace (c : ascii) : bool :=
  let n := nat_of_ascii c in
  ((9 <=? n)%nat && (n <=? 13)%nat) ||
  ((28 <=? n)%nat && (n <=? 32)%nat).

Fixpoint lstrip (s : string) : string :=
  match s with
  | EmptyString => EmptyString
  | String c s' => if py_isspace c then lstrip s' else s
  end.

Fixpoint rstrip (s : string) : string :=
  match s with
  | EmptyString => EmptyString
  | String c s' =>
      match rstrip s' with
      | EmptyString => if py_isspace c then EmptyString
                       else String c EmptyString
      | rest => String c rest
      end
  end.

(** [s.strip()] *)
Definition strip (s : string) : string := rstrip (lstrip s).

(** A method of the [.str] accessor applied to one cell: a missing cell
    stays missing. *)
Definition str_map (f : string -> string) (c : cell) : cell :=
  match c with
  | Str s => Str (f s)
  | NaN => NaN
  | PyNone => PyNone
  end.

(** [.str.replace('PLN', '').str.replace(',', '').str.strip()] *)
Definition clean_salary (s : string) : string :=
  strip (str_replace "," "" (str_replace "PLN" "" s)).

(** [.str.replace('remote', 'Remote', case=False)] *)
Definition standardize_location (s : string) : string :=
  str_replace_ignore_case "remote" "Remote" s.

Definition with_salary_clean (j : ScrapedJob) : ScrapedJob :=
  {| sc_title := sc_title j; sc_company := sc_company j;
     sc_location := sc_location j; sc_description := sc_description j;
     sc_salary := sc_salary j; sc_job_url := sc_job_url j;
     sc_date_posted := sc_date_posted j;
     sc_source_platform := sc_source_platform j;
     sc_search_date := sc_search_date j;
     sc_salary_clean := str_map clean_salary (sc_salary j) |}.

Definition with_location_standardized (j : ScrapedJob) : ScrapedJob :=
  {| sc_title := sc_title j; sc_company := sc_company j;
     sc_location := str_map standardize_location (sc_location j);
     sc_description := sc_description j;
     sc_salary := sc_salary j; sc_job_url := sc_job_url j;
     sc_date_posted := sc_date_posted j;
     sc_source_platform := sc_source_platform j;
     sc_search_date := sc_search_date j;
     sc_salary_clean := sc_salary_clean j |}.

(** [dropna(subset=['title', 'company'])] keeps the rows that have
    both. *)
Definition has_essentials (j : ScrapedJob) : bool :=
  negb (is_missing (sc_title j)) && negb (is_missing (sc_company j)).

Definition clean_job_data (jobs_df : ScrapedFrame) : ScrapedFrame :=
  match sf_rows jobs_df with
  | [] => jobs_df
  | _ :: _ =>
      let deduplicated := drop_duplicates (sf_rows jobs_df) in
      let with_salary :=
        if sf_has_salary jobs_df
        then map with_salary_clean deduplicated else deduplicated in
      let with_location :=
        if sf_has_location jobs_df
        then map with_location_standardized with_salary else with_salary in
      {| sf_has_salary := sf_has_salary jobs_df;
         sf_has_location := sf_has_location jobs_df;
         sf_has_description := sf_has_description jobs_df;
         sf_has_salary_clean :=
           sf_has_salary jobs_df || sf_has_salary_clean jobs_df;
         sf_rows := filter has_essentials with_location |}
  end.

(** ** Search over the platforms and the daily routine *)

(** The keys of [search_criteria] read by the search alone.  The key
    [locations], read by the filter too, is a field of [Criteria] and is
    taken to be there, as is the key [search_criteria] itself. *)
Record SearchSettings : Type := {
  job_titles : option (list string);
  max_results_per_platform : option Z;
  hours_old : option Z
}.

(** One row of the table [search_history]. *)
Record SearchRun : Type := {
  run_id : Z;
  search_date : Z;
  platform : string;
  search_term : string;
  run_location : string;
  results_count : Z;
  run_new_jobs : option Z;
  run_execution_time : Q
}.

Record SearchHistory : Type := {
  search_runs : list SearchRun;
  search_sequence : Z
}.

(** [l[0]] *)
Definition first_item {A : Type} (l : list A) : result A :=
  match l with
  | x :: _ => Ok x
  | [] => Raise OtherException
  end.

(** [log_search_results]: the columns named by the [INSERT]; [new_jobs]
    is not among them and stays NULL. *)
Definition log_search_results (today : Z) (term place : string)
  (platform_name : string) (count : Z) (elapsed : Q)
  (history : SearchHistory) : SearchHistory :=
  let new_id := search_sequence history + 1 in
  {| search_runs :=
       search_runs history ++
       [ {| run_id := new_id;
            search_date := today;
            platform := platform_name;
            search_term := term;
            run_location := place;
            results_count := count;
            run_new_jobs := None;
            run_execution_time := elapsed |} ];
     search_sequence := new_id |}.

(** [pd.DataFrame()] *)
Definition empty_frame : ScrapedFrame :=
  {| sf_has_salary := false;
     sf_has_location := false;
     sf_has_description := false;
     sf_has_salary_clean := false;
     sf_rows := [] |}.

(** The cells of a row for the columns its frame does not have are
    missing in the concatenation. *)
Definition fill_missing (f : ScrapedFrame) (j : ScrapedJob) : ScrapedJob :=
  {| sc_title := sc_title j; sc_company := sc_company j;
     sc_location := if sf_has_location f then sc_location j else NaN;
     sc_description :=
       if sf_has_description f then sc_description j else NaN;
     sc_salary := if sf_has_salary f then sc_salary j else NaN;
     sc_job_url := sc_job_url j;
     sc_date_posted := sc_date_posted j;
     sc_source_platform := sc_source_platform j;
     sc_search_date := sc_search_date j;
     sc_salary_clean :=
       if sf_has_salary_clean f then sc_salary_clean j else NaN |}.

(** [pd.concat([a, b], ignore_index=True)] *)
Definition concat_frames (a b : ScrapedFrame) : ScrapedFrame :=
  {| sf_has_salary := sf_has_salary a || sf_has_salary b;
     sf_has_location := sf_has_location a || sf_has_location b;
     sf_has_description := sf_has_description a || sf_has_description b;
     sf_has_salary_clean :=
       sf_has_salary_clean a || sf_has_salary_clean b;
     sf_rows :=
       map (fill_missing a) (sf_rows a) ++ map (fill_missing b) (sf_rows b) |}.

(** [jobs['source_platform'] = platform] and
    [jobs['search_date'] = datetime.now().date()] *)
Definition annotate (platform_name : string) (today : Z) (j : ScrapedJob)
  : ScrapedJob :=
  {| sc_title := sc_title j; sc_company := sc_company j;
     sc_location := sc_location j; sc_description := sc_description j;
     sc_salary := sc_salary j; sc_job_url := sc_job_url j;
     sc_date_posted := sc_date_posted j;
     sc_source_platform := Str platform_name;
     sc_search_date := Some today;
     sc_salary_clean := sc_salary_clean j |}.

Definition annotate_frame (platform_name : string) (today : Z)
  (f : ScrapedFrame) : ScrapedFrame :=
  {| sf_has_salary := sf_has_salary f;
     sf_has_location := sf_has_location f;
     sf_has_description := sf_has_description f;
     sf_has_salary_clean := sf_has_salary_clean f;
     sf_rows := map (annotate platform_name today) (sf_rows f) |}.

Definition platforms : list string := ["linkedin"; "indeed"; "glassdoor"].

Section Search.

(** [scrape_jobs] for a platform, a search term, a location, a number of
    results and a number of hours: the frame, [None], or the exception
    raised.  The other arguments of the call are given by the
    platform. *)
Variable scrape_jobs :
  string -> string -> string -> Z -> Z -> result (option ScrapedFrame).

(** The time measured around the call for a platform. *)
Variable elapsed : string -> Q.

(** The body of the [try] of the loop for one platform: the frame
    scraped, when it has rows, with the search term and the location of
    the call. *)
Definition search_platform (criteria : Criteria) (settings : SearchSettings)
  (platform_name : string)
  : result (option (ScrapedFrame * string * string)) :=
  titles <- getitem (job_titles settings) ;;
  term <- first_item titles ;;
  place <- first_item (locations criteria) ;;
  wanted <- getitem (max_results_per_platform settings) ;;
  let hours := match hours_old settings with Some h => h | None => 168 end in
  jobs <- scrape_jobs platform_name term place wanted hours ;;
  match jobs with
  | Some f =>
      match sf_rows f with
      | [] => Ok None
      | _ :: _ => Ok (Some (f, term, place))
      end
  | None => Ok None
  end.

(** One iteration of the loop of [search_jobs_multi_platform]. *)
Definition search_step (criteria : Criteria) (settings : SearchSettings)
  (today : Z) (state : ScrapedFrame * SearchHistory)
  (platform_name : string) : ScrapedFrame * SearchHistory :=
  let '(all_jobs, history) := state in
  match search_platform criteria settings platform_name with
  | Ok (Some (f, term, place)) =>
      (concat_frames all_jobs (annotate_frame platform_name today f),
       log_search_results today term place platform_name
         (Z.of_nat (List.length (sf_rows f))) (elapsed platform_name)
         history)
  | Ok None => state
  | Raise _ => state
  end.

(** The frame before cleaning and the search history after the loop. *)
Definition search_loop (criteria : Criteria) (settings : SearchSettings)
  (today : Z) (history : SearchHistory) : ScrapedFrame * SearchHistory :=
  fold_left (search_step criteria settings today) platforms
    (empty_frame, history).

Definition search_jobs_multi_platform (criteria : Criteria)
  (settings : SearchSettings) (today : Z) (history : SearchHistory)
  : ScrapedFrame * SearchHistory :=
  let '(all_jobs, history') := search_loop criteria settings today history in
  (clean_job_data all_jobs, history').

End Search.

(** [search_polish_job_sites] *)
Definition search_polish_job_sites : ScrapedFrame := empty_frame.

(** A cleaned row as a row of the frame read by [filter_jobs]: rows with
    a missing title or company have none. *)
Definition raw_of_scraped (has_salary : bool) (j : ScrapedJob)
  : option RawJob :=
  match sc_title j, sc_company j with
  | Str t, Str c =>
      Some {| title := t;
              company := c;
              location := sc_location j;
              description := sc_description j;
              salary := if has_salary then sc_salary j else Str "";
              job_url := sc_job_url j;
              date_posted := sc_date_posted j |}
  | _, _ => None
  end.

Definition as_data_frame (f : ScrapedFrame) : DataFrame RawJob :=
  {| has_location := sf_has_location f;
     has_description := sf_has_description f;
     rows :=
       flat_map (fun j => match raw_of_scraped (sf_has_salary f) j with
                          | Some r => [r]
                          | None => []
                          end) (sf_rows f) |}.

(** The dictionary returned by [run_daily_search]. *)
Record Summary : Type := {
  total_jobs : Z;
  filtered_jobs : Z;
  new_jobs : option Z;
  execution_time : Q
}.

Section DailySearch.

Variable scrape_jobs :
  string -> string -> string -> Z -> Z -> result (option ScrapedFrame).
Variable elapsed : string -> Q.
Variable tfidf_cosine : string -> string -> result Q.
Variable fl : Q -> Q.
Variable cv_request : option string -> string -> result string.
Variable cover_letter_request : App.t -> result string.

(** [run_daily_search]: the store and the search history afterwards and
    the value returned, [None] when the body raises. *)
Definition run_daily_search (config : Config) (settings : SearchSettings)
  (today now : Z) (total_time : Q) (db : Database)
  (history : SearchHistory) : Database * SearchHistory * option Summary :=
  let '(all_jobs, history') :=
    search_jobs_multi_platform scrape_jobs elapsed
      (search_criteria config) settings today history in
  let polish_jobs := search_polish_job_sites in
  let all_jobs :=
    match sf_rows polish_jobs with
    | [] => all_jobs
    | _ :: _ => concat_frames all_jobs polish_jobs
    end in
  match filter_jobs tfidf_cosine fl config (as_data_frame all_jobs) with
  | Raise _ => (db, history', None)
  | Ok filtered =>
      let '(db1, new_jobs_count) :=
        save_jobs_to_database today now filtered db in
      let db2 :=
        process_high_priority_jobs cv_request cover_letter_request db1 in
      (db2, history',
       Some {| total_jobs := Z.of_nat (List.length (sf_rows all_jobs));
               filtered_jobs := Z.of_nat (List.length (rows filtered));
               new_jobs := new_jobs_count;
               execution_time := total_time |})
  end.

End DailySearch.

(** ** Performance report *)

(** [COUNT(CASE WHEN p THEN 1 END)] *)
Definition count_rows {A : Type} (p : A -> bool) (l : list A) : Z :=
  Z.of_nat (List.length (filter p l)).

(** [SUM] of an integer column. *)
Definition sum_column {A : Type} (column : A -> Z) (l : list A) : Z :=
  fold_right (fun x total => column x + total) 0 l.

(** The groups of [GROUP BY key]: one for each value of the key.  The
    order of the groups is left open by SQL. *)
Definition group_keys {A : Type} (key : A -> string) (l : list A)
  : list string :=
  nodup string_dec (map key l).

Definition group_of {A : Type} (key : A -> string) (k : string)
  (l : list A) : list A :=
  filter (fun x => String.eqb (key x) k) l.

(** One entry of [stats['search_performance']]. *)
Record PlatformStats : Type := {
  avg_results : Q;
  searches : Z
}.

(** The dictionary returned by [generate_report]. *)
Record Report : Type := {
  report_applications : list (string * Z);
  response_rate : Q;
  avg_match_score : Q;
  search_performance : list (string * PlatformStats)
}.

Section PerformanceReport.

(** Rounding of a real number to a float, and [round(x, ndigits)] on
    floats. *)
Variable fl : Q -> Q.
Variable py_round : nat -> Q -> Q.

(** [AVG] of an integer column: NULL on no row. *)
Definition sql_avg {A : Type} (column : A -> Z) (l : list A) : option Q :=
  match l with
  | [] => None
  | _ :: _ =>
      Some (fl (inject_Z (sum_column column l)
                / inject_Z (Z.of_nat (List.length l))))
  end.

(** [generate_report]; [today] is the date of [date('now')]. *)
Definition generate_report (today : Z) (db : Database)
  (history : SearchHistory) : Report :=
  let apps := applications db in
  let applied :=
    count_rows (fun r => String.eqb (App.status r) "applied") apps in
  let responses :=
    count_rows (fun r => negb (is_null (App.response_date r))) apps in
  let recent :=
    filter (fun r => today - 30 <=? search_date r) (search_runs history) in
  {| report_applications :=
       map (fun k =>
              (k, Z.of_nat (List.length (group_of App.status k apps))))
         (group_keys App.status apps);
     response_rate :=
       if 0 <? applied
       then py_round 2
              (fl (fl (inject_Z responses / inject_Z applied) * 100))
       else 0;
     avg_match_score :=
       match sql_avg App.match_score apps with
       | Some avg_score =>
           if Qeq_bool avg_score 0 then 0 else py_round 2 avg_score
       | None => 0
       end;
     search_performance :=
       map (fun k =>
              (k,
               {| avg_results :=
                    py_round 1
                      (match sql_avg results_count
                               (group_of platform k recent) with
                       | Some a => a
                       | None => 0
                       end);
                  searches :=
                    Z.of_nat
                      (List.length (group_of platform k recent)) |}))
         (group_keys platform recent) |}.

End PerformanceReport.

(** ** Text within the model *)

(** A character of the model has 8 bits.  On ASCII text the characters
    of the model are the characters of the Python string: a slice cuts
    after the same characters, and the letters A to Z are the only ones
    with another case.  The statements on keys and on matching that
    ignores the case are made for such text. *)
Definition ascii_char (c : ascii) : bool := (nat_of_ascii c <? 128)%nat.

Fixpoint ascii_text (s : string) : bool :=
  match s with
  | EmptyString => true
  | String c s' => ascii_char c && ascii_text s'
  end.




(** A character with a meaning of its own in a regular expression. *)
Definition regex_special (c : ascii) : bool :=
  existsb (Ascii.eqb c)
    [ "."%char; "^"%char; "$"%char; "*"%char; "+"%char; "?"%char;
      "{"%char; "}"%char; "["%char; "]"%char; "\"%char; "|"%char;
      "("%char; ")"%char ].

(** An entry of the criteria is plain when it is ASCII text without such
    a character.  [str.contains] compiles the entries joined by [|] as a
    regular expression; for plain entries the pattern is valid and
    matches the texts that have one of the entries as a substring, which
    is what [str_contains] computes.  Other entries are outside the
    model: they can match otherwise or make the call raise. *)
Fixpoint plain_text (s : string) : bool :=
  match s with
  | EmptyString => true
  | String c s' => ascii_char c && negb (regex_special c) && plain_text s'
  end.

Definition plain_criteria (criteria : Criteria) : bool :=
  forallb plain_text (locations criteria) &&
  match blacklisted_companies criteria with
  | Some blacklist => forallb plain_text blacklist
  | None => true
  end.

(** ** The words of the specification *)

Definition is_whitespace (c : ascii) : bool :=
  let n := nat_of_ascii c in
  ((9 <=? n)%nat && (n <=? 13)%nat) || (n =? 32)%nat.

Fixpoint replace_whitespace (sep : ascii) (s : string) : string :=
  match s with
  | EmptyString => EmptyString
  | String c s' =>
      String (if is_whitespace c then sep else c) (replace_whitespace sep s')
  end.

(** The fingerprint as the specification words it: the case-normalized
    concatenation of the first 50 characters of the title and the first
    30 of the company, whitespace replaced by the separator. *)
Definition spec_fingerprint (job_title job_company : string) : string :=
  replace_whitespace "_"
    (PyStr.lower
       (PyStr.slice_to 50 job_title ++ "_" ++ PyStr.slice_to 30 job_company)).




(** The bonus keywords found in a text, the case of the letters
    ignored. *)
Definition bonus_keywords_in (text : string) : list string :=
  filter (fun keyword => PyStr.contains_ci keyword text) bonus_keywords.

(** The score that [filter_jobs] gives to a row: the value of the match
    scorer, or the default when the frame has no description column. *)
Definition row_score (tfidf_cosine : string -> string -> result Q)
  (fl : Q -> Q) (config : Config) (has_desc : bool) (j : RawJob) : Z :=
  if has_desc
  then match calculate_job_match_score tfidf_cosine fl config
               (py_str (description j)) (title j) with
       | Ok v => v
       | Raise _ => 0
       end
  else 50.

Definition attach_score (tfidf_cosine : string -> string -> result Q)
  (fl : Q -> Q) (config : Config) (has_desc : bool) (j : RawJob)
  : ScoredJob :=
  {| job := j; match_score := row_score tfidf_cosine fl config has_desc j |}.

(** ** Sample collaborators *)

(** Floating-point operations whose exact result is a float. *)
Definition fl_exact (x : Q) : Q := x.

Definition is_word_char (c : ascii) : bool :=
  let n := nat_of_ascii c in
  ((48 <=? n)%nat && (n <=? 57)%nat) ||
  ((65 <=? n)%nat && (n <=? 90)%nat) ||
  ((97 <=? n)%nat && (n <=? 122)%nat) ||
  (n =? 95)%nat.

(** The document has a word of two or more word characters, the tokens
    of [TfidfVectorizer]. *)
Fixpoint has_word (s : string) : bool :=
  match s with
  | String a ((String b _) as s') =>
      (is_word_char a && is_word_char b) || has_word s'
  | _ => false
  end.

(** The outcome of the vectorizer on two documents free of stop words of
    which at most one has a word.  With no word at all the vocabulary is
    empty and [fit_transform] raises [ValueError]; a document without a
    word has the zero row, whose cosine with any row is 0.  Two documents
    with words are outside this table, which answers [OtherException]
    there. *)
Definition tfidf_on_short_words (user_skill_text job_text : string)
  : result Q :=
  match has_word user_skill_text, has_word job_text with
  | false, false => Raise ValueError
  | true, true => Raise OtherException
  | _, _ => Ok 0%Q
  end.

(** A vectorizer that finds the same similarity for every pair of
    documents. *)
Definition tfidf_constant (similarity : Q) (_ _ : string) : result Q :=
  Ok similarity.

(** A profile of two one-letter skills. *)
Definition config_short_skills : Config :=
  {| user_profile :=
       Some {| technical_skills := Some ["C"; "R"];
               core_competencies := Some [] |};
     search_criteria :=
       {| locations := ["Remote"];
          blacklisted_companies := None;
          min_match_score := None |} |}.

(** A profile without any skill. *)
Definition config_no_skills : Config :=
  {| user_profile :=
       Some {| technical_skills := Some [];
               core_competencies := Some [] |};
     search_criteria :=
       {| locations := ["Remote"];
          blacklisted_companies := None;
          min_match_score := None |} |}.

(** A store without rows. *)
Definition empty_db : Database :=
  {| applications := []; sqlite_sequence := 0 |}.

(** A row of a frame with the given title, company, location and
    description, its other cells missing. *)
Definition sample_job (job_title job_company : string)
  (job_location job_description : cell) (posted : option Z) : RawJob :=
  {| title := job_title;
     company := job_company;
     location := job_location;
     description := job_description;
     salary := NaN;
     job_url := NaN;
     date_posted := posted |}.

Definition sample_frame {A : Type} (l : list A) : DataFrame A :=
  {| has_location := true; has_description := true; rows := l |}.

(** Two records whose titles differ in the case of one letter. *)
Definition frame_case_variants : DataFrame ScoredJob :=
  sample_frame
    [ {| job := sample_job "Analyst" "Globex" (Str "Remote") (Str "") None;
         match_score := 80 |};
      {| job := sample_job "analyst" "Globex" (Str "Remote") (Str "") None;
         match_score := 80 |} ].

(** Two records of one posting with different descriptions, followed by
    another posting. *)
Definition posting_first_wording : ScoredJob :=
  {| job := sample_job "Business Analyst" "Globex" (Str "Remote")
              (Str "first wording") None;
     match_score := 80 |}.

Definition posting_second_wording : ScoredJob :=
  {| job := sample_job "Business Analyst" "Globex" (Str "Warsaw")
              (Str "second wording") None;
     match_score := 75 |}.

Definition posting_other : ScoredJob :=
  {| job := sample_job "Product Manager" "Initech" (Str "Remote")
              (Str "") None;
     match_score := 90 |}.

Definition frame_with_duplicate : DataFrame ScoredJob :=
  sample_frame [posting_first_wording; posting_second_wording; posting_other].

(** A stored row for a business analyst posting of the given company,
    with the given status, score and dates. *)
Definition sample_row (row_id : Z) (job_company : string)
  (row_status : string) (score : Z) (applied responded : option Z)
  (created : Z) : App.t :=
  {| App.id := row_id;
     App.job_id := make_job_id "Business Analyst" job_company;
     App.title := "Business Analyst";
     App.company := job_company;
     App.location := Some "Remote";
     App.salary_range := None;
     App.job_url := None;
     App.description := Some "Requirements analysis";
     App.requirements := None;
     App.application_date := applied;
     App.status := row_status;
     App.match_score := score;
     App.cv_version := None;
     App.cover_letter_path := None;
     App.follow_up_date := None;
     App.response_date := responded;
     App.interview_date := None;
     App.notes := None;
     App.created_at := created |}.

(** On day 100: an application of day 90 without response, one of day 90
    answered on day 95, and one of day 97. *)
Definition db_applications : Database :=
  {| applications :=
       [ sample_row 1 "Globex" "applied" 90 (Some 90) None 1000;
         sample_row 2 "Initech" "applied" 88 (Some 90) (Some 95) 1000;
         sample_row 3 "Hooli" "applied" 86 (Some 97) None 2000 ];
     sqlite_sequence := 3 |}.

(** A store with one job found with score 90 and one with score 70. *)
Definition db_found : Database :=
  {| applications :=
       [ sample_row 1 "Globex" "found" 90 (Some 90) None 1000;
         sample_row 2 "Initech" "found" 70 (Some 90) None 1000 ];
     sqlite_sequence := 2 |}.

(** A CV optimization that fails: the completion request raises. *)
Definition cv_request_failing (_ : option string) (_ : string)
  : result string :=
  Raise OtherException.

Definition cv_request_ok (_ : option string) (_ : string) : result string :=
  Ok "optimized_cvs/cv_optimized_20240102_090000.txt".

Definition cover_letter_request_ok (_ : App.t) : result string :=
  Ok "cover_letters/cover_letter_Globex_20240102_090001.txt".

(** The row is one of the selected rows, compared by [id]. *)
Definition selected_by_id (selection : list App.t) (r : App.t) : bool :=
  existsb (fun j => App.id j =? App.id r) selection.

(** The criteria of the example of the specification. *)
Definition example_criteria : Criteria :=
  {| locations := ["Remote"; "Warsaw"];
     blacklisted_companies := Some ["Acme"];
     min_match_score := Some 70 |}.

Definition config_example : Config :=
  {| user_profile :=
       Some {| technical_skills := Some ["SQL"; "Python"];
               core_competencies := Some ["Requirements analysis"] |};
     search_criteria := example_criteria |}.

(** The four jobs of the example, the company of the first one being the
    blacklisted one.  With a similarity of 0.65 for every job their
    bonus keywords give them the scores 80, 90, 65 and 75. *)
Definition example_frame : DataFrame RawJob :=
  sample_frame
    [ sample_job "Senior Business Analyst" "Acme Corp"
        (Str "Acme Remote Office") (Str "SQL reporting") None;
      sample_job "Senior Business Analyst" "Initech"
        (Str "Krakow") (Str "SQL requirements stakeholder") None;
      sample_job "Product Manager" "Hooli"
        (Str "Remote") (Str "Roadmap ownership") None;
      sample_job "Business Analyst" "Globex"
        (Str "Warsaw") (Str "CRM rollout") None ].

(** A profile of five one-letter skills, with the criteria of the
    example. *)
Definition config_letters : Config :=
  {| user_profile :=
       Some {| technical_skills := Some ["C"; "R"; "J"; "K"];
               core_competencies := Some ["Q"] |};
     search_criteria := example_criteria |}.

(** The first job of the example with the company of the fourth: only
    its location names the blacklisted company.  Four of the five skills
    of [config_letters] occur in its title and no document has a word of
    two characters, so that the fallback scores it 80. *)
Definition frame_acme_location : DataFrame RawJob :=
  sample_frame
    [ sample_job "C R J K" "Globex" (Str "Acme Remote Office") (Str "")
        None ].




(** The first posting of [frame_with_duplicate] seen again with another
    score. *)
Definition frame_rescored : DataFrame ScoredJob :=
  sample_frame
    [ {| job := sample_job "Business Analyst" "Globex" (Str "Remote")
                  (Str "third wording") None;
         match_score := 99 |} ].

(** The configuration written by [main] when there is none. *)
Definition default_config : Config :=
  {| user_profile :=
       Some {| technical_skills :=
                 Some [ "Transact-SQL"; "C#"; "JavaScript"; "Python";
                        "Microsoft SQL Server"; "Business Intelligence" ];
               core_competencies :=
                 Some [ "Requirements elicitation and analysis";
                        "Solution design and implementation";
                        "CRM systems specialization";
                        "Business process analysis and modelling";
                        "Data structure analysis" ] |};
     search_criteria :=
       {| locations := ["Remote"; "Poland"; "Warsaw"; "Krakow"; "Wroclaw"];
          blacklisted_companies := Some [];
          min_match_score := Some 70 |} |}.

(** The skills of [config_short_skills] written in lower case. *)
Definition config_short_skills_lower : Config :=
  {| user_profile :=
       Some {| technical_skills := Some ["c"];
               core_competencies := Some ["r"] |};
     search_criteria :=
       {| locations := ["Remote"];
          blacklisted_companies := None;
          min_match_score := None |} |}.



(** A row added by the loop of [save_jobs_to_database] for a batch: the
    row of the [INSERT] statement for a record of the batch, under an
    [id] above the counter the loop started from. *)
Definition written_for (today now : Z) (has_loc has_desc : bool)
  (l : list ScoredJob) (start : Z) (r : App.t) : Prop :=
  exists sj, In sj l /\
    r = new_row (App.id r) today now has_loc has_desc sj /\
    start < App.id r.

(** The two counters of the loop agree: the counter of changes is at most
    the count of new jobs, and both are zero together. *)
Definition counters_agree (st : SaveState) : Prop :=
  0 <= total_changes st <= new_jobs_count st /\
  (total_changes st = 0 -> new_jobs_count st = 0).

(** The order of [ORDER BY match_score DESC, created_at DESC] on two
    rows: the first does not have to come after the second. *)
Definition priority_order (x y : App.t) : Prop :=
  App.match_score y < App.match_score x \/
  (App.match_score y = App.match_score x /\
   App.created_at y <= App.created_at x).

(** The calls that write the table [applications]: the save step of an
    ingestion, the high-priority pass and the follow-up sweep. *)
Inductive store_op : Type :=
| SaveJobs (today now : Z) (jobs_df : DataFrame ScoredJob)
| ProcessHighPriority
| CheckFollowUps (today : Z).

Definition apply_op
  (cv_request : option string -> string -> result string)
  (cover_letter_request : App.t -> result string)
  (db : Database) (op : store_op) : Database :=
  match op with
  | SaveJobs today now jobs_df =>
      fst (save_jobs_to_database today now jobs_df db)
  | ProcessHighPriority =>
      process_high_priority_jobs cv_request cover_letter_request db
  | CheckFollowUps today => check_follow_ups today db
  end.

Definition run_ops
  (cv_request : option string -> string -> result string)
  (cover_letter_request : App.t -> result string)
  (ops : list store_op) (db : Database) : Database :=
  fold_left (apply_op cv_request cover_letter_request) ops db.

(** The columns of a stored row that are written once, by the
    [INSERT]. *)
Definition inserted_columns (r : App.t) :=
  (App.id r, App.job_id r, App.title r, App.company r, App.location r,
   App.salary_range r, App.job_url r, App.description r,
   App.application_date r, App.match_score r, App.created_at r).

(** Fifteen jobs found with the score 90, created one after the other. *)
Definition db_fifteen_found : Database :=
  {| applications :=
       map (fun n =>
              sample_row (Z.of_nat n)
                (String (ascii_of_nat (64 + n)) EmptyString)
                "found" 90 (Some 90) None (1000 + Z.of_nat n))
         (seq 1 15);
     sqlite_sequence := 15 |}.

(** The row of a selected job after the high-priority pass, and the row
    of any job after a pass with the given selection. *)
Definition ready_row
  (cv_request : option string -> string -> result string)
  (cover_letter_request : App.t -> result string) (r : App.t) : App.t :=
  App.set_ready
    (optimize_cv_for_job cv_request (App.description r) (App.title r))
    (generate_cover_letter cover_letter_request r) r.

Definition pass_row
  (cv_request : option string -> string -> result string)
  (cover_letter_request : App.t -> result string)
  (selection : list App.t) (r : App.t) : App.t :=
  if selected_by_id selection r
  then ready_row cv_request cover_letter_request r else r.

(** The row of a job after a follow-up sweep. *)
Definition sweep_row (today : Z) (r : App.t) : App.t :=
  if needs_follow_up (today - 7) r then App.set_follow_up today r else r.

(** A store with a high-priority job, an application of day 90 without
    response and a job found with a low score. *)
Definition db_mixed : Database :=
  {| applications :=
       [ sample_row 1 "Globex" "found" 90 (Some 90) None 1000;
         sample_row 2 "Initech" "applied" 88 (Some 90) None 1000;
         sample_row 3 "Hooli" "found" 70 (Some 97) None 2000 ];
     sqlite_sequence := 3 |}.

(** The statuses that the code writes on rows it has inserted. *)
Definition written_status (r : App.t) : Prop :=
  App.status r = "found" \/ App.status r = "ready_to_apply".

(** [s[k:]] *)
Fixpoint slice_from (k : nat) (s : string) : string :=
  match k, s with
  | O, _ => s
  | S _, EmptyString => EmptyString
  | S k', String _ s' => slice_from k' s'
  end.

(** A scraped frame with a duplicate, a row without company and
    locations written in several ways. *)
Definition scraped_row (job_title job_company job_location : cell)
  (job_salary : cell) : ScrapedJob :=
  {| sc_title := job_title;
     sc_company := job_company;
     sc_location := job_location;
     sc_description := Str "Requirements analysis";
     sc_salary := job_salary;
     sc_job_url := NaN;
     sc_date_posted := None;
     sc_source_platform := Str "linkedin";
     sc_search_date := Some 20;
     sc_salary_clean := NaN |}.

Definition scraped_sample : ScrapedFrame :=
  {| sf_has_salary := true;
     sf_has_location := true;
     sf_has_description := true;
     sf_has_salary_clean := false;
     sf_rows :=
       [ scraped_row (Str "Business Analyst") (Str "Globex")
           (Str "REMOTE (Poland)") (Str " 12,000 PLN ");
         scraped_row (Str "Business Analyst") (Str "Globex")
           (Str "Warsaw") NaN;
         scraped_row (Str "Product Manager") NaN
           (Str "Krakow") (Str "9,500 PLN");
         scraped_row (Str "Product Manager") (Str "Initech")
           (Str "fully remote") PyNone ] |}.

(** The row of the cleaned frame for a row kept by [clean_job_data]. *)
Definition cleaned_row (has_salary has_location : bool) (j : ScrapedJob)
  : ScrapedJob :=
  (if has_location then with_location_standardized else fun j => j)
    ((if has_salary then with_salary_clean else fun j => j) j).

(** What a platform contributes to the search: the frame scraped with
    the search term and the location when the call gave rows, nothing
    when it raised or gave none. *)
Definition platform_answer
  (scrape_jobs :
     string -> string -> string -> Z -> Z -> result (option ScrapedFrame))
  (criteria : Criteria) (settings : SearchSettings) (platform_name : string)
  : option (ScrapedFrame * string * string) :=
  match search_platform scrape_jobs criteria settings platform_name with
  | Ok (Some answer) => Some answer
  | Ok None => None
  | Raise _ => None
  end.

(** The rows of a platform in the collected frame. *)
Definition platform_rows
  (scrape_jobs :
     string -> string -> string -> Z -> Z -> result (option ScrapedFrame))
  (criteria : Criteria) (settings : SearchSettings) (today : Z)
  (platform_name : string) : list ScrapedJob :=
  match platform_answer scrape_jobs criteria settings platform_name with
  | Some (f, _, _) =>
      map (fun j => fill_missing f (annotate platform_name today j))
        (sf_rows f)
  | None => []
  end.

(** The number of results over a list of search runs. *)
Definition sum_counts (l : list SearchRun) : Z :=
  fold_right (fun r total => results_count r + total) 0 l.

Definition empty_history : SearchHistory :=
  {| search_runs := []; search_sequence := 0 |}.

Definition sample_settings : SearchSettings :=
  {| job_titles := Some ["Business Analyst"];
     max_results_per_platform := Some 50;
     hours_old := None |}.

Definition settings_without_titles : SearchSettings :=
  {| job_titles := Some [];
     max_results_per_platform := Some 50;
     hours_old := None |}.

(** A scraper whose call for linkedin raises and whose frames for indeed
    and glassdoor both hold the job of Globex. *)
Definition indeed_frame : ScrapedFrame :=
  {| sf_has_salary := false;
     sf_has_location := true;
     sf_has_description := true;
     sf_has_salary_clean := false;
     sf_rows :=
       [ scraped_row (Str "Business Analyst") (Str "Globex")
           (Str "Warsaw") NaN;
         scraped_row (Str "Product Manager") (Str "Initech")
           (Str "remote") NaN ] |}.

Definition glassdoor_frame : ScrapedFrame :=
  {| sf_has_salary := true;
     sf_has_location := true;
     sf_has_description := true;
     sf_has_salary_clean := false;
     sf_rows :=
       [ scraped_row (Str "Business Analyst") (Str "Globex")
           (Str "Krakow") (Str "15,000 PLN") ] |}.

Definition sample_scraper (platform_name _ _ : string) (_ _ : Z)
  : result (option ScrapedFrame) :=
  if String.eqb platform_name "linkedin" then Raise OtherException
  else if String.eqb platform_name "indeed" then Ok (Some indeed_frame)
  else Ok (Some glassdoor_frame).

Definition sample_elapsed (_ : string) : Q := 3 # 2.

(** The character occurs in the text. *)
Fixpoint has_char (c : ascii) (s : string) : bool :=
  match s with
  | EmptyString => false
  | String a s' => Ascii.eqb a c || has_char c s'
  end.

(** Two postings whose titles differ after the 50th character and whose
    companies differ after the 30th. *)
Definition posting_long_remote : ScoredJob :=
  {| job := sample_job
              "Senior Business Analyst for Customer Relationship Systems (Remote)"
              "International Business Consulting Group Poland"
              (Str "Remote") (Str "first wording") None;
     match_score := 80 |}.

Definition posting_long_warsaw : ScoredJob :=
  {| job := sample_job
              "Senior Business Analyst for Customer Relationship Systems (Warsaw)"
              "International Business Consulting Group Germany"
              (Str "Warsaw") (Str "second wording") None;
     match_score := 75 |}.

Definition frame_long_titles : DataFrame ScoredJob :=
  sample_frame [posting_long_remote; posting_long_warsaw; posting_other].







(** ** Auxiliary notions *)

(** Two elements are in order for [precedes] when the second does not
    have to come before the first. *)
Definition in_order {A : Type} (precedes : A -> A -> bool) (x y : A)
  : Prop :=
  precedes y x = false.

(** The loop [for job in selection: UPDATE ... WHERE id = job.id], where
    [set job] gives the new value of a row, and its effect on one row. *)
Definition row_update (set : App.t -> App.t -> App.t) (r j : App.t)
  : App.t :=
  if App.id r =? App.id j then set j r else r.

Definition run_updates (set : App.t -> App.t -> App.t)
  (selection table : list App.t) : list App.t :=
  fold_left (fun t j => update_where_id (App.id j) (set j) t) selection table.

Unset Implicit Arguments.

(** ** Facts on strings *)

Lemma prefix_app (s1 s2 extra : string) :
  String.prefix s1 s2 = true -> String.prefix s1 (s2 ++ extra) = true.
Proof.
  revert s1.
  induction s2 as [| b s2 IH]; intros [| a s1] H.
  - destruct extra; reflexivity.
  - discriminate H.
  - reflexivity.
  - simpl in *. destruct (ascii_dec a b); auto.
Qed.

Lemma contains_app (needle hay extra : string) :
  PyStr.contains needle hay = true ->
  PyStr.contains needle (hay ++ extra) = true.
Proof.
  induction hay as [| c hay IH].
  - simpl. rewrite orb_false_r. intros H.
    destruct needle; [| discriminate H].
    destruct extra; reflexivity.
  - cbn [PyStr.contains append]. intros H.
    apply orb_true_iff in H. apply orb_true_iff.
    destruct H as [H | H].
    + left. apply (prefix_app _ (String c hay) extra H).
    + right. auto.
Qed.

Lemma lower_app (s1 s2 : string) :
  PyStr.lower (s1 ++ s2) = PyStr.lower s1 ++ PyStr.lower s2.
Proof.
  induction s1 as [| c s1 IH]; simpl; [reflexivity | now rewrite IH].
Qed.

Lemma contains_ci_app (needle hay extra : string) :
  PyStr.contains_ci needle hay = true ->
  PyStr.contains_ci needle (hay ++ extra) = true.
Proof.
  unfold PyStr.contains_ci. rewrite lower_app. apply contains_app.
Qed.

Lemma append_assoc (s1 s2 s3 : string) :
  (s1 ++ s2) ++ s3 = s1 ++ (s2 ++ s3).
Proof.
  induction s1 as [| c s1 IH]; simpl; [reflexivity | now rewrite IH].
Qed.

(** ** Facts on lists *)

Lemma filter_length_le {A : Type} (f g : A -> bool) (l : list A) :
  (forall x, In x l -> f x = true -> g x = true) ->
  (List.length (filter f l) <= List.length (filter g l))%nat.
Proof.
  induction l as [| x l IH]; intros H; simpl; [lia |].
  assert (IH' := IH (fun y Hy => H y (or_intror Hy))).
  destruct (f x) eqn:Ef.
  - rewrite (H x (or_introl eq_refl) Ef). simpl. lia.
  - destruct (g x); simpl; lia.
Qed.

Lemma sum_of_fives {A : Type} (l : list A) :
  fold_right Z.add 0 (map (fun _ => 5) l) = 5 * Z.of_nat (List.length l).
Proof.
  induction l as [| x l IH]; [reflexivity |].
  cbn [map fold_right List.length]. rewrite IH. lia.
Qed.

Lemma NoDup_snoc {A : Type} (l : list A) (x : A) :
  NoDup l -> ~ In x l -> NoDup (l ++ [x]).
Proof.
  intros Hl Hx. induction l as [| y l IH]; simpl.
  - constructor; [intros [] | constructor].
  - inversion Hl as [| ? ? Hy Hl']; subst.
    constructor.
    + intros Hin. apply in_app_or in Hin. destruct Hin as [Hin | [-> | []]].
      * contradiction.
      * apply Hx. now left.
    + apply IH; [exact Hl' |]. intros Hin. apply Hx. now right.
Qed.

(** ** Facts on the match scorer *)

Lemma py_int_nonneg (x : Q) : (0 <= x)%Q -> 0 <= py_int x.
Proof.
  unfold Qle, py_int. simpl. intros H.
  apply Z.quot_pos; lia.
Qed.

Lemma bonus_score_count (job_text : string) :
  bonus_score job_text =
  5 * Z.of_nat
        (List.length
           (filter (fun keyword => PyStr.contains keyword job_text)
              bonus_keywords)).
Proof. unfold bonus_score. apply sum_of_fives. Qed.

Lemma bonus_score_nonneg (job_text : string) : 0 <= bonus_score job_text.
Proof. rewrite bonus_score_count. lia. Qed.

(** The keywords are written in lower case, so the test of the code on
    the lowered text is the test of the specification. *)
Lemma bonus_score_ci (job_title job_description : string) :
  bonus_score (job_text_of job_title job_description) =
  5 * Z.of_nat
        (List.length
           (bonus_keywords_in (job_title ++ " " ++ job_description))).
Proof.
  rewrite bonus_score_count. unfold bonus_keywords_in, job_text_of.
  replace (filter (fun keyword =>
             PyStr.contains keyword
               (PyStr.lower (job_title ++ " " ++ job_description)))
             bonus_keywords)
    with (filter (fun keyword =>
             PyStr.contains_ci keyword (job_title ++ " " ++ job_description))
             bonus_keywords); [reflexivity |].
  apply filter_ext_in. intros kw Hkw. unfold PyStr.contains_ci.
  assert (Hl : PyStr.lower kw = kw).
  { unfold bonus_keywords in Hkw. simpl in Hkw.
    repeat (destruct Hkw as [<- | Hkw]; [reflexivity |]). destruct Hkw. }
  now rewrite Hl.
Qed.

Lemma inject_Z_nonneg (z : Z) : 0 <= z -> (0 <= inject_Z z)%Q.
Proof. unfold Qle. simpl. lia. Qed.

Lemma ratio_nonneg (m n : Z) :
  0 <= m -> 0 <= n -> (0 <= inject_Z m / inject_Z n)%Q.
Proof.
  intros Hm Hn. unfold Qdiv. apply Qmult_le_0_compat.
  - apply inject_Z_nonneg, Hm.
  - apply Qinv_le_0_compat. apply inject_Z_nonneg, Hn.
Qed.

Lemma times_100_nonneg (x : Q) : (0 <= x)%Q -> (0 <= x * 100)%Q.
Proof. intros H. apply Qmult_le_0_compat; [exact H | discriminate]. Qed.

Section ScorerFacts.

Variable tfidf_cosine : string -> string -> result Q.
Variable fl : Q -> Q.

Hypothesis fl_nonneg : forall x, (0 <= x)%Q -> (0 <= fl x)%Q.

Lemma base_score_nonneg (similarity : Q) :
  (0 <= similarity)%Q -> 0 <= base_score_of fl similarity.
Proof.
  intros H. unfold base_score_of.
  apply py_int_nonneg, fl_nonneg, times_100_nonneg, H.
Qed.

Lemma simple_keyword_match_range (job_text : string)
  (user_skills : list string) (v : Z) :
  simple_keyword_match fl job_text user_skills = Ok v -> 0 <= v <= 100.
Proof.
  unfold simple_keyword_match.
  destruct user_skills as [| skill rest]; [discriminate |].
  intros H. injection H as <-.
  match goal with
  | |- context [py_int ?x] => assert (0 <= py_int x)
  end.
  { apply py_int_nonneg, fl_nonneg, times_100_nonneg, fl_nonneg.
    apply ratio_nonneg; lia. }
  lia.
Qed.

End ScorerFacts.

(** The scorer returns a value whatever the vectorizer does, and the
    value is 0 whenever the body of its outer [try] raises. *)
Lemma score_total (tfidf_cosine : string -> string -> result Q)
  (fl : Q -> Q) (config : Config) (job_description job_title : string) :
  exists v,
    calculate_job_match_score tfidf_cosine fl config
      job_description job_title = Ok v /\
    (forall e,
        score_body tfidf_cosine fl config job_description job_title = Raise e ->
        v = 0).
Proof.
  unfold calculate_job_match_score.
  destruct (score_body tfidf_cosine fl config job_description job_title)
    as [v | e].
  - exists v. split; [reflexivity | discriminate].
  - exists 0. split; [reflexivity | reflexivity].
Qed.

(** The scoring of the rows never raises. *)
Lemma score_rows_value (tfidf_cosine : string -> string -> result Q)
  (fl : Q -> Q) (config : Config) (has_desc : bool) (l : list RawJob) :
  score_rows tfidf_cosine fl config has_desc l =
  Ok (map (attach_score tfidf_cosine fl config has_desc) l).
Proof.
  unfold score_rows. destruct has_desc; [| reflexivity].
  induction l as [| j l IH]; [reflexivity |].
  cbn [map_result map]. rewrite IH.
  unfold attach_score at 2, row_score.
  destruct (score_total tfidf_cosine fl config (py_str (description j))
              (title j)) as [v [Hv _]].
  rewrite Hv. reflexivity.
Qed.

(** The value of the score on the TF-IDF path. *)
Lemma score_tfidf_path (tfidf_cosine : string -> string -> result Q)
  (fl : Q -> Q) (config : Config) (user_skills : list string)
  (job_description job_title : string) (similarity : Q) :
  user_skills_of config = Ok user_skills ->
  tfidf_cosine (user_skill_text_of user_skills)
    (job_text_of job_title job_description) = Ok similarity ->
  calculate_job_match_score tfidf_cosine fl config job_description job_title =
  Ok (Z.min
        (base_score_of fl similarity +
         5 * Z.of_nat
               (List.length
                  (bonus_keywords_in (job_title ++ " " ++ job_description))))
        100).
Proof.
  intros Hs Ht.
  unfold calculate_job_match_score, score_body.
  rewrite Hs. cbn [bind]. rewrite Ht.
  cbn [bind try_except_ValueError try_except_Exception].
  now rewrite bonus_score_ci.
Qed.

(** ** Properties of the match scorer *)

(** C3: on every path the match scorer returns an integer of [0,100]:
    the TF-IDF path and the keyword-overlap fallback are both capped at
    100, and no path returns a negative value.  The vectorizer is assumed
    to return non-negative similarities and the rounding of floats to keep
    non-negative values non-negative. *)
Theorem match_score_in_range
  (tfidf_cosine : string -> string -> result Q) (fl : Q -> Q)
  (fl_nonneg : forall x, (0 <= x)%Q -> (0 <= fl x)%Q)
  (cosine_nonneg :
     forall a b q, tfidf_cosine a b = Ok q -> (0 <= q)%Q)
  (config : Config) (job_description job_title : string) :
  (exists v,
      calculate_job_match_score tfidf_cosine fl config
        job_description job_title = Ok v /\ 0 <= v <= 100) /\
  (forall user_skills similarity,
      user_skills_of config = Ok user_skills ->
      tfidf_cosine (user_skill_text_of user_skills)
        (job_text_of job_title job_description) = Ok similarity ->
      exists v,
        score_body tfidf_cosine fl config job_description job_title = Ok v /\
        0 <= v <= 100) /\
  (forall job_text user_skills v,
      simple_keyword_match fl job_text user_skills = Ok v -> 0 <= v <= 100).
Proof.
  assert (Hbody : forall v,
             score_body tfidf_cosine fl config job_description job_title
             = Ok v -> 0 <= v <= 100).
  { unfold score_body. intros v.
    destruct (user_skills_of config) as [skills | e]; [| discriminate].
    cbn [bind].
    destruct (tfidf_cosine (user_skill_text_of skills)
                (job_text_of job_title job_description)) as [q | e] eqn:Et.
    - cbn [bind try_except_ValueError]. intros H. injection H as <-.
      pose proof (@base_score_nonneg fl fl_nonneg q (cosine_nonneg _ _ _ Et)).
      pose proof (bonus_score_nonneg (job_text_of job_title job_description)).
      lia.
    - destruct e; cbn [bind try_except_ValueError]; try discriminate.
      apply simple_keyword_match_range, fl_nonneg. }
  split; [| split].
  - unfold calculate_job_match_score.
    destruct (score_body tfidf_cosine fl config job_description job_title)
      as [v | e] eqn:Eb.
    + exists v. split; [reflexivity | apply Hbody; reflexivity].
    + exists 0. cbn. split; [reflexivity | lia].
  - intros skills q Hs Ht.
    assert (Eb : score_body tfidf_cosine fl config job_description job_title
                 = Ok (Z.min (base_score_of fl q
                              + bonus_score (job_text_of job_title
                                               job_description)) 100)).
    { unfold score_body. rewrite Hs. cbn [bind]. rewrite Ht. reflexivity. }
    eexists. split; [exact Eb | apply Hbody, Eb].
  - intros job_text skills v. apply simple_keyword_match_range, fl_nonneg.
Qed.

(** C6: the match scorer never raises.  It returns a value for every
    input and every behaviour of the vectorizer; the value is 0 whenever
    the scoring itself fails, as when the vectorizer raises [ValueError]
    and the fallback divides by the length of an empty skill list.  The
    scoring of the rows of a frame therefore goes through all the rows. *)
Theorem match_score_never_raises
  (tfidf_cosine : string -> string -> result Q) (fl : Q -> Q)
  (config : Config) (job_description job_title : string) :
  (exists v,
      calculate_job_match_score tfidf_cosine fl config
        job_description job_title = Ok v /\
      (forall e,
          score_body tfidf_cosine fl config job_description job_title
          = Raise e -> v = 0) /\
      (user_skills_of config = Ok [] ->
       tfidf_cosine (user_skill_text_of [])
         (job_text_of job_title job_description) = Raise ValueError ->
       score_body tfidf_cosine fl config job_description job_title
       = Raise ZeroDivisionError /\ v = 0)) /\
  (forall has_desc l,
      exists scored,
        score_rows tfidf_cosine fl config has_desc l = Ok scored /\
        List.length scored = List.length l).
Proof.
  split.
  - destruct (score_total tfidf_cosine fl config job_description job_title)
      as [v [Hv H0]].
    exists v. split; [exact Hv | split; [exact H0 |]].
    intros Hs Ht.
    assert (Eb : score_body tfidf_cosine fl config job_description job_title
                 = Raise ZeroDivisionError).
    { unfold score_body. rewrite Hs. cbn [bind]. rewrite Ht. reflexivity. }
    split; [exact Eb | exact (H0 _ Eb)].
  - intros has_desc l. eexists.
    split; [apply score_rows_value | apply length_map].
Qed.

(** C4, as amended: on the TF-IDF path the score is the base score plus
    5 points for each bonus keyword that occurs in the title and
    description, the case of the letters ignored, capped at 100; when the
    description is extended and the base score of the extended text is
    not lower, the score is not lower. *)
Theorem bonus_adds_five_each
  (tfidf_cosine : string -> string -> result Q) (fl : Q -> Q)
  (config : Config) (user_skills : list string)
  (job_title job_description extra : string) (similarity similarity' : Q) :
  user_skills_of config = Ok user_skills ->
  tfidf_cosine (user_skill_text_of user_skills)
    (job_text_of job_title job_description) = Ok similarity ->
  tfidf_cosine (user_skill_text_of user_skills)
    (job_text_of job_title (job_description ++ extra)) = Ok similarity' ->
  base_score_of fl similarity <= base_score_of fl similarity' ->
  exists s s',
    calculate_job_match_score tfidf_cosine fl config
      job_description job_title = Ok s /\
    calculate_job_match_score tfidf_cosine fl config
      (job_description ++ extra) job_title = Ok s' /\
    s = Z.min
          (base_score_of fl similarity +
           5 * Z.of_nat
                 (List.length
                    (bonus_keywords_in (job_title ++ " " ++ job_description))))
          100 /\
    s' = Z.min
           (base_score_of fl similarity' +
            5 * Z.of_nat
                  (List.length
                     (bonus_keywords_in
                        (job_title ++ " " ++ job_description ++ extra))))
           100 /\
    s <= s'.
Proof.
  intros Hs Ht Ht' Hbase.
  do 2 eexists.
  split; [apply (score_tfidf_path _ _ _ _ _ _ _ Hs Ht) |].
  split; [apply (score_tfidf_path _ _ _ _ _ _ _ Hs Ht') |].
  split; [reflexivity | split; [reflexivity |]].
  assert (Hlen :
    (List.length (bonus_keywords_in (job_title ++ " " ++ job_description))
     <= List.length
          (bonus_keywords_in (job_title ++ " " ++ job_description ++ extra)))%nat).
  { unfold bonus_keywords_in. apply filter_length_le.
    intros kw _ Hk.
    replace (job_title ++ " " ++ job_description ++ extra)
      with ((job_title ++ " " ++ job_description) ++ extra).
    - now apply contains_ci_app.
    - rewrite append_assoc. reflexivity. }
  lia.
Qed.

Lemma match_score_in_range_witness :
  (forall x, (0 <= x)%Q -> (0 <= fl_exact x)%Q) /\
  (forall a b q, tfidf_on_short_words a b = Ok q -> (0 <= q)%Q) /\
  exists v,
    calculate_job_match_score tfidf_on_short_words fl_exact
      config_short_skills "" "C" = Ok v /\ 0 <= v <= 100.
Proof.
  assert (H1 : forall x, (0 <= x)%Q -> (0 <= fl_exact x)%Q)
    by (intros x Hx; exact Hx).
  assert (H2 : forall a b q, tfidf_on_short_words a b = Ok q -> (0 <= q)%Q).
  { intros a b q. unfold tfidf_on_short_words.
    destruct (has_word a), (has_word b); intros H;
      try discriminate H; injection H as <-; apply Qle_refl. }
  split; [exact H1 | split; [exact H2 |]].
  exact (proj1 (match_score_in_range tfidf_on_short_words fl_exact H1 H2
                  config_short_skills "" "C")).
Defined.

Lemma match_score_never_raises_witness :
  user_skills_of config_no_skills = Ok [] /\
  tfidf_on_short_words (user_skill_text_of []) (job_text_of "a" "")
  = Raise ValueError /\
  exists v,
    calculate_job_match_score tfidf_on_short_words fl_exact
      config_no_skills "" "a" = Ok v /\ v = 0.
Proof.
  split; [reflexivity | split; [reflexivity |]].
  destruct (proj1 (match_score_never_raises tfidf_on_short_words fl_exact
                     config_no_skills "" "a")) as [v [Hv [_ H0]]].
  exists v. split; [exact Hv |].
  exact (proj2 (H0 eq_refl eq_refl)).
Defined.

Lemma bonus_adds_five_each_witness :
  user_skills_of config_short_skills = Ok ["C"; "R"] /\
  tfidf_constant (1 # 2) (user_skill_text_of ["C"; "R"])
    (job_text_of "Senior Analyst" "SQL") = Ok (1 # 2)%Q /\
  tfidf_constant (1 # 2) (user_skill_text_of ["C"; "R"])
    (job_text_of "Senior Analyst" ("SQL" ++ " remote")) = Ok (1 # 2)%Q /\
  base_score_of fl_exact (1 # 2) <= base_score_of fl_exact (1 # 2) /\
  exists s s',
    calculate_job_match_score (tfidf_constant (1 # 2)) fl_exact
      config_short_skills "SQL" "Senior Analyst" = Ok s /\
    calculate_job_match_score (tfidf_constant (1 # 2)) fl_exact
      config_short_skills ("SQL" ++ " remote") "Senior Analyst" = Ok s' /\
    s = 60 /\ s' = 65 /\ s <= s'.
Proof.
  split; [reflexivity | split; [reflexivity | split; [reflexivity |]]].
  split; [apply Z.le_refl |].
  destruct (bonus_adds_five_each (tfidf_constant (1 # 2)) fl_exact
              config_short_skills ["C"; "R"] "Senior Analyst" "SQL" " remote"
              (1 # 2)%Q (1 # 2)%Q eq_refl eq_refl eq_refl (Z.le_refl _))
    as [s [s' [H1 [H2 [H3 [H4 H5]]]]]].
  exists s, s'.
  split; [exact H1 | split; [exact H2 |]].
  split; [rewrite H3; reflexivity | split; [rewrite H4; reflexivity | exact H5]].
Defined.

(** C4, as stated, fails: with the skills "C" and "R" and the title "C",
    the vocabulary of the two documents is empty and the fallback scores
    50; once the description holds the bonus keyword "sql" the vectorizer
    succeeds with similarity 0 and the score is the bonus alone, 5. *)
Lemma bonus_keyword_can_lower_score :
  In "sql" bonus_keywords /\
  job_text_of "C" ("" ++ "sql") = job_text_of "C" "" ++ "sql" /\
  calculate_job_match_score tfidf_on_short_words fl_exact
    config_short_skills "" "C" = Ok 50 /\
  calculate_job_match_score tfidf_on_short_words fl_exact
    config_short_skills ("" ++ "sql") "C" = Ok 5.
Proof.
  split; [simpl; tauto |].
  split; [reflexivity | split; vm_compute; reflexivity].
Qed.

(** ** Facts on the job store *)

Lemma has_job_id_app (key : string) (l1 l2 : list App.t) :
  has_job_id key (l1 ++ l2) = has_job_id key l1 || has_job_id key l2.
Proof. unfold has_job_id. apply existsb_app. Qed.

Lemma has_job_id_In (key : string) (table : list App.t) :
  has_job_id key table = true <-> In key (map App.job_id table).
Proof.
  unfold has_job_id. rewrite existsb_exists, in_map_iff.
  split; intros [r [H1 H2]]; exists r.
  - apply String.eqb_eq in H2. auto.
  - split; [exact H2 | apply String.eqb_eq, H1].
Qed.

Section SaveFacts.

Variables today now : Z.
Variables has_loc has_desc : bool.

Let insert := insert_or_ignore today now has_loc has_desc.
Let step := save_step today now has_loc has_desc.
Let loop := save_loop today now has_loc has_desc.


Lemma insert_cases (sj : ScoredJob) (db : Database) :
  (has_job_id (job_id_of sj) (applications db) = true /\
   insert sj db =
   ({| applications := applications db;
       sqlite_sequence := sqlite_sequence db + 1 |}, 0)) \/
  (has_job_id (job_id_of sj) (applications db) = false /\
   insert sj db =
   ({| applications :=
         applications db ++
         [new_row (sqlite_sequence db + 1) today now has_loc has_desc sj];
       sqlite_sequence := sqlite_sequence db + 1 |}, 1)).
Proof.
  unfold insert, insert_or_ignore.
  destruct (has_job_id (job_id_of sj) (applications db)); auto.
Qed.

(** Every statement takes one value of the counter. *)
Lemma insert_sequence (sj : ScoredJob) (db : Database) :
  sqlite_sequence (fst (insert sj db)) = sqlite_sequence db + 1.
Proof.
  destruct (insert_cases sj db) as [[H ->] | [H ->]]; reflexivity.
Qed.

Lemma insert_stores_key (sj : ScoredJob) (db : Database) :
  has_job_id (job_id_of sj) (applications (fst (insert sj db))) = true.
Proof.
  destruct (insert_cases sj db) as [[H ->] | [H ->]]; simpl.
  - exact H.
  - rewrite has_job_id_app. apply orb_true_iff. right.
    simpl. now rewrite String.eqb_refl.
Qed.

Lemma insert_keeps_keys (key : string) (sj : ScoredJob) (db : Database) :
  has_job_id key (applications db) = true ->
  has_job_id key (applications (fst (insert sj db))) = true.
Proof.
  intros Hk.
  destruct (insert_cases sj db) as [[H ->] | [H ->]]; simpl.
  - exact Hk.
  - rewrite has_job_id_app, Hk. reflexivity.
Qed.


Lemma insert_changes (sj : ScoredJob) (db : Database) :
  0 <= snd (insert sj db) <= 1.
Proof.
  destruct (insert_cases sj db) as [[H ->] | [H ->]]; simpl; lia.
Qed.

Lemma insert_wf (sj : ScoredJob) (db : Database) :
  db_wf db -> db_wf (fst (insert sj db)).
Proof.
  intros [Hid Hkey Hseq].
  destruct (insert_cases sj db) as [[H ->] | [H ->]]; simpl.
  - constructor; simpl; [exact Hid | exact Hkey |].
    eapply Forall_impl; [| exact Hseq]. simpl. intros r Hr. lia.
  - constructor; simpl.
    + rewrite map_app. simpl.
      apply NoDup_snoc; [exact Hid |].
      intros Hin. apply in_map_iff in Hin. destruct Hin as [r [Hr Hin]].
      rewrite Forall_forall in Hseq. specialize (Hseq r Hin). lia.
    + rewrite map_app. simpl.
      apply NoDup_snoc; [exact Hkey |].
      intros Hin. apply has_job_id_In in Hin. congruence.
    + apply Forall_app. split.
      * eapply Forall_impl; [| exact Hseq]. simpl. intros r Hr. lia.
      * constructor; [simpl; lia | constructor].
Qed.

Lemma step_conn (st : SaveState) (sj : ScoredJob) :
  conn (step st sj) = fst (insert sj (conn st)).
Proof.
  unfold step, save_step, insert.
  destruct (insert_or_ignore today now has_loc has_desc sj (conn st)).
  reflexivity.
Qed.

Lemma step_total (st : SaveState) (sj : ScoredJob) :
  total_changes (step st sj) = total_changes st + snd (insert sj (conn st)).
Proof.
  unfold step, save_step, insert.
  destruct (insert_or_ignore today now has_loc has_desc sj (conn st)).
  reflexivity.
Qed.

Lemma step_count (st : SaveState) (sj : ScoredJob) :
  new_jobs_count (step st sj) =
  if 0 <? total_changes (step st sj)
  then new_jobs_count st + 1 else new_jobs_count st.
Proof.
  unfold step, save_step, insert.
  destruct (insert_or_ignore today now has_loc has_desc sj (conn st)).
  reflexivity.
Qed.

Lemma loop_cons (sj : ScoredJob) (l : list ScoredJob) (st : SaveState) :
  loop (sj :: l) st = loop l (step st sj).
Proof. reflexivity. Qed.

Lemma loop_wf (l : list ScoredJob) (st : SaveState) :
  db_wf (conn st) -> db_wf (conn (loop l st)).
Proof.
  revert st. induction l as [| sj l IH]; intros st H; [exact H |].
  rewrite loop_cons. apply IH. rewrite step_conn. now apply insert_wf.
Qed.

Lemma loop_keeps_keys (key : string) (l : list ScoredJob) (st : SaveState) :
  has_job_id key (applications (conn st)) = true ->
  has_job_id key (applications (conn (loop l st))) = true.
Proof.
  revert st. induction l as [| sj l IH]; intros st H; [exact H |].
  rewrite loop_cons. apply IH. rewrite step_conn. now apply insert_keeps_keys.
Qed.

Lemma loop_stores_keys (l : list ScoredJob) (st : SaveState) (sj : ScoredJob) :
  In sj l ->
  has_job_id (job_id_of sj) (applications (conn (loop l st))) = true.
Proof.
  revert st. induction l as [| x l IH]; intros st Hin; [destruct Hin |].
  rewrite loop_cons. destruct Hin as [-> | Hin].
  - apply loop_keeps_keys. rewrite step_conn. apply insert_stores_key.
  - now apply IH.
Qed.

(** The counter advances by one for every record of the batch. *)
Lemma loop_sequence (l : list ScoredJob) (st : SaveState) :
  sqlite_sequence (conn (loop l st))
  = sqlite_sequence (conn st) + Z.of_nat (List.length l).
Proof.
  revert st. induction l as [| x l IH]; intros st;
    [cbn [List.length]; simpl; lia |].
  rewrite loop_cons, IH, step_conn, insert_sequence.
  cbn [List.length]. lia.
Qed.





End SaveFacts.

(** The constraints of a store given by its rows are checked by
    computation. *)
Ltac check_constraints :=
  constructor; simpl;
  repeat (constructor; simpl); try lia; intuition discriminate.

Lemma empty_db_wf : db_wf empty_db.
Proof. check_constraints. Qed.

Lemma filter_absent_key (key : string) (table : list App.t) :
  ~ In key (map App.job_id table) ->
  filter (fun r => String.eqb (App.job_id r) key) table = [].
Proof.
  induction table as [| r table IH]; intros Hnotin; [reflexivity |].
  simpl. destruct (String.eqb (App.job_id r) key) eqn:E.
  - apply String.eqb_eq in E. exfalso. apply Hnotin. left. exact E.
  - apply IH. intros Hin. apply Hnotin. now right.
Qed.

Lemma count_unique_key (key : string) (table : list App.t) :
  NoDup (map App.job_id table) ->
  has_job_id key table = true ->
  List.length (filter (fun r => String.eqb (App.job_id r) key) table) = 1%nat.
Proof.
  induction table as [| r table IH]; intros Hnd Hk; [discriminate Hk |].
  simpl in Hnd. inversion Hnd as [| ? ? Hnotin Hnd']; subst.
  cbn [filter]. destruct (String.eqb (App.job_id r) key) eqn:E.
  - apply String.eqb_eq in E. subst key. cbn [List.length]. f_equal.
    now rewrite filter_absent_key.
  - apply IH; [exact Hnd' |].
    simpl in Hk. unfold has_job_id in *. simpl in Hk. now rewrite E in Hk.
Qed.

(** The database left by [save_jobs_to_database], through the loop. *)
Lemma save_conn (today now : Z) (jobs_df : DataFrame ScoredJob)
  (db : Database) :
  fst (save_jobs_to_database today now jobs_df db) =
  conn (save_loop today now (has_location jobs_df) (has_description jobs_df)
          (rows jobs_df)
          {| conn := db; total_changes := 0; new_jobs_count := 0 |}).
Proof.
  unfold save_jobs_to_database.
  destruct (rows jobs_df); reflexivity.
Qed.

(** The value returned by [save_jobs_to_database] for a frame with
    rows. *)
Lemma save_count (today now : Z) (jobs_df : DataFrame ScoredJob)
  (db : Database) :
  rows jobs_df <> [] ->
  snd (save_jobs_to_database today now jobs_df db) =
  Some (new_jobs_count
          (save_loop today now (has_location jobs_df)
             (has_description jobs_df) (rows jobs_df)
             {| conn := db; total_changes := 0; new_jobs_count := 0 |})).
Proof.
  intros H. unfold save_jobs_to_database.
  destruct (rows jobs_df); [contradiction | reflexivity].
Qed.

(** ** Properties of the job store *)

(** C1, as amended: for ASCII titles and companies, two records of a
    batch whose titles have the same first 50 characters and whose
    companies have the same first 30 characters, the case of the letters
    included, get the same key, and after the ingestion the store holds
    exactly one row with that key.  The key is the two prefixes joined by
    an underscore with every space replaced by an underscore; it depends
    on the title and the company alone, and the store stays well formed
    for the next ingestion. *)
Theorem same_prefixes_one_row (today now : Z)
  (jobs_df : DataFrame ScoredJob) (db : Database) (sj1 sj2 : ScoredJob) :
  db_wf db ->
  In sj1 (rows jobs_df) ->
  In sj2 (rows jobs_df) ->
  ascii_text (title (job sj1)) = true ->
  ascii_text (company (job sj1)) = true ->
  ascii_text (title (job sj2)) = true ->
  ascii_text (company (job sj2)) = true ->
  PyStr.slice_to 50 (title (job sj1)) = PyStr.slice_to 50 (title (job sj2)) ->
  PyStr.slice_to 30 (company (job sj1))
  = PyStr.slice_to 30 (company (job sj2)) ->
  let db' := fst (save_jobs_to_database today now jobs_df db) in
  job_id_of sj1 = job_id_of sj2 /\
  job_id_of sj1 =
    PyStr.replace_char " " "_"
      (PyStr.slice_to 50 (title (job sj1)) ++ "_"
       ++ PyStr.slice_to 30 (company (job sj1))) /\
  List.length
    (filter (fun r => String.eqb (App.job_id r) (job_id_of sj1))
       (applications db')) = 1%nat /\
  db_wf db'.
Proof.
  intros Hwf H1 H2 _ _ _ _ Ht Hc db'.
  assert (Hwf' : db_wf db').
  { unfold db'. rewrite save_conn. now apply loop_wf. }
  split; [| split; [reflexivity | split; [| exact Hwf']]].
  - unfold job_id_of, make_job_id. now rewrite Ht, Hc.
  - apply count_unique_key; [apply Hwf' |].
    unfold db'. rewrite save_conn. now apply loop_stores_keys.
Qed.

Lemma same_prefixes_one_row_witness :
  db_wf empty_db /\
  In posting_long_remote (rows frame_long_titles) /\
  In posting_long_warsaw (rows frame_long_titles) /\
  title (job posting_long_remote) <> title (job posting_long_warsaw) /\
  company (job posting_long_remote) <> company (job posting_long_warsaw) /\
  drop_duplicates_title_company (map job (rows frame_long_titles))
  = map job (rows frame_long_titles) /\
  let db' := fst (save_jobs_to_database 20 1000 frame_long_titles
                    empty_db) in
  job_id_of posting_long_remote = job_id_of posting_long_warsaw /\
  job_id_of posting_long_remote
  = "Senior_Business_Analyst_for_Customer_Relationship__International_Business_Consult" /\
  List.length
    (filter
       (fun r => String.eqb (App.job_id r) (job_id_of posting_long_remote))
       (applications db')) = 1%nat.
Proof.
  assert (H1 : In posting_long_remote (rows frame_long_titles))
    by (simpl; auto).
  assert (H2 : In posting_long_warsaw (rows frame_long_titles))
    by (simpl; auto).
  split; [exact empty_db_wf | split; [exact H1 | split; [exact H2 |]]].
  split; [discriminate | split; [discriminate |]].
  split; [reflexivity |].
  destruct (same_prefixes_one_row 20 1000 frame_long_titles empty_db
              posting_long_remote posting_long_warsaw
              empty_db_wf H1 H2 eq_refl eq_refl eq_refl eq_refl
              eq_refl eq_refl) as [Ha [_ [Hb _]]].
  split; [exact Ha | split; [reflexivity | exact Hb]].
Defined.

(** C1, as stated, fails: the titles "Analyst" and "analyst" agree once
    the case is normalized, yet the two records are not duplicates for
    [clean_job_data], they are stored as two rows, and the stored keys
    are not the case-normalized fingerprint. *)
Lemma case_variants_stored_twice :
  PyStr.lower (PyStr.slice_to 50 "Analyst")
  = PyStr.lower (PyStr.slice_to 50 "analyst") /\
  drop_duplicates_title_company (map job (rows frame_case_variants))
  = map job (rows frame_case_variants) /\
  map App.job_id
    (applications
       (fst (save_jobs_to_database 20 1000 frame_case_variants empty_db)))
  = ["Analyst_Globex"; "analyst_Globex"] /\
  spec_fingerprint "Analyst" "Globex" = "analyst_globex".
Proof. repeat split. Qed.







(** ** Facts on sorting *)

Section SortFacts.

Variable A : Type.
Variable precedes : A -> A -> bool.

Lemma insert_sorted_perm (x : A) (l : list A) :
  Permutation (x :: l) (insert_sorted precedes x l).
Proof.
  induction l as [| y l IH]; simpl; [apply Permutation_refl |].
  destruct (precedes y x).
  - eapply perm_trans; [apply perm_swap |]. now apply perm_skip.
  - apply Permutation_refl.
Qed.

Lemma stable_sort_perm (l : list A) : Permutation l (stable_sort precedes l).
Proof.
  induction l as [| x l IH]; simpl; [apply perm_nil |].
  eapply perm_trans; [| apply insert_sorted_perm]. now apply perm_skip.
Qed.

Hypothesis precedes_trans :
  forall x y z,
    in_order precedes x y -> in_order precedes y z -> in_order precedes x z.
Hypothesis precedes_asym :
  forall x y, precedes y x = true -> in_order precedes y x.

Lemma insert_sorted_sorted (x : A) (l : list A) :
  StronglySorted (in_order precedes) l ->
  StronglySorted (in_order precedes) (insert_sorted precedes x l).
Proof.
  induction l as [| y l IH]; intros Hs; simpl.
  - constructor; [constructor | constructor].
  - inversion Hs as [| ? ? Hs' Hall]; subst.
    destruct (precedes y x) eqn:E.
    + constructor; [now apply IH |].
      apply Forall_forall. intros z Hz.
      apply (Permutation_in _ (Permutation_sym (insert_sorted_perm x l))) in Hz.
      destruct Hz as [<- | Hz].
      * now apply precedes_asym.
      * rewrite Forall_forall in Hall. now apply Hall.
    + constructor; [exact Hs |].
      constructor; [exact E |].
      eapply Forall_impl; [| exact Hall].
      intros z Hz. now apply (precedes_trans x y z).
Qed.

Lemma stable_sort_sorted (l : list A) :
  StronglySorted (in_order precedes) (stable_sort precedes l).
Proof.
  induction l as [| x l IH]; simpl; [constructor |].
  now apply insert_sorted_sorted.
Qed.

End SortFacts.

(** ** Facts on updates by primary key *)

Lemma NoDup_map_injective {A B : Type} (f : A -> B) (l : list A) (x y : A) :
  NoDup (map f l) -> In x l -> In y l -> f x = f y -> x = y.
Proof.
  induction l as [| a l IH]; intros Hnd Hx Hy Hf; [destruct Hx |].
  simpl in Hnd. inversion Hnd as [| ? ? Hnotin Hnd']; subst.
  destruct Hx as [-> | Hx], Hy as [-> | Hy].
  - reflexivity.
  - exfalso. apply Hnotin. rewrite Hf. now apply in_map.
  - exfalso. apply Hnotin. rewrite <- Hf. now apply in_map.
  - now apply IH.
Qed.

Lemma NoDup_firstn {A : Type} (n : nat) (l : list A) :
  NoDup l -> NoDup (firstn n l).
Proof.
  intros H. rewrite <- (firstn_skipn n l) in H.
  now apply NoDup_app_remove_r in H.
Qed.

Lemma firstn_incl {A : Type} (n : nat) (l : list A) : incl (firstn n l) l.
Proof.
  intros x Hx. rewrite <- (firstn_skipn n l). apply in_or_app. now left.
Qed.

Section Updates.

(** [set job row]: the new value of a row updated for [job]. *)
Variable set : App.t -> App.t -> App.t.

Hypothesis set_id : forall j r, App.id (set j r) = App.id r.

Lemma run_updates_rowwise (selection table : list App.t) :
  run_updates set selection table =
  map (fun r => fold_left (row_update set) selection r) table.
Proof.
  unfold run_updates. revert table.
  induction selection as [| j selection IH]; intros table; simpl.
  - symmetry. apply map_id.
  - rewrite IH. unfold update_where_id. rewrite map_map. reflexivity.
Qed.

Lemma row_update_missed (selection : list App.t) (r : App.t) :
  (forall j, In j selection -> App.id j <> App.id r) ->
  fold_left (row_update set) selection r = r.
Proof.
  induction selection as [| a selection IH]; intros H; [reflexivity |].
  simpl. unfold row_update at 2.
  destruct (App.id r =? App.id a) eqn:E.
  - apply Z.eqb_eq in E. exfalso. apply (H a); [now left | auto].
  - apply IH. intros j Hj. apply H. now right.
Qed.

Lemma row_update_hit (selection : list App.t) (r j : App.t) :
  NoDup (map App.id selection) ->
  In j selection ->
  App.id j = App.id r ->
  fold_left (row_update set) selection r = set j r.
Proof.
  induction selection as [| a selection IH]; intros Hnd Hin Hid;
    [destruct Hin |].
  simpl in Hnd. inversion Hnd as [| ? ? Hnotin Hnd']; subst.
  simpl. unfold row_update at 2.
  destruct (App.id r =? App.id a) eqn:E.
  - apply Z.eqb_eq in E.
    assert (a = j) as ->.
    { destruct Hin as [-> | Hin]; [reflexivity |].
      exfalso. apply Hnotin. rewrite <- E, <- Hid. now apply in_map. }
    apply row_update_missed. intros j' Hj' Heq.
    apply Hnotin. rewrite set_id in Heq. rewrite <- E, <- Heq.
    now apply in_map.
  - apply Z.eqb_neq in E.
    destruct Hin as [-> | Hin]; [congruence |].
    now apply IH.
Qed.

(** With [id] a key of the table and the selection made of rows of the
    table, the loop of updates changes the selected rows, each for
    itself, and no other row. *)
Lemma run_updates_selected (selection table : list App.t) :
  NoDup (map App.id table) ->
  NoDup (map App.id selection) ->
  incl selection table ->
  run_updates set selection table =
  map (fun r => if selected_by_id selection r then set r r else r) table.
Proof.
  intros Hnd Hsel Hincl. rewrite run_updates_rowwise.
  apply map_ext_in. intros r Hr.
  destruct (selected_by_id selection r) eqn:E.
  - unfold selected_by_id in E. apply existsb_exists in E.
    destruct E as [j [Hj E]]. apply Z.eqb_eq in E.
    assert (j = r) as ->
      by (apply (NoDup_map_injective App.id table); auto).
    now apply row_update_hit.
  - apply row_update_missed. intros j Hj Heq.
    assert (selected_by_id selection r = true); [| congruence].
    unfold selected_by_id. apply existsb_exists. exists j.
    split; [exact Hj | now apply Z.eqb_eq].
Qed.

End Updates.

Lemma selected_by_id_In (selection table : list App.t) (r : App.t) :
  NoDup (map App.id table) ->
  incl selection table ->
  In r table ->
  selected_by_id selection r = true <-> In r selection.
Proof.
  intros Hnd Hincl Hr. unfold selected_by_id. rewrite existsb_exists.
  split.
  - intros [j [Hj E]]. apply Z.eqb_eq in E.
    assert (j = r) as ->
      by (apply (NoDup_map_injective App.id table); auto).
    exact Hj.
  - intros Hin. exists r. split; [exact Hin | apply Z.eqb_refl].
Qed.

Lemma selected_by_id_filter (p : App.t -> bool) (table : list App.t)
  (r : App.t) :
  NoDup (map App.id table) ->
  In r table ->
  selected_by_id (filter p table) r = p r.
Proof.
  intros Hnd Hr.
  pose proof (selected_by_id_In (filter p table) table r Hnd
                (incl_filter p table) Hr) as H.
  rewrite filter_In in H.
  destruct (p r) eqn:E.
  - apply H. auto.
  - destruct (selected_by_id (filter p table) r); [| reflexivity].
    destruct (proj1 H eq_refl) as [_ Habs]. discriminate Habs.
Qed.

(** A selection keeps [id] a key. *)
Lemma filter_keeps_key (p : App.t -> bool) (table : list App.t) :
  NoDup (map App.id table) -> NoDup (map App.id (filter p table)).
Proof.
  induction table as [| r table IH]; intros H; [constructor |].
  simpl in H. apply NoDup_cons_iff in H. destruct H as [Hnotin Hnd].
  simpl. destruct (p r); [| now apply IH].
  simpl. constructor; [| now apply IH].
  intros Hin. apply Hnotin. apply in_map_iff in Hin.
  destruct Hin as [y [Hy Hin]]. apply filter_In in Hin.
  rewrite <- Hy. apply in_map. tauto.
Qed.

(** ** Properties of the workflow trigger *)

Lemma db_applications_wf : db_wf db_applications.
Proof. check_constraints. Qed.

Lemma db_found_wf : db_wf db_found.
Proof. check_constraints. Qed.

(** The rows of the table after the sweep. *)
Lemma check_follow_ups_rows (today : Z) (db : Database) :
  db_wf db ->
  applications (check_follow_ups today db) =
  map (fun r =>
         if needs_follow_up (today - 7) r
         then App.set_follow_up today r else r)
    (applications db).
Proof.
  intros [Hid _ _]. unfold check_follow_ups. cbn [applications].
  change (fold_left _ _ _)
    with (run_updates (fun _ => App.set_follow_up today)
            (filter (needs_follow_up (today - 7)) (applications db))
            (applications db)).
  rewrite run_updates_selected.
  - apply map_ext_in. intros r Hr.
    now rewrite selected_by_id_filter.
  - reflexivity.
  - exact Hid.
  - now apply filter_keeps_key.
  - apply incl_filter.
Qed.

Lemma follow_up_not_selected_again (today : Z) (r : App.t) :
  needs_follow_up (today - 7)
    (if needs_follow_up (today - 7) r
     then App.set_follow_up today r else r) = false.
Proof.
  destruct (needs_follow_up (today - 7) r) eqn:E; [| exact E].
  unfold needs_follow_up. simpl.
  now rewrite andb_false_r.
Qed.

(** C5: the follow-up sweep changes exactly the stored jobs with status
    [applied], an application date at least 7 days before today and no
    response date: their status becomes [follow_up_needed] and their
    follow-up date today, nothing else of the store changes, and a second
    sweep on the same day changes nothing. *)
Theorem follow_up_sweep (today : Z) (db : Database) :
  db_wf db ->
  let db' := check_follow_ups today db in
  applications db' =
    map (fun r =>
           if match App.application_date r with
              | Some d => d <=? today - 7
              | None => false
              end
              && String.eqb (App.status r) "applied"
              && match App.response_date r with
                 | None => true
                 | Some _ => false
                 end
           then App.set_follow_up today r
           else r)
      (applications db) /\
  sqlite_sequence db' = sqlite_sequence db /\
  (forall r, App.status (App.set_follow_up today r) = "follow_up_needed" /\
             App.follow_up_date (App.set_follow_up today r) = Some today) /\
  check_follow_ups today db' = db'.
Proof.
  intros Hwf db'.
  assert (Hrows := check_follow_ups_rows today db Hwf). fold db' in Hrows.
  split; [exact Hrows | split; [reflexivity | split; [now split |]]].
  unfold check_follow_ups at 1.
  assert (Hnone : filter (needs_follow_up (today - 7)) (applications db') = []).
  { rewrite Hrows. clear Hrows.
    induction (applications db) as [| r l IH]; [reflexivity |].
    cbn [map filter]. now rewrite follow_up_not_selected_again. }
  cbv zeta. rewrite Hnone. cbn [fold_left].
  destruct db' as [rows' seq']. reflexivity.
Qed.

Lemma follow_up_sweep_witness :
  db_wf db_applications /\
  map (fun r => (App.id r, App.status r, App.follow_up_date r))
    (applications (check_follow_ups 100 db_applications))
  = [ (1, "follow_up_needed", Some 100);
      (2, "applied", None);
      (3, "applied", None) ] /\
  check_follow_ups 100 (check_follow_ups 100 db_applications)
  = check_follow_ups 100 db_applications.
Proof.
  split; [exact db_applications_wf |].
  destruct (follow_up_sweep 100 db_applications db_applications_wf)
    as [Hrows [_ [_ Hidem]]].
  split; [rewrite Hrows; reflexivity | exact Hidem].
Defined.

Lemma high_priority_selection (db : Database) :
  db_wf db ->
  NoDup (map App.id (get_high_priority_jobs db)) /\
  incl (get_high_priority_jobs db) (applications db) /\
  (forall r, In r (get_high_priority_jobs db) ->
             App.status r = "found" /\ 85 <= App.match_score r).
Proof.
  intros [Hid _ _]. unfold get_high_priority_jobs.
  set (hp := filter is_high_priority (applications db)).
  assert (Hperm := stable_sort_perm App.t priority_precedes hp).
  assert (Hincl : incl (firstn 10 (stable_sort priority_precedes hp)) hp).
  { intros r Hr. apply firstn_incl in Hr.
    now apply (Permutation_in _ (Permutation_sym Hperm)). }
  split; [| split].
  - rewrite <- firstn_map. apply NoDup_firstn.
    apply (Permutation_NoDup (Permutation_map App.id Hperm)).
    now apply filter_keeps_key.
  - intros r Hr. apply Hincl in Hr.
    exact (incl_filter is_high_priority (applications db) r Hr).
  - intros r Hr. apply Hincl in Hr. apply filter_In in Hr.
    destruct Hr as [_ Hr]. unfold is_high_priority in Hr.
    apply andb_true_iff in Hr. destruct Hr as [H1 H2].
    split; [now apply String.eqb_eq | now apply Z.leb_le].
Qed.

(** C2, as amended: the high-priority pass sets every selected job to
    [ready_to_apply] whether the two generations succeeded or failed, and
    stores their outcomes, an artifact reference or NULL for a failure, in
    [cv_version] and [cover_letter_path]: a failed CV optimization leaves
    NULL in the first and a failed cover letter NULL in the second.  No
    other column of a selected job and no other job changes.  When both
    generations succeed both references are stored. *)
Theorem high_priority_pass
  (cv_request : option string -> string -> result string)
  (cover_letter_request : App.t -> result string) (db : Database) :
  db_wf db ->
  let selection := get_high_priority_jobs db in
  let db' := process_high_priority_jobs cv_request cover_letter_request db in
  applications db' =
    map (fun r =>
           if selected_by_id selection r
           then App.set_ready
                  (optimize_cv_for_job cv_request
                     (App.description r) (App.title r))
                  (generate_cover_letter cover_letter_request r) r
           else r)
      (applications db) /\
  (forall r, In r (applications db) ->
     (selected_by_id selection r = true <-> In r selection)) /\
  (forall r, In r selection ->
     App.status r = "found" /\ 85 <= App.match_score r) /\
  (forall r cv cover,
     App.status (App.set_ready cv cover r) = "ready_to_apply" /\
     App.cv_version (App.set_ready cv cover r) = cv /\
     App.cover_letter_path (App.set_ready cv cover r) = cover) /\
  (forall r cv_path cover_path,
     cv_request (App.description r) (App.title r) = Ok cv_path ->
     cover_letter_request r = Ok cover_path ->
     optimize_cv_for_job cv_request (App.description r) (App.title r)
     = Some cv_path /\
     generate_cover_letter cover_letter_request r = Some cover_path) /\
  (forall r e,
     cv_request (App.description r) (App.title r) = Raise e ->
     optimize_cv_for_job cv_request (App.description r) (App.title r) = None) /\
  (forall r e,
     cover_letter_request r = Raise e ->
     generate_cover_letter cover_letter_request r = None) /\
  (forall r cv cover,
     inserted_columns (App.set_ready cv cover r) = inserted_columns r /\
     App.requirements (App.set_ready cv cover r) = App.requirements r /\
     App.follow_up_date (App.set_ready cv cover r) = App.follow_up_date r /\
     App.response_date (App.set_ready cv cover r) = App.response_date r /\
     App.interview_date (App.set_ready cv cover r) = App.interview_date r /\
     App.notes (App.set_ready cv cover r) = App.notes r) /\
  sqlite_sequence db' = sqlite_sequence db.
Proof.
  intros Hwf selection db'.
  destruct (high_priority_selection db Hwf) as [Hnd [Hincl Hsel]].
  split; [| split; [| split; [exact Hsel |
                              split; [| split; [| split; [| split;
                                                          [| split]]]]]]].
  - unfold db', process_high_priority_jobs. cbn [applications].
    change (fold_left _ _ _)
      with (run_updates
              (fun j => App.set_ready
                          (optimize_cv_for_job cv_request
                             (App.description j) (App.title j))
                          (generate_cover_letter cover_letter_request j))
              selection (applications db)).
    apply run_updates_selected; [reflexivity | apply Hwf | exact Hnd |
                                 exact Hincl].
  - intros r Hr. apply (selected_by_id_In selection (applications db));
      [apply Hwf | exact Hincl | exact Hr].
  - intros r cv cover. repeat split.
  - intros r p1 p2 H1 H2.
    unfold optimize_cv_for_job, generate_cover_letter.
    now rewrite H1, H2.
  - intros r e H. unfold optimize_cv_for_job. now rewrite H.
  - intros r e H. unfold generate_cover_letter. now rewrite H.
  - intros r cv cover. repeat split.
  - reflexivity.
Qed.

Lemma high_priority_pass_witness :
  db_wf db_found /\
  map (fun r => (App.id r, App.status r, App.cv_version r,
                 App.cover_letter_path r))
    (applications
       (process_high_priority_jobs cv_request_ok cover_letter_request_ok
          db_found))
  = [ (1, "ready_to_apply",
       Some "optimized_cvs/cv_optimized_20240102_090000.txt",
       Some "cover_letters/cover_letter_Globex_20240102_090001.txt");
      (2, "found", None, None) ].
Proof.
  split; [exact db_found_wf |].
  rewrite (proj1 (high_priority_pass cv_request_ok cover_letter_request_ok
                    db_found db_found_wf)).
  reflexivity.
Defined.

(** C2, as stated, fails: when the CV optimization fails for a selected
    job, the job does not stay in [found]; it becomes [ready_to_apply]
    with no CV reference. *)
Lemma failed_generation_still_advances :
  map (fun r => (App.id r, App.status r)) (get_high_priority_jobs db_found)
  = [ (1, "found") ] /\
  optimize_cv_for_job cv_request_failing
    (Some "Requirements analysis") "Business Analyst" = None /\
  map (fun r => (App.id r, App.status r, App.cv_version r,
                 App.cover_letter_path r))
    (applications
       (process_high_priority_jobs cv_request_failing
          cover_letter_request_ok db_found))
  = [ (1, "ready_to_apply", None,
       Some "cover_letters/cover_letter_Globex_20240102_090001.txt");
      (2, "found", None, None) ].
Proof. repeat split. Qed.

(** ** Facts on the filter and ranker *)

Section FilterFacts.

Variable tfidf_cosine : string -> string -> result Q.
Variable fl : Q -> Q.
Variable config : Config.

Lemma filter_jobs_value (jobs_df : DataFrame RawJob) :
  filter_jobs tfidf_cosine fl config jobs_df =
  Ok (with_rows jobs_df
        (sort_values_match_score_desc
           (filter
              (fun sj => min_score_of (search_criteria config)
                         <=? match_score sj)
              (map (attach_score tfidf_cosine fl config
                      (has_description jobs_df))
                 (blacklist_rows (search_criteria config)
                    (location_rows (search_criteria config) jobs_df)))))).
Proof.
  unfold filter_jobs. destruct (rows jobs_df) as [| j l] eqn:E.
  - unfold location_rows. rewrite E.
    destruct (has_location jobs_df);
      unfold blacklist_rows;
      destruct (blacklisted_companies (search_criteria config));
      reflexivity.
  - rewrite score_rows_value. reflexivity.
Qed.

End FilterFacts.


Lemma StronglySorted_impl {A : Type} (R R' : A -> A -> Prop) (l : list A) :
  (forall x y, R x y -> R' x y) ->
  StronglySorted R l -> StronglySorted R' l.
Proof.
  intros HR. induction 1 as [| x l Hs IH Hall]; constructor.
  - exact IH.
  - eapply Forall_impl; [| exact Hall]. intros y. apply HR.
Qed.


(** ** Properties of the filter and ranker *)




(** The blacklist is matched against the company alone: a job located at
    "Acme Remote Office" with score 80 whose company is "Globex" is
    kept under the criteria of the example. *)
Lemma acme_in_location_is_kept :
  exists out,
    filter_jobs tfidf_on_short_words fl_exact config_letters
      frame_acme_location = Ok out /\
    map (fun sj => (location (job sj), company (job sj), match_score sj))
      (rows out)
    = [ (Str "Acme Remote Office", "Globex", 80) ].
Proof. eexists. split; [vm_compute; reflexivity | reflexivity]. Qed.

Lemma contains_empty (s : string) : PyStr.contains "" s = true.
Proof. destruct s; reflexivity. Qed.

(** An empty blacklist joins to the empty pattern, which every company
    matches: with [blacklisted_companies] set to the empty list, as in
    the default configuration, no job passes the filter. *)
Lemma empty_blacklist_drops_every_job
  (tfidf_cosine : string -> string -> result Q) (fl : Q -> Q)
  (config : Config) (jobs_df : DataFrame RawJob) :
  blacklisted_companies (search_criteria config) = Some [] ->
  filter_jobs tfidf_cosine fl config jobs_df = Ok (with_rows jobs_df []).
Proof.
  intros H. rewrite filter_jobs_value.
  unfold blacklist_rows. rewrite H.
  replace (filter _ (location_rows (search_criteria config) jobs_df))
    with (@nil RawJob); [reflexivity |].
  induction (location_rows (search_criteria config) jobs_df) as [| j l IH];
    [reflexivity |].
  cbn [filter]. unfold str_contains at 1. cbn [regex_alternatives existsb].
  unfold PyStr.contains_ci. cbn [PyStr.lower].
  rewrite contains_empty. exact IH.
Qed.








(** * Further properties of the code *)

(** ** The match scorer reads lowered text only *)

Lemma lower_char_idem (c : ascii) :
  PyStr.lower_char (PyStr.lower_char c) = PyStr.lower_char c.
Proof.
  destruct c as [b0 b1 b2 b3 b4 b5 b6 b7].
  destruct b0, b1, b2, b3, b4, b5, b6, b7; reflexivity.
Qed.

Lemma lower_idem (s : string) : PyStr.lower (PyStr.lower s) = PyStr.lower s.
Proof.
  induction s as [| c s IH]; [reflexivity |].
  simpl. now rewrite lower_char_idem, IH.
Qed.

Lemma job_text_of_lower (job_title job_description : string) :
  job_text_of job_title job_description =
  PyStr.lower job_title ++ " " ++ PyStr.lower job_description.
Proof. unfold job_text_of. now rewrite !lower_app. Qed.

Lemma lower_join (sep : string) (l : list string) :
  PyStr.lower (PyStr.join sep l) =
  PyStr.join (PyStr.lower sep) (map PyStr.lower l).
Proof.
  unfold PyStr.join. induction l as [| x l IH]; [reflexivity |].
  destruct l as [| y l]; [reflexivity |].
  cbn [String.concat map] in *. now rewrite !lower_app, IH.
Qed.

Lemma count_matches_lower (job_text_lower : string) (skills : list string) :
  count_matches job_text_lower skills =
  List.length
    (filter (fun skill => PyStr.contains skill job_text_lower)
       (map PyStr.lower skills)).
Proof.
  unfold count_matches. induction skills as [| x l IH]; [reflexivity |].
  cbn [filter map]. destruct (PyStr.contains (PyStr.lower x) job_text_lower);
    cbn [List.length]; now rewrite IH.
Qed.

Lemma simple_keyword_match_lower (fl : Q -> Q) (job_text : string)
  (skills skills' : list string) :
  map PyStr.lower skills = map PyStr.lower skills' ->
  simple_keyword_match fl job_text skills =
  simple_keyword_match fl job_text skills'.
Proof.
  intros H. unfold simple_keyword_match.
  rewrite !count_matches_lower, H.
  assert (Hlen : List.length skills = List.length skills').
  { rewrite <- (length_map PyStr.lower skills), H. apply length_map. }
  destruct skills, skills'; try discriminate Hlen; [reflexivity |].
  now rewrite Hlen.
Qed.

(** X1: the match score depends on the title, the description and the
    skills of the profile only through their lowered text: two inputs that
    differ in the case of letters alone get the same score. *)
Theorem match_score_ignores_case
  (tfidf_cosine : string -> string -> result Q) (fl : Q -> Q)
  (config config' : Config) (skills skills' : list string)
  (job_description job_description' job_title job_title' : string) :
  user_skills_of config = Ok skills ->
  user_skills_of config' = Ok skills' ->
  map PyStr.lower skills = map PyStr.lower skills' ->
  PyStr.lower job_title = PyStr.lower job_title' ->
  PyStr.lower job_description = PyStr.lower job_description' ->
  calculate_job_match_score tfidf_cosine fl config job_description job_title =
  calculate_job_match_score tfidf_cosine fl config'
    job_description' job_title'.
Proof.
  intros Hs Hs' Hskills Ht Hd.
  unfold calculate_job_match_score, score_body.
  rewrite Hs, Hs'. cbn [bind].
  rewrite (job_text_of_lower job_title), (job_text_of_lower job_title').
  rewrite Ht, Hd.
  unfold user_skill_text_of. rewrite !lower_join, Hskills.
  now rewrite (simple_keyword_match_lower fl _ skills skills' Hskills).
Qed.

Lemma match_score_ignores_case_witness :
  user_skills_of config_short_skills = Ok ["C"; "R"] /\
  user_skills_of config_short_skills_lower = Ok ["c"; "r"] /\
  calculate_job_match_score (tfidf_constant (1 # 2)) fl_exact
    config_short_skills "SQL and CRM" "Senior Analyst" =
  calculate_job_match_score (tfidf_constant (1 # 2)) fl_exact
    config_short_skills_lower "sql AND crm" "SENIOR analyst".
Proof.
  split; [reflexivity | split; [reflexivity |]].
  apply (match_score_ignores_case (tfidf_constant (1 # 2)) fl_exact
           config_short_skills config_short_skills_lower
           ["C"; "R"] ["c"; "r"]); reflexivity.
Defined.

(** ** Bounds of the bonus *)

Lemma bonus_score_le_50 (job_text : string) : bonus_score job_text <= 50.
Proof.
  rewrite bonus_score_count.
  pose proof (filter_length
                (fun keyword => PyStr.contains keyword job_text)
                bonus_keywords) as H.
  pose proof (filter_length_le
                (fun keyword => PyStr.contains keyword job_text)
                (fun _ => true) bonus_keywords (fun _ _ _ => eq_refl)) as Hle.
  assert (Hall : filter (fun _ : string => true) bonus_keywords
                 = bonus_keywords) by reflexivity.
  rewrite Hall in Hle. change (List.length bonus_keywords) with 10%nat in Hle.
  lia.
Qed.

(** X2: on the TF-IDF path the bonus keywords add between 0 and 50 points
    to the base score before the cap: the score lies between
    [min(base, 100)] and [min(base + 50, 100)].  A job whose base score is
    below 35 therefore never reaches the high-priority threshold of 85. *)
Theorem bonus_adds_at_most_fifty
  (tfidf_cosine : string -> string -> result Q) (fl : Q -> Q)
  (config : Config) (user_skills : list string)
  (job_description job_title : string) (similarity : Q) :
  user_skills_of config = Ok user_skills ->
  tfidf_cosine (user_skill_text_of user_skills)
    (job_text_of job_title job_description) = Ok similarity ->
  exists v,
    calculate_job_match_score tfidf_cosine fl config
      job_description job_title = Ok v /\
    Z.min (base_score_of fl similarity) 100 <= v /\
    v <= Z.min (base_score_of fl similarity + 50) 100 /\
    (base_score_of fl similarity < 35 -> v < 85).
Proof.
  intros Hs Ht.
  exists (Z.min (base_score_of fl similarity
                 + bonus_score (job_text_of job_title job_description)) 100).
  split.
  - unfold calculate_job_match_score, score_body.
    rewrite Hs. cbn [bind]. rewrite Ht. reflexivity.
  - pose proof (bonus_score_nonneg (job_text_of job_title job_description)).
    pose proof (bonus_score_le_50 (job_text_of job_title job_description)).
    lia.
Qed.

Lemma bonus_adds_at_most_fifty_witness :
  user_skills_of config_short_skills = Ok ["C"; "R"] /\
  tfidf_constant (3 # 10) (user_skill_text_of ["C"; "R"])
    (job_text_of "Senior Business Analyst"
       "requirements crm sql stakeholder process analysis healthcare remote")
  = Ok (3 # 10)%Q /\
  calculate_job_match_score (tfidf_constant (3 # 10)) fl_exact
    config_short_skills
    "requirements crm sql stakeholder process analysis healthcare remote"
    "Senior Business Analyst" = Ok 80.
Proof.
  split; [reflexivity | split; [reflexivity |]].
  destruct (bonus_adds_at_most_fifty (tfidf_constant (3 # 10)) fl_exact
              config_short_skills ["C"; "R"]
              "requirements crm sql stakeholder process analysis healthcare remote"
              "Senior Business Analyst" (3 # 10)%Q eq_refl eq_refl)
    as [v [Hv _]].
  rewrite Hv. vm_compute in Hv. injection Hv as <-. reflexivity.
Defined.

(** ** Edge cases of the filter *)

Lemma empty_blacklist_drops_every_job_witness :
  blacklisted_companies (search_criteria default_config) = Some [] /\
  filter_jobs (tfidf_constant (13 # 20)) fl_exact default_config example_frame
  = Ok (with_rows example_frame []).
Proof.
  split; [reflexivity |].
  apply (empty_blacklist_drops_every_job (tfidf_constant (13 # 20)) fl_exact
           default_config example_frame eq_refl).
Defined.

Lemma sort_values_nil :
  sort_values_match_score_desc [] = [].
Proof. reflexivity. Qed.

Lemma filter_none {A : Type} (p : A -> bool) (l : list A) :
  (forall x, In x l -> p x = false) -> filter p l = [].
Proof.
  induction l as [| x l IH]; intros H; [reflexivity |].
  simpl. rewrite (H x (or_introl eq_refl)).
  apply IH. intros y Hy. apply H. now right.
Qed.






(** X5: for criteria whose entries are plain, so that the patterns
    joined from them are valid regular expressions, the filter returns a
    frame and neither alters nor invents jobs: every row it returns is a
    row of the input with the score of the scorer attached, that score is
    at least the minimum, and the result is no longer than the input. *)
Theorem filter_returns_input_jobs
  (tfidf_cosine : string -> string -> result Q) (fl : Q -> Q)
  (config : Config) (jobs_df : DataFrame RawJob) :
  plain_criteria (search_criteria config) = true ->
  exists out,
    filter_jobs tfidf_cosine fl config jobs_df = Ok out /\
    has_location out = has_location jobs_df /\
    has_description out = has_description jobs_df /\
    (forall sj, In sj (rows out) ->
       In (job sj) (rows jobs_df) /\
       match_score sj =
         row_score tfidf_cosine fl config (has_description jobs_df) (job sj) /\
       min_score_of (search_criteria config) <= match_score sj) /\
    (List.length (rows out) <= List.length (rows jobs_df))%nat.
Proof.
  intros _.
  eexists. split; [apply filter_jobs_value |].
  cbn [rows with_rows has_location has_description].
  split; [reflexivity | split; [reflexivity |]].
  set (criteria := search_criteria config).
  set (attach := attach_score tfidf_cosine fl config
                   (has_description jobs_df)).
  assert (Hsub : forall j,
             In j (blacklist_rows criteria (location_rows criteria jobs_df)) ->
             In j (rows jobs_df)).
  { intros j. unfold blacklist_rows, location_rows.
    destruct (blacklisted_companies criteria), (has_location jobs_df);
      intros H; repeat (apply filter_In in H; destruct H as [H _]); exact H. }
  assert (Hlen : (List.length
                    (blacklist_rows criteria (location_rows criteria jobs_df))
                  <= List.length (rows jobs_df))%nat).
  { unfold blacklist_rows, location_rows.
    destruct (blacklisted_companies criteria), (has_location jobs_df);
      [ eapply Nat.le_trans; apply List.filter_length_le
      | apply List.filter_length_le
      | apply List.filter_length_le
      | apply Nat.le_refl ]. }
  split.
  - intros sj Hin.
    apply (Permutation_in _
             (Permutation_sym (stable_sort_perm ScoredJob _ _))) in Hin.
    apply filter_In in Hin. destruct Hin as [Hin Hmin].
    apply in_map_iff in Hin. destruct Hin as [j [<- Hj]].
    split; [apply Hsub, Hj | split; [reflexivity | now apply Z.leb_le]].
  - unfold sort_values_match_score_desc.
    rewrite <- (Permutation_length (stable_sort_perm ScoredJob _ _)).
    etransitivity; [apply List.filter_length_le |].
    rewrite length_map. exact Hlen.
Qed.

Lemma filter_returns_input_jobs_witness :
  plain_criteria (search_criteria config_example) = true /\
  exists out,
    filter_jobs (tfidf_constant (13 # 20)) fl_exact config_example
      example_frame = Ok out /\
    (forall sj, In sj (rows out) ->
       In (job sj) (rows example_frame) /\
       match_score sj =
         row_score (tfidf_constant (13 # 20)) fl_exact config_example
           (has_description example_frame) (job sj) /\
       min_score_of (search_criteria config_example) <= match_score sj) /\
    (List.length (rows out) <= List.length (rows example_frame))%nat.
Proof.
  split; [reflexivity |].
  destruct (filter_returns_input_jobs (tfidf_constant (13 # 20)) fl_exact
              config_example example_frame eq_refl)
    as [out [Hout [_ [_ [Hrows Hlen]]]]].
  exists out. split; [exact Hout | split; [exact Hrows | exact Hlen]].
Defined.

(** ** What the save step writes *)

Section SaveWrites.

Variables today now : Z.
Variables has_loc has_desc : bool.

Lemma written_for_weaken (l l' : list ScoredJob) (start start' : Z)
  (r : App.t) :
  incl l l' -> start' <= start ->
  written_for today now has_loc has_desc l start r ->
  written_for today now has_loc has_desc l' start' r.
Proof.
  intros Hincl Hle [sj [Hin [Hr Hid]]].
  exists sj. split; [apply Hincl, Hin | split; [exact Hr | lia]].
Qed.

Lemma loop_appends (l : list ScoredJob) (st : SaveState) :
  exists added,
    applications (conn (save_loop today now has_loc has_desc l st))
    = (applications (conn st) ++ added)%list /\
    Forall (written_for today now has_loc has_desc l
              (sqlite_sequence (conn st))) added /\
    Forall (fun r => App.id r <= sqlite_sequence (conn st)
                                 + Z.of_nat (List.length l)) added /\
    (List.length added <= List.length l)%nat /\
    total_changes (save_loop today now has_loc has_desc l st)
    = total_changes st + Z.of_nat (List.length added).
Proof.
  revert st. induction l as [| x l IH]; intros st.
  - exists []. cbn [save_loop fold_left List.length].
    rewrite app_nil_r.
    split; [reflexivity | split; [constructor | split; [constructor |]]].
    split; lia.
  - change (save_loop today now has_loc has_desc (x :: l) st)
      with (save_loop today now has_loc has_desc l
              (save_step today now has_loc has_desc st x)).
    destruct (IH (save_step today now has_loc has_desc st x))
      as [added [Happ [Hall [Hmax [Hlen Htot]]]]].
    rewrite step_conn in Happ, Hall, Hmax. rewrite step_total in Htot.
    rewrite insert_sequence in Hall, Hmax.
    destruct (insert_cases today now has_loc has_desc x (conn st))
      as [[_ Hins] | [_ Hins]]; rewrite Hins in *; cbn [fst snd] in *.
    + cbn [applications] in *. exists added.
      split; [exact Happ | split; [| split; [| split]]].
      * eapply Forall_impl; [| exact Hall]. intros r.
        apply written_for_weaken; [apply incl_tl, incl_refl | lia].
      * eapply Forall_impl; [| exact Hmax].
        intros r Hr. cbn beta in *. cbn [List.length]. lia.
      * cbn [List.length]. lia.
      * lia.
    + cbn [applications] in *.
      exists (new_row (sqlite_sequence (conn st) + 1) today now
                has_loc has_desc x :: added).
      rewrite <- app_assoc in Happ. cbn [app] in Happ.
      split; [exact Happ | split; [| split; [| split]]].
      * constructor.
        -- exists x. split; [now left | split; [reflexivity |]].
           cbn [App.id new_row]. lia.
        -- eapply Forall_impl; [| exact Hall]. intros r.
           apply written_for_weaken; [apply incl_tl, incl_refl | lia].
      * constructor.
        -- cbn [App.id new_row List.length]. lia.
        -- eapply Forall_impl; [| exact Hmax].
           intros r Hr. cbn beta in *. cbn [List.length]. lia.
      * cbn [List.length]. lia.
      * cbn [List.length]. lia.
Qed.

Lemma loop_counters (l : list ScoredJob) (st : SaveState) :
  counters_agree st ->
  counters_agree (save_loop today now has_loc has_desc l st) /\
  new_jobs_count (save_loop today now has_loc has_desc l st)
  <= new_jobs_count st + Z.of_nat (List.length l).
Proof.
  revert st. induction l as [| x l IH]; intros st H.
  - cbn [save_loop fold_left List.length]. split; [exact H | lia].
  - change (save_loop today now has_loc has_desc (x :: l) st)
      with (save_loop today now has_loc has_desc l
              (save_step today now has_loc has_desc st x)).
    set (st1 := save_step today now has_loc has_desc st x).
    assert (H1 : counters_agree st1 /\
                 new_jobs_count st1 <= new_jobs_count st + 1).
    { destruct H as [[H0 Hle] Hz]. unfold counters_agree, st1.
      rewrite step_count, step_total.
      pose proof (insert_changes today now has_loc has_desc x (conn st)).
      destruct (0 <? total_changes st
                     + snd (insert_or_ignore today now has_loc has_desc x
                              (conn st))) eqn:E.
      - apply Z.ltb_lt in E. repeat split; lia.
      - apply Z.ltb_ge in E. repeat split; lia. }
    destruct (IH st1 (proj1 H1)) as [Hagree Hcount].
    split; [exact Hagree |]. cbn [List.length]. lia.
Qed.

End SaveWrites.

Lemma loop_keys (today now : Z) (has_loc has_desc : bool)
  (l : list ScoredJob) (st : SaveState) (key : string) :
  has_job_id key
    (applications (conn (save_loop today now has_loc has_desc l st))) = true
  <-> has_job_id key (applications (conn st)) = true \/
      In key (map job_id_of l).
Proof.
  split.
  - intros H.
    destruct (loop_appends today now has_loc has_desc l st)
      as [added [Happ [Hall _]]].
    rewrite Happ, has_job_id_app in H. apply orb_true_iff in H.
    destruct H as [H | H]; [now left | right].
    apply has_job_id_In in H. apply in_map_iff in H.
    destruct H as [r [Hk Hr]]. rewrite Forall_forall in Hall.
    destruct (Hall r Hr) as [sj [Hin [Heq _]]].
    apply in_map_iff. exists sj. split; [| exact Hin].
    rewrite <- Hk, Heq. reflexivity.
  - intros [H | H].
    + now apply loop_keeps_keys.
    + apply in_map_iff in H. destruct H as [sj [<- Hin]].
      now apply loop_stores_keys.
Qed.

(** X6: the save step never changes or deletes a stored row: the table
    afterwards is the table before followed by the new rows, at most one
    for each record of the batch.  Each new row is the row of a record of
    the batch, has the status [found], the day of the ingestion as
    application date and an [id] above the counter; the counter advances
    by the number of records of the batch, inserted or ignored. *)
Theorem save_only_appends (today now : Z) (jobs_df : DataFrame ScoredJob)
  (db : Database) :
  let db' := fst (save_jobs_to_database today now jobs_df db) in
  exists added,
    applications db' = (applications db ++ added)%list /\
    Forall
      (fun r =>
         (exists sj, In sj (rows jobs_df) /\
            r = new_row (App.id r) today now (has_location jobs_df)
                  (has_description jobs_df) sj) /\
         App.status r = "found" /\
         App.application_date r = Some today /\
         sqlite_sequence db < App.id r <= sqlite_sequence db')
      added /\
    (List.length added <= List.length (rows jobs_df))%nat /\
    sqlite_sequence db'
    = sqlite_sequence db + Z.of_nat (List.length (rows jobs_df)).
Proof.
  intros db'. unfold db'. rewrite save_conn.
  set (st0 := {| conn := db; total_changes := 0; new_jobs_count := 0 |}).
  destruct (loop_appends today now (has_location jobs_df)
              (has_description jobs_df) (rows jobs_df) st0)
    as [added [Happ [Hall [Hmax [Hlen _]]]]].
  pose proof (loop_sequence today now (has_location jobs_df)
                (has_description jobs_df) (rows jobs_df) st0) as Hseq.
  exists added.
  split; [exact Happ | split; [| split; [exact Hlen | exact Hseq]]].
  rewrite Hseq. rewrite Forall_forall in *. intros r Hr.
  destruct (Hall r Hr) as [sj [Hin [Heq Hid]]].
  split; [exists sj; split; assumption |].
  split; [rewrite Heq; reflexivity |].
  split; [rewrite Heq; reflexivity |].
  split; [exact Hid | apply Hmax, Hr].
Qed.

(** X7: after the save step the stored keys are the keys stored before
    together with the keys of the batch, no more and no less. *)
Theorem save_stores_batch_keys (today now : Z)
  (jobs_df : DataFrame ScoredJob) (db : Database) (key : string) :
  In key
    (map App.job_id
       (applications (fst (save_jobs_to_database today now jobs_df db))))
  <-> In key (map App.job_id (applications db)) \/
      In key (map job_id_of (rows jobs_df)).
Proof.
  rewrite save_conn, <- !has_job_id_In, loop_keys. reflexivity.
Qed.

(** X8: first write wins inside a batch.  When several records of a
    batch have the same new key, the row stored under that key holds the
    fields of the first of them, its match score included: it is that
    record's row, and the only row with the key. *)
Theorem first_record_of_key_is_stored (today now : Z)
  (jobs_df : DataFrame ScoredJob) (db : Database)
  (before : list ScoredJob) (sj : ScoredJob) (after : list ScoredJob) :
  db_wf db ->
  rows jobs_df = (before ++ sj :: after)%list ->
  (forall x, In x before -> job_id_of x <> job_id_of sj) ->
  has_job_id (job_id_of sj) (applications db) = false ->
  let db' := fst (save_jobs_to_database today now jobs_df db) in
  exists new_id,
    In (new_row new_id today now (has_location jobs_df)
          (has_description jobs_df) sj) (applications db') /\
    (forall r, In r (applications db') ->
       App.job_id r = job_id_of sj ->
       r = new_row new_id today now (has_location jobs_df)
             (has_description jobs_df) sj).
Proof.
  intros Hwf Hrows Hbefore Hnew db'.
  set (hl := has_location jobs_df). set (hd := has_description jobs_df).
  set (st0 := {| conn := db; total_changes := 0; new_jobs_count := 0 |}).
  set (st1 := save_loop today now hl hd before st0).
  assert (Hdb' : db' = conn (save_loop today now hl hd after
                               (save_step today now hl hd st1 sj))).
  { unfold db'. rewrite save_conn. fold hl hd st0. rewrite Hrows.
    unfold save_loop, st1. rewrite fold_left_app. reflexivity. }
  assert (Habsent : has_job_id (job_id_of sj) (applications (conn st1))
                    = false).
  { destruct (has_job_id (job_id_of sj) (applications (conn st1))) eqn:E;
      [| reflexivity].
    apply loop_keys in E. destruct E as [E | E].
    - simpl in E. congruence.
    - apply in_map_iff in E. destruct E as [x [Hx Hin]].
      exfalso. exact (Hbefore x Hin Hx). }
  set (row := new_row (sqlite_sequence (conn st1) + 1) today now hl hd sj).
  assert (Hin : In row (applications db')).
  { rewrite Hdb'.
    destruct (loop_appends today now hl hd after
                (save_step today now hl hd st1 sj)) as [added [Happ _]].
    rewrite Happ, step_conn. apply in_or_app. left.
    unfold insert_or_ignore. rewrite Habsent. cbn [fst applications].
    apply in_or_app. right. now left. }
  exists (sqlite_sequence (conn st1) + 1). split; [exact Hin |].
  intros r Hr Hkey.
  assert (Hwf' : db_wf db').
  { unfold db'. rewrite save_conn. now apply loop_wf. }
  apply (NoDup_map_injective App.job_id (applications db'));
    [apply Hwf' | exact Hr | exact Hin | exact Hkey].
Qed.

Lemma first_record_of_key_is_stored_witness :
  db_wf empty_db /\
  rows frame_with_duplicate
  = ([] ++ posting_first_wording
        :: [posting_second_wording; posting_other])%list /\
  has_job_id (job_id_of posting_first_wording) (applications empty_db)
  = false /\
  let db' := fst (save_jobs_to_database 20 1000 frame_with_duplicate
                    empty_db) in
  exists new_id,
    In (new_row new_id 20 1000 true true posting_first_wording)
      (applications db') /\
    (forall r, In r (applications db') ->
       App.job_id r = job_id_of posting_first_wording ->
       r = new_row new_id 20 1000 true true posting_first_wording).
Proof.
  split; [exact empty_db_wf | split; [reflexivity | split; [reflexivity |]]].
  exact (first_record_of_key_is_stored 20 1000 frame_with_duplicate
           empty_db [] posting_first_wording
           [posting_second_wording; posting_other]
           empty_db_wf eq_refl (fun x (H : In x []) => match H with end)
           eq_refl).
Defined.

(** X9: for a batch with records, the count returned by the save step is
    at least the number of rows inserted and at most the size of the
    batch, and it is 0 exactly when the stored rows are left as they
    were. *)
Theorem new_jobs_count_bounds (today now : Z)
  (jobs_df : DataFrame ScoredJob) (db : Database) :
  rows jobs_df <> [] ->
  let db' := fst (save_jobs_to_database today now jobs_df db) in
  exists n,
    snd (save_jobs_to_database today now jobs_df db) = Some n /\
    Z.of_nat (List.length (applications db'))
    - Z.of_nat (List.length (applications db)) <= n /\
    n <= Z.of_nat (List.length (rows jobs_df)) /\
    (n = 0 <-> applications db' = applications db).
Proof.
  intros Hrows db'.
  set (hl := has_location jobs_df). set (hd := has_description jobs_df).
  set (st0 := {| conn := db; total_changes := 0; new_jobs_count := 0 |}).
  set (st' := save_loop today now hl hd (rows jobs_df) st0).
  assert (Hdb' : db' = conn st') by (unfold db'; apply save_conn).
  exists (new_jobs_count st'). split; [now apply save_count |].
  destruct (loop_appends today now hl hd (rows jobs_df) st0)
    as [added [Happ [_ [_ [_ Htot]]]]].
  fold st' in Happ, Htot. cbn [conn total_changes st0] in *.
  assert (H0 : counters_agree st0) by (unfold counters_agree; simpl; lia).
  destruct (loop_counters today now hl hd (rows jobs_df) st0 H0)
    as [[[Hnn Hle] Hz] Hcount].
  fold st' in Hnn, Hle, Hz, Hcount. cbn [new_jobs_count st0] in Hcount.
  rewrite Hdb', Happ, length_app.
  split; [lia | split; [lia |]].
  split.
  - intros Hn.
    assert (added = []) as ->
      by (destruct added; [reflexivity | simpl in *; lia]).
    apply app_nil_r.
  - intros Heq. apply Hz. rewrite Htot.
    assert (Hlen := f_equal (@List.length _) Heq).
    rewrite length_app in Hlen. lia.
Qed.

Lemma new_jobs_count_bounds_witness :
  rows frame_rescored <> [] /\
  let db1 := fst (save_jobs_to_database 20 1000 frame_with_duplicate
                    empty_db) in
  let db2 := fst (save_jobs_to_database 21 2000 frame_rescored db1) in
  exists n,
    snd (save_jobs_to_database 21 2000 frame_rescored db1) = Some n /\
    Z.of_nat (List.length (applications db2))
    - Z.of_nat (List.length (applications db1)) <= n /\
    n <= Z.of_nat (List.length (rows frame_rescored)) /\
    (n = 0 <-> applications db2 = applications db1).
Proof.
  assert (H : rows frame_rescored <> []) by discriminate.
  split; [exact H |].
  intros db1.
  exact (new_jobs_count_bounds 21 2000 frame_rescored db1 H).
Defined.

(** ** The selection of the high-priority pass *)

Lemma priority_in_order (x y : App.t) :
  in_order priority_precedes x y <-> priority_order x y.
Proof.
  unfold in_order, priority_precedes, priority_order.
  rewrite orb_false_iff, andb_false_iff, Z.ltb_ge, Z.eqb_neq, Z.ltb_ge.
  lia.
Qed.

Lemma priority_sorted (l : list App.t) :
  StronglySorted priority_order (stable_sort priority_precedes l).
Proof.
  eapply StronglySorted_impl; [| apply stable_sort_sorted].
  - intros x y. apply priority_in_order.
  - intros x y z H1 H2. apply priority_in_order.
    apply priority_in_order in H1. apply priority_in_order in H2.
    unfold priority_order in *. lia.
  - intros x y H. apply priority_in_order.
    unfold priority_precedes in H. unfold priority_order.
    apply orb_true_iff in H. rewrite andb_true_iff in H.
    rewrite !Z.ltb_lt, Z.eqb_eq in H. lia.
Qed.

Lemma sorted_firstn_skipn {A : Type} (R : A -> A -> Prop) (l : list A) :
  StronglySorted R l ->
  forall n x y, In x (firstn n l) -> In y (skipn n l) -> R x y.
Proof.
  induction 1 as [| a l Hs IH Hall]; intros n x y Hx Hy.
  - destruct n; destruct Hx.
  - destruct n as [| n]; [destruct Hx |].
    cbn [firstn skipn] in Hx, Hy. destruct Hx as [<- | Hx].
    + rewrite Forall_forall in Hall. apply Hall.
      rewrite <- (firstn_skipn n l). apply in_or_app. now right.
    + now apply (IH n).
Qed.

Lemma sorted_firstn {A : Type} (R : A -> A -> Prop) (n : nat) (l : list A) :
  StronglySorted R l -> StronglySorted R (firstn n l).
Proof.
  intros Hs. revert n.
  induction Hs as [| a l Hs IH Hall]; intros [| n]; cbn [firstn];
    try constructor.
  - apply IH.
  - rewrite Forall_forall in *. intros x Hx. apply Hall.
    now apply (firstn_incl n l).
Qed.

(** X10: the high-priority selection holds at most 10 jobs, in the order
    of descending score and then of descending creation time, and it is
    the top of that order: a high-priority job is left out only when 10
    jobs are selected, each of which comes before it in the order; with
    at most 10 high-priority jobs all of them are selected. *)
Theorem high_priority_selection_is_top_ten (db : Database) :
  let selection := get_high_priority_jobs db in
  (List.length selection <= 10)%nat /\
  StronglySorted priority_order selection /\
  (forall r, In r (applications db) -> is_high_priority r = true ->
     ~ In r selection ->
     List.length selection = 10%nat /\
     forall s, In s selection -> priority_order s r) /\
  ((List.length (filter is_high_priority (applications db)) <= 10)%nat ->
   Permutation selection (filter is_high_priority (applications db))).
Proof.
  intros selection. unfold selection, get_high_priority_jobs.
  set (hp := filter is_high_priority (applications db)).
  set (sorted := stable_sort priority_precedes hp).
  assert (Hperm : Permutation hp sorted) by apply stable_sort_perm.
  assert (Hsorted : StronglySorted priority_order sorted)
    by apply priority_sorted.
  split; [apply firstn_le_length |].
  split; [now apply sorted_firstn |].
  split.
  - intros r Hr Hhp Hout.
    assert (Hin : In r sorted).
    { apply (Permutation_in _ Hperm). apply filter_In. now split. }
    rewrite <- (firstn_skipn 10 sorted) in Hin.
    apply in_app_or in Hin. destruct Hin as [Hin | Hin]; [contradiction |].
    split.
    + apply firstn_length_le.
      destruct (Nat.le_gt_cases 10 (List.length sorted)) as [H | H];
        [exact H |].
      rewrite skipn_all2 in Hin by lia. destruct Hin.
    + intros s Hs. now apply (sorted_firstn_skipn _ _ Hsorted 10).
  - intros Hlen. rewrite firstn_all2.
    + now apply Permutation_sym.
    + rewrite <- (Permutation_length Hperm). exact Hlen.
Qed.

Lemma high_priority_selection_is_top_ten_witness :
  let selection := get_high_priority_jobs db_fifteen_found in
  let oldest := sample_row 1 "A" "found" 90 (Some 90) None 1001 in
  In oldest (applications db_fifteen_found) /\
  is_high_priority oldest = true /\
  ~ In oldest selection /\
  List.length selection = 10%nat /\
  (forall s, In s selection -> priority_order s oldest).
Proof.
  intros selection oldest.
  assert (H1 : In oldest (applications db_fifteen_found)) by (now left).
  assert (H2 : is_high_priority oldest = true) by reflexivity.
  assert (H3 : ~ In oldest selection).
  { intros H. apply (in_map App.id) in H. vm_compute in H.
    repeat (destruct H as [H | H]; [discriminate H |]). exact H. }
  split; [exact H1 | split; [exact H2 | split; [exact H3 |]]].
  exact (proj1 (proj2 (proj2 (high_priority_selection_is_top_ten
                                db_fifteen_found)))
           oldest H1 H2 H3).
Defined.

(** ** Rows after the workflow passes *)

Lemma map_rows_wf (F : App.t -> App.t) (db : Database) :
  (forall r, App.id (F r) = App.id r /\ App.job_id (F r) = App.job_id r) ->
  db_wf db ->
  db_wf {| applications := map F (applications db);
           sqlite_sequence := sqlite_sequence db |}.
Proof.
  intros HF [Hid Hkey Hseq].
  assert (Hids : map App.id (map F (applications db))
                 = map App.id (applications db)).
  { rewrite map_map. apply map_ext. intros r. apply HF. }
  assert (Hkeys : map App.job_id (map F (applications db))
                  = map App.job_id (applications db)).
  { rewrite map_map. apply map_ext. intros r. apply HF. }
  constructor; cbn [applications sqlite_sequence].
  - now rewrite Hids.
  - now rewrite Hkeys.
  - rewrite Forall_forall in *. intros r Hr.
    apply in_map_iff in Hr. destruct Hr as [r0 [<- Hr0]].
    rewrite (proj1 (HF r0)). now apply Hseq.
Qed.

Section PassRows.

Variable cv_request : option string -> string -> result string.
Variable cover_letter_request : App.t -> result string.

Lemma process_rows (db : Database) :
  db_wf db ->
  process_high_priority_jobs cv_request cover_letter_request db =
  {| applications :=
       map (pass_row cv_request cover_letter_request
              (get_high_priority_jobs db)) (applications db);
     sqlite_sequence := sqlite_sequence db |}.
Proof.
  intros Hwf.
  destruct (high_priority_selection db Hwf) as [Hnd [Hincl _]].
  unfold process_high_priority_jobs. f_equal.
  change (fold_left _ _ _)
    with (run_updates (fun j => App.set_ready
                          (optimize_cv_for_job cv_request
                             (App.description j) (App.title j))
                          (generate_cover_letter cover_letter_request j))
            (get_high_priority_jobs db) (applications db)).
  apply run_updates_selected;
    [reflexivity | apply Hwf | exact Hnd | exact Hincl].
Qed.

Lemma process_wf (db : Database) :
  db_wf db ->
  db_wf (process_high_priority_jobs cv_request cover_letter_request db).
Proof.
  intros Hwf. rewrite (process_rows db Hwf).
  apply map_rows_wf; [| exact Hwf].
  intros r. unfold pass_row.
  destruct (selected_by_id _ r); split; reflexivity.
Qed.

End PassRows.

Lemma check_rows (today : Z) (db : Database) :
  db_wf db ->
  check_follow_ups today db =
  {| applications :=
       map (fun r => if needs_follow_up (today - 7) r
                     then App.set_follow_up today r else r)
         (applications db);
     sqlite_sequence := sqlite_sequence db |}.
Proof.
  intros Hwf. rewrite <- (check_follow_ups_rows today db Hwf).
  reflexivity.
Qed.

Lemma check_wf (today : Z) (db : Database) :
  db_wf db -> db_wf (check_follow_ups today db).
Proof.
  intros Hwf. rewrite (check_rows today db Hwf).
  apply map_rows_wf; [| exact Hwf].
  intros r. destruct (needs_follow_up (today - 7) r); split; reflexivity.
Qed.

Lemma save_wf (today now : Z) (jobs_df : DataFrame ScoredJob)
  (db : Database) :
  db_wf db -> db_wf (fst (save_jobs_to_database today now jobs_df db)).
Proof. intros Hwf. rewrite save_conn. now apply loop_wf. Qed.

Lemma filter_map_fixed {A : Type} (p q : A -> bool) (F : A -> A)
  (l : list A) :
  (forall x, In x l -> p (F x) = q x /\ (q x = true -> F x = x)) ->
  filter p (map F l) = filter q l.
Proof.
  induction l as [| x l IH]; intros H; [reflexivity |].
  cbn [map filter].
  destruct (H x (or_introl eq_refl)) as [Hp Hfix].
  rewrite Hp, IH by (intros y Hy; apply H; now right).
  destruct (q x); [now rewrite Hfix | reflexivity].
Qed.

Lemma ready_row_not_high_priority
  (cv_request : option string -> string -> result string)
  (cover_letter_request : App.t -> result string) (r : App.t) :
  is_high_priority (ready_row cv_request cover_letter_request r) = false.
Proof. reflexivity. Qed.

Lemma process_empty_selection
  (cv_request : option string -> string -> result string)
  (cover_letter_request : App.t -> result string) (db : Database) :
  filter is_high_priority (applications db) = [] ->
  process_high_priority_jobs cv_request cover_letter_request db = db.
Proof.
  intros H. unfold process_high_priority_jobs, get_high_priority_jobs.
  rewrite H. destruct db; reflexivity.
Qed.

Lemma selection_when_short (db : Database) :
  (List.length (filter is_high_priority (applications db)) <= 10)%nat ->
  Permutation (get_high_priority_jobs db)
    (filter is_high_priority (applications db)).
Proof.
  intros Hlen. unfold get_high_priority_jobs.
  pose proof (stable_sort_perm App.t priority_precedes
                (filter is_high_priority (applications db))) as Hperm.
  rewrite firstn_all2.
  - now apply Permutation_sym.
  - rewrite <- (Permutation_length Hperm). exact Hlen.
Qed.

(** X11: a job processed by the high-priority pass leaves the queue: the
    high-priority jobs after the pass are the high-priority jobs that
    were not selected, unchanged.  With at most 10 high-priority jobs the
    pass empties the queue, and a second pass changes nothing. *)
Theorem processed_jobs_leave_the_queue
  (cv_request : option string -> string -> result string)
  (cover_letter_request : App.t -> result string) (db : Database) :
  db_wf db ->
  let selection := get_high_priority_jobs db in
  let db' := process_high_priority_jobs cv_request cover_letter_request db in
  filter is_high_priority (applications db') =
    filter (fun r => is_high_priority r && negb (selected_by_id selection r))
      (applications db) /\
  (forall r, In r (get_high_priority_jobs db') ->
     In r (applications db) /\ ~ In r selection) /\
  ((List.length (filter is_high_priority (applications db)) <= 10)%nat ->
   filter is_high_priority (applications db') = [] /\
   process_high_priority_jobs cv_request cover_letter_request db' = db').
Proof.
  intros Hwf selection db'.
  destruct (high_priority_selection db Hwf) as [Hnd [Hincl Hsel]].
  assert (Hrows : applications db' =
                  map (pass_row cv_request cover_letter_request selection)
                    (applications db)).
  { unfold db'. now rewrite (process_rows cv_request cover_letter_request
                               db Hwf). }
  assert (Hqueue :
    filter is_high_priority (applications db') =
    filter (fun r => is_high_priority r && negb (selected_by_id selection r))
      (applications db)).
  { rewrite Hrows. apply filter_map_fixed. intros r Hr. unfold pass_row.
    destruct (selected_by_id selection r) eqn:E.
    - rewrite ready_row_not_high_priority, andb_false_r.
      split; [reflexivity | discriminate].
    - rewrite andb_true_r. split; reflexivity. }
  split; [exact Hqueue | split].
  - intros r Hr.
    assert (Hin : In r (filter is_high_priority (applications db'))).
    { unfold get_high_priority_jobs in Hr. apply firstn_incl in Hr.
      now apply (Permutation_in _
                   (Permutation_sym
                      (stable_sort_perm App.t priority_precedes _))) in Hr. }
    rewrite Hqueue in Hin. apply filter_In in Hin.
    destruct Hin as [Hin Hp]. apply andb_true_iff in Hp.
    destruct Hp as [_ Hns]. split; [exact Hin |].
    intros Habs.
    apply (selected_by_id_In selection (applications db) r
             (wf_ids Hwf) Hincl Hin) in Habs.
    rewrite Habs in Hns. discriminate Hns.
  - intros Hlen.
    assert (Hnone : filter is_high_priority (applications db') = []).
    { rewrite Hqueue. apply filter_none. intros r Hr.
      destruct (is_high_priority r) eqn:Ehp; [| reflexivity].
      assert (Hin : In r selection).
      { apply (Permutation_in _
                 (Permutation_sym (selection_when_short db Hlen))).
        apply filter_In. now split. }
      apply (selected_by_id_In selection (applications db) r
               (wf_ids Hwf) Hincl Hr) in Hin.
      now rewrite Hin. }
    split; [exact Hnone | now apply process_empty_selection].
Qed.

Lemma processed_jobs_leave_the_queue_witness :
  db_wf db_found /\
  (List.length (filter is_high_priority (applications db_found)) <= 10)%nat /\
  let db' := process_high_priority_jobs cv_request_ok
               cover_letter_request_ok db_found in
  filter is_high_priority (applications db') = [] /\
  process_high_priority_jobs cv_request_ok cover_letter_request_ok db' = db'.
Proof.
  assert (Hlen : (List.length
                    (filter is_high_priority (applications db_found))
                  <= 10)%nat) by (vm_compute; lia).
  split; [exact db_found_wf | split; [exact Hlen |]].
  exact (proj2 (proj2 (processed_jobs_leave_the_queue cv_request_ok
                         cover_letter_request_ok db_found db_found_wf))
           Hlen).
Defined.

(** ** Follow-up sweeps *)

Lemma sweep_row_twice (d1 d2 : Z) (r : App.t) :
  sweep_row d2 (sweep_row d1 r) =
  if needs_follow_up (d1 - 7) r then App.set_follow_up d1 r
  else sweep_row d2 r.
Proof.
  unfold sweep_row at 2.
  destruct (needs_follow_up (d1 - 7) r); [| reflexivity].
  unfold sweep_row, needs_follow_up. cbn [App.status App.set_follow_up].
  now rewrite andb_false_r.
Qed.

(** X12: follow-up sweeps compose.  After a sweep on day [d1] and a
    sweep on day [d2] a job carries the mark of the first sweep that
    selected it: the follow-up date written by a sweep is never
    overwritten by a later one, and a job whose status is not [applied]
    is never touched. *)
Theorem follow_up_date_is_kept (d1 d2 : Z) (db : Database) :
  db_wf db ->
  applications (check_follow_ups d2 (check_follow_ups d1 db)) =
    map (fun r =>
           if needs_follow_up (d1 - 7) r then App.set_follow_up d1 r
           else if needs_follow_up (d2 - 7) r then App.set_follow_up d2 r
           else r)
      (applications db) /\
  (forall r, In r (applications db) -> App.status r <> "applied" ->
     In r (applications (check_follow_ups d1 db))).
Proof.
  intros Hwf. split.
  - rewrite (check_rows d2 _ (check_wf d1 db Hwf)), (check_rows d1 db Hwf).
    cbn [applications]. rewrite map_map. apply map_ext. intros r.
    apply (sweep_row_twice d1 d2 r).
  - intros r Hr Hst. rewrite (check_rows d1 db Hwf). cbn [applications].
    apply in_map_iff. exists r. split; [| exact Hr].
    unfold needs_follow_up.
    destruct (String.eqb (App.status r) "applied") eqn:E.
    + apply String.eqb_eq in E. contradiction.
    + now rewrite andb_false_r.
Qed.

Lemma follow_up_date_is_kept_witness :
  db_wf db_applications /\
  map (fun r => (App.id r, App.status r, App.follow_up_date r))
    (applications
       (check_follow_ups 105 (check_follow_ups 100 db_applications)))
  = [ (1, "follow_up_needed", Some 100);
      (2, "applied", None);
      (3, "follow_up_needed", Some 105) ].
Proof.
  split; [exact db_applications_wf |].
  rewrite (proj1 (follow_up_date_is_kept 100 105 db_applications
                    db_applications_wf)).
  reflexivity.
Defined.

(** ** The pass and the sweep do not interfere *)

Section Commute.

Variable cv_request : option string -> string -> result string.
Variable cover_letter_request : App.t -> result string.

Lemma selected_is_found (db : Database) (r : App.t) :
  db_wf db -> In r (applications db) ->
  selected_by_id (get_high_priority_jobs db) r = true ->
  App.status r = "found".
Proof.
  intros Hwf Hr Hs.
  destruct (high_priority_selection db Hwf) as [_ [Hincl Hsel]].
  apply (selected_by_id_In _ (applications db) r (wf_ids Hwf) Hincl Hr)
    in Hs.
  now apply Hsel.
Qed.

Lemma needs_follow_up_applied (week_ago : Z) (r : App.t) :
  needs_follow_up week_ago r = true -> App.status r = "applied".
Proof.
  unfold needs_follow_up. rewrite !andb_true_iff.
  intros [[_ H] _]. now apply String.eqb_eq.
Qed.

Lemma selection_after_sweep (today : Z) (db : Database) :
  db_wf db ->
  get_high_priority_jobs (check_follow_ups today db)
  = get_high_priority_jobs db.
Proof.
  intros Hwf. unfold get_high_priority_jobs.
  rewrite (check_rows today db Hwf). cbn [applications].
  rewrite (filter_map_fixed is_high_priority is_high_priority); [reflexivity |].
  intros r _.
  destruct (needs_follow_up (today - 7) r) eqn:E;
    [| split; reflexivity].
  apply needs_follow_up_applied in E.
  unfold is_high_priority. cbn [App.status App.set_follow_up].
  rewrite E. split; [reflexivity | discriminate].
Qed.

Lemma sweep_selection_after_pass (today : Z) (db : Database) :
  db_wf db ->
  map (sweep_row today)
    (map (pass_row cv_request cover_letter_request
            (get_high_priority_jobs db)) (applications db))
  = map (fun r =>
           if selected_by_id (get_high_priority_jobs db) r
           then ready_row cv_request cover_letter_request r
           else sweep_row today r)
      (applications db).
Proof.
  intros Hwf. rewrite map_map. apply map_ext_in. intros r Hr.
  unfold pass_row.
  destruct (selected_by_id (get_high_priority_jobs db) r); [| reflexivity].
  unfold sweep_row, needs_follow_up, ready_row.
  cbn [App.status App.set_ready]. now rewrite andb_false_r.
Qed.

End Commute.

(** X13: the high-priority pass and the follow-up sweep commute: the
    pass rewrites jobs in [found], the sweep jobs in [applied], and
    neither changes what the other selects, so that the store after both
    does not depend on their order. *)
Theorem pass_and_sweep_commute
  (cv_request : option string -> string -> result string)
  (cover_letter_request : App.t -> result string)
  (today : Z) (db : Database) :
  db_wf db ->
  process_high_priority_jobs cv_request cover_letter_request
    (check_follow_ups today db)
  = check_follow_ups today
      (process_high_priority_jobs cv_request cover_letter_request db).
Proof.
  intros Hwf.
  rewrite (process_rows cv_request cover_letter_request _
             (check_wf today db Hwf)).
  rewrite (check_rows today _
             (process_wf cv_request cover_letter_request db Hwf)).
  rewrite (selection_after_sweep today db Hwf).
  rewrite (process_rows cv_request cover_letter_request db Hwf).
  rewrite (check_rows today db Hwf). cbn [applications sqlite_sequence].
  f_equal.
  fold (sweep_row today).
  change (map (fun r => if needs_follow_up (today - 7) r
                        then App.set_follow_up today r else r))
    with (map (sweep_row today)).
  rewrite (sweep_selection_after_pass cv_request cover_letter_request
             today db Hwf).
  rewrite map_map. apply map_ext_in. intros r Hr.
  unfold pass_row.
  destruct (selected_by_id (get_high_priority_jobs db) r) eqn:Es.
  - assert (Hfound := selected_is_found db r Hwf Hr Es).
    assert (Hsame : sweep_row today r = r).
    { unfold sweep_row.
      destruct (needs_follow_up (today - 7) r) eqn:E; [| reflexivity].
      apply needs_follow_up_applied in E. congruence. }
    rewrite Hsame, Es. reflexivity.
  - assert (Hsel : selected_by_id (get_high_priority_jobs db)
                     (sweep_row today r) = false).
    { unfold sweep_row. destruct (needs_follow_up (today - 7) r);
        exact Es. }
    now rewrite Hsel.
Qed.

Lemma db_mixed_wf : db_wf db_mixed.
Proof. check_constraints. Qed.

Lemma pass_and_sweep_commute_witness :
  db_wf db_mixed /\
  process_high_priority_jobs cv_request_ok cover_letter_request_ok
    (check_follow_ups 100 db_mixed)
  = check_follow_ups 100
      (process_high_priority_jobs cv_request_ok cover_letter_request_ok
         db_mixed) /\
  map (fun r => (App.id r, App.status r))
    (applications
       (check_follow_ups 100
          (process_high_priority_jobs cv_request_ok cover_letter_request_ok
             db_mixed)))
  = [ (1, "ready_to_apply"); (2, "follow_up_needed"); (3, "found") ].
Proof.
  split; [exact db_mixed_wf | split; [| reflexivity]].
  exact (pass_and_sweep_commute cv_request_ok cover_letter_request_ok
           100 db_mixed db_mixed_wf).
Defined.

(** ** Stores reached from the empty store *)

Lemma sweep_without_applications (today : Z) (db : Database) :
  Forall (fun r => App.status r <> "applied") (applications db) ->
  check_follow_ups today db = db.
Proof.
  intros H. unfold check_follow_ups.
  rewrite filter_none.
  - destruct db; reflexivity.
  - intros r Hr. rewrite Forall_forall in H. specialize (H r Hr).
    unfold needs_follow_up.
    destruct (String.eqb (App.status r) "applied") eqn:E.
    + apply String.eqb_eq in E. contradiction.
    + now rewrite andb_false_r.
Qed.

Lemma written_status_not_applied (l : list App.t) :
  Forall written_status l ->
  Forall (fun r => App.status r <> "applied") l.
Proof.
  apply Forall_impl. intros r [H | H]; rewrite H; discriminate.
Qed.

Section Reachable.

Variable cv_request : option string -> string -> result string.
Variable cover_letter_request : App.t -> result string.

Lemma apply_op_invariant (db : Database) (op : store_op) :
  db_wf db /\ Forall written_status (applications db) ->
  db_wf (apply_op cv_request cover_letter_request db op) /\
  Forall written_status
    (applications (apply_op cv_request cover_letter_request db op)).
Proof.
  intros [Hwf Hst]. destruct op as [today now jobs_df | | today];
    cbn [apply_op].
  - split; [now apply save_wf |].
    rewrite save_conn.
    destruct (loop_appends today now (has_location jobs_df)
                (has_description jobs_df) (rows jobs_df)
                {| conn := db; total_changes := 0; new_jobs_count := 0 |})
      as [added [Happ [Hall _]]].
    rewrite Happ. apply Forall_app. split; [exact Hst |].
    eapply Forall_impl; [| exact Hall].
    intros r [sj [_ [Hr _]]]. left. rewrite Hr. reflexivity.
  - split; [now apply process_wf |].
    rewrite (process_rows cv_request cover_letter_request db Hwf).
    cbn [applications]. rewrite Forall_forall in *.
    intros r Hr. apply in_map_iff in Hr. destruct Hr as [r0 [<- Hr0]].
    unfold pass_row. destruct (selected_by_id _ r0).
    + right. reflexivity.
    + now apply Hst.
  - rewrite (sweep_without_applications today db
               (written_status_not_applied _ Hst)).
    now split.
Qed.

Lemma run_ops_invariant (ops : list store_op) (db : Database) :
  db_wf db /\ Forall written_status (applications db) ->
  db_wf (run_ops cv_request cover_letter_request ops db) /\
  Forall written_status
    (applications (run_ops cv_request cover_letter_request ops db)).
Proof.
  revert db. induction ops as [| op ops IH]; intros db H; [exact H |].
  cbn [run_ops fold_left]. apply IH. now apply apply_op_invariant.
Qed.

End Reachable.

(** X14: in every store reached from the empty store by ingestions,
    high-priority passes and follow-up sweeps, in any order, the
    constraints of the schema hold and the status of every job is [found]
    or [ready_to_apply].  No call writes the status [applied], so in such
    a store the follow-up sweep never changes anything. *)
Theorem reachable_stores
  (cv_request : option string -> string -> result string)
  (cover_letter_request : App.t -> result string)
  (ops : list store_op) :
  let db := run_ops cv_request cover_letter_request ops empty_db in
  db_wf db /\
  Forall written_status (applications db) /\
  (forall today, check_follow_ups today db = db).
Proof.
  intros db.
  destruct (run_ops_invariant cv_request cover_letter_request ops empty_db)
    as [Hwf Hst].
  { split; [exact empty_db_wf | constructor]. }
  split; [exact Hwf | split; [exact Hst |]].
  intros today. apply sweep_without_applications.
  now apply written_status_not_applied.
Qed.

(** ** Columns written once *)

Lemma update_keeps_columns (key : Z) (set : App.t -> App.t)
  (table : list App.t) :
  (forall r, inserted_columns (set r) = inserted_columns r) ->
  map inserted_columns (update_where_id key set table)
  = map inserted_columns table.
Proof.
  intros H. unfold update_where_id. rewrite map_map.
  apply map_ext. intros r. destruct (App.id r =? key); [apply H | reflexivity].
Qed.

Lemma updates_keep_columns (set : App.t -> App.t -> App.t)
  (selection table : list App.t) :
  (forall j r, inserted_columns (set j r) = inserted_columns r) ->
  map inserted_columns (run_updates set selection table)
  = map inserted_columns table.
Proof.
  intros H. unfold run_updates. revert table.
  induction selection as [| j selection IH]; intros table; [reflexivity |].
  cbn [fold_left]. rewrite IH. apply update_keeps_columns. apply H.
Qed.

Lemma apply_op_keeps_columns
  (cv_request : option string -> string -> result string)
  (cover_letter_request : App.t -> result string)
  (db : Database) (op : store_op) :
  exists extra,
    map inserted_columns
      (applications (apply_op cv_request cover_letter_request db op))
    = (map inserted_columns (applications db) ++ extra)%list.
Proof.
  destruct op as [today now jobs_df | | today]; cbn [apply_op].
  - rewrite save_conn.
    destruct (loop_appends today now (has_location jobs_df)
                (has_description jobs_df) (rows jobs_df)
                {| conn := db; total_changes := 0; new_jobs_count := 0 |})
      as [added [Happ _]].
    exists (map inserted_columns added). now rewrite Happ, map_app.
  - exists []. rewrite app_nil_r.
    unfold process_high_priority_jobs. cbn [applications].
    apply (updates_keep_columns
             (fun j => App.set_ready
                         (optimize_cv_for_job cv_request
                            (App.description j) (App.title j))
                         (generate_cover_letter cover_letter_request j))).
    reflexivity.
  - exists []. rewrite app_nil_r.
    unfold check_follow_ups. cbn [applications].
    apply (updates_keep_columns (fun _ => App.set_follow_up today)).
    reflexivity.
Qed.

(** X15: no call deletes a stored job or rewrites what the [INSERT]
    wrote: after any sequence of ingestions, passes and sweeps the stored
    rows are the former rows, in their order and with their [id], key,
    title, company, location, salary, URL, description, application date,
    match score and creation time, followed by the rows inserted
    since. *)
Theorem inserted_columns_never_change
  (cv_request : option string -> string -> result string)
  (cover_letter_request : App.t -> result string)
  (ops : list store_op) (db : Database) :
  exists extra,
    map inserted_columns
      (applications (run_ops cv_request cover_letter_request ops db))
    = (map inserted_columns (applications db) ++ extra)%list.
Proof.
  revert db. induction ops as [| op ops IH]; intros db.
  - exists []. now rewrite app_nil_r.
  - cbn [run_ops fold_left].
    destruct (IH (apply_op cv_request cover_letter_request db op))
      as [extra2 H2].
    destruct (apply_op_keeps_columns cv_request cover_letter_request db op)
      as [extra1 H1].
    exists (extra1 ++ extra2)%list.
    unfold run_ops in H2. rewrite H2, H1. now rewrite app_assoc.
Qed.

(** ** Cleaning of the scraped frame *)

Lemma cell_same_sym (a b : cell) : cell_same a b = cell_same b a.
Proof. destruct a, b; try reflexivity. apply String.eqb_sym. Qed.

Lemma cell_same_refl (a : cell) : cell_same a a = true.
Proof. destruct a; try reflexivity. apply String.eqb_refl. Qed.

Lemma same_key_sym (a b : ScrapedJob) : same_key a b = same_key b a.
Proof.
  unfold same_key.
  now rewrite (cell_same_sym (sc_title a)), (cell_same_sym (sc_company a)).
Qed.

Lemma same_key_refl (a : ScrapedJob) : same_key a a = true.
Proof. unfold same_key. now rewrite !cell_same_refl. Qed.

Lemma same_key_essentials (a b : ScrapedJob) :
  same_key a b = true -> has_essentials a = has_essentials b.
Proof.
  unfold same_key, has_essentials. intros H.
  apply andb_true_iff in H. destruct H as [Ht Hc].
  destruct (sc_title a), (sc_title b); try discriminate Ht;
    destruct (sc_company a), (sc_company b); try discriminate Hc;
    reflexivity.
Qed.

Lemma drop_duplicates_from_spec (seen l : list ScrapedJob) :
  (forall j, In j (drop_duplicates_from seen l) ->
     In j l /\ existsb (same_key j) seen = false) /\
  ForallOrdPairs (fun a b => same_key a b = false)
    (drop_duplicates_from seen l).
Proof.
  revert seen. induction l as [| x l IH]; intros seen.
  - split; [intros j [] | constructor].
  - cbn [drop_duplicates_from].
    destruct (existsb (same_key x) seen) eqn:E.
    + destruct (IH seen) as [Hin Hpairs]. split; [| exact Hpairs].
      intros j Hj. destruct (Hin j Hj). split; [now right | assumption].
    + destruct (IH (x :: seen)) as [Hin Hpairs]. split.
      * intros j [<- | Hj]; [split; [now left | exact E] |].
        destruct (Hin j Hj) as [Hl Hs]. cbn [existsb] in Hs.
        apply orb_false_iff in Hs. split; [now right | apply Hs].
      * constructor; [| exact Hpairs].
        apply Forall_forall. intros j Hj.
        destruct (Hin j Hj) as [_ Hs]. cbn [existsb] in Hs.
        apply orb_false_iff in Hs. rewrite same_key_sym. apply Hs.
Qed.

Lemma drop_duplicates_from_keeps_keys (seen l : list ScrapedJob)
  (j : ScrapedJob) :
  In j l ->
  existsb (same_key j) seen = true \/
  exists j', In j' (drop_duplicates_from seen l) /\ same_key j j' = true.
Proof.
  revert seen. induction l as [| x l IH]; intros seen Hj; [destruct Hj |].
  cbn [drop_duplicates_from].
  destruct (existsb (same_key x) seen) eqn:E.
  - destruct Hj as [<- | Hj]; [now left | now apply IH].
  - destruct Hj as [<- | Hj].
    + right. exists x. split; [now left | apply same_key_refl].
    + destruct (IH (x :: seen) Hj) as [H | [j' [H1 H2]]].
      * cbn [existsb] in H. apply orb_true_iff in H.
        destruct H as [H | H]; [| now left].
        right. exists x. split; [now left | exact H].
      * right. exists j'. split; [now right | exact H2].
Qed.

(** A list without two rows of the same key is left as it is. *)
Lemma drop_duplicates_from_distinct (seen l : list ScrapedJob) :
  ForallOrdPairs (fun a b => same_key a b = false) l ->
  (forall a b, In a seen -> In b l -> same_key a b = false) ->
  drop_duplicates_from seen l = l.
Proof.
  revert seen. induction l as [| x l IH]; intros seen Hp Hs; [reflexivity |].
  inversion Hp as [| ? ? Hx Hp']; subst.
  cbn [drop_duplicates_from].
  assert (E : existsb (same_key x) seen = false).
  { destruct (existsb (same_key x) seen) eqn:E; [| reflexivity].
    apply existsb_exists in E. destruct E as [a [Ha E]].
    rewrite same_key_sym, (Hs a x Ha (or_introl eq_refl)) in E.
    discriminate E. }
  rewrite E. f_equal. apply IH; [exact Hp' |].
  intros a b [<- | Ha] Hb.
  - rewrite Forall_forall in Hx. now apply Hx.
  - apply Hs; [exact Ha | now right].
Qed.

Lemma ForallOrdPairs_map_filter {A : Type} (R : A -> A -> Prop)
  (F : A -> A) (p : A -> bool) (l : list A) :
  (forall a b, R a b -> R (F a) (F b)) ->
  ForallOrdPairs R l -> ForallOrdPairs R (filter p (map F l)).
Proof.
  intros HF. induction 1 as [| x l Hx Hp IH]; [constructor |].
  cbn [map filter]. destruct (p (F x)); [| exact IH].
  constructor; [| exact IH].
  apply Forall_forall. intros y Hy. apply filter_In in Hy.
  destruct Hy as [Hy _]. apply in_map_iff in Hy.
  destruct Hy as [y0 [<- Hy0]]. apply HF.
  rewrite Forall_forall in Hx. now apply Hx.
Qed.

(** The three steps of [clean_job_data] after [drop_duplicates] as one
    function on rows. *)
Lemma clean_job_data_rows (jobs_df : ScrapedFrame) :
  sf_rows jobs_df <> [] ->
  sf_rows (clean_job_data jobs_df) =
  filter has_essentials
    (map (cleaned_row (sf_has_salary jobs_df) (sf_has_location jobs_df))
       (drop_duplicates (sf_rows jobs_df))).
Proof.
  intros H. unfold clean_job_data, cleaned_row.
  destruct (sf_rows jobs_df) as [| x l] eqn:E; [contradiction |].
  cbn [sf_rows]. f_equal.
  destruct (sf_has_salary jobs_df), (sf_has_location jobs_df);
    rewrite ?map_map; try reflexivity; symmetry; apply map_id.
Qed.

Lemma cleaned_row_key (hs hl : bool) (a b : ScrapedJob) :
  same_key (cleaned_row hs hl a) (cleaned_row hs hl b) = same_key a b.
Proof. unfold cleaned_row. destruct hs, hl; reflexivity. Qed.

Lemma cleaned_row_key_left (hs hl : bool) (a b : ScrapedJob) :
  same_key (cleaned_row hs hl a) b = same_key a b.
Proof. unfold cleaned_row. destruct hs, hl; reflexivity. Qed.

Lemma cleaned_row_essentials (hs hl : bool) (j : ScrapedJob) :
  has_essentials (cleaned_row hs hl j) = has_essentials j.
Proof. unfold cleaned_row. destruct hs, hl; reflexivity. Qed.

Lemma has_essentials_text (j : ScrapedJob) :
  has_essentials j = true ->
  exists t c, sc_title j = Str t /\ sc_company j = Str c.
Proof.
  unfold has_essentials.
  destruct (sc_title j) as [t | |], (sc_company j) as [c | |];
    try discriminate. intros _. now exists t, c.
Qed.

Lemma clean_rows_facts (jobs_df : ScrapedFrame) :
  let out := clean_job_data jobs_df in
  Forall (fun j => exists t c, sc_title j = Str t /\ sc_company j = Str c)
    (sf_rows out) /\
  ForallOrdPairs (fun a b => same_key a b = false) (sf_rows out) /\
  (forall j, In j (sf_rows out) ->
     exists j0, In j0 (sf_rows jobs_df) /\
       j = cleaned_row (sf_has_salary jobs_df) (sf_has_location jobs_df) j0) /\
  (forall j0, In j0 (sf_rows jobs_df) -> has_essentials j0 = true ->
     exists j, In j (sf_rows out) /\ same_key j j0 = true).
Proof.
  intros out. unfold out.
  destruct (sf_rows jobs_df) as [| x l] eqn:E.
  - unfold clean_job_data. rewrite E. cbv iota. rewrite E.
    split; [constructor | split; [constructor |]].
    split; intros j [].
  - assert (Hne : sf_rows jobs_df <> []) by (rewrite E; discriminate).
    rewrite (clean_job_data_rows jobs_df Hne), E.
    set (hs := sf_has_salary jobs_df). set (hl := sf_has_location jobs_df).
    destruct (drop_duplicates_from_spec [] (x :: l)) as [Hin Hpairs].
    fold (drop_duplicates (x :: l)) in Hin, Hpairs.
    split; [| split; [| split]].
    + apply Forall_forall. intros j Hj. apply filter_In in Hj.
      apply has_essentials_text, Hj.
    + apply ForallOrdPairs_map_filter; [| exact Hpairs].
      intros a b H. now rewrite cleaned_row_key.
    + intros j Hj. apply filter_In in Hj. destruct Hj as [Hj _].
      apply in_map_iff in Hj. destruct Hj as [j0 [<- Hj0]].
      exists j0. split; [apply (Hin j0 Hj0) | reflexivity].
    + intros j0 Hj0 Hess.
      destruct (drop_duplicates_from_keeps_keys [] (x :: l) j0 Hj0)
        as [H | [j' [Hj' Hk]]]; [discriminate H |].
      exists (cleaned_row hs hl j'). split.
      * apply filter_In. split; [now apply in_map |].
        rewrite cleaned_row_essentials.
        now rewrite <- (same_key_essentials j0 j' Hk).
      * now rewrite cleaned_row_key_left, same_key_sym.
Qed.

(** The cleaned frame of a frame with rows. *)
Lemma clean_job_data_value (jobs_df : ScrapedFrame) :
  sf_rows jobs_df <> [] ->
  clean_job_data jobs_df =
  {| sf_has_salary := sf_has_salary jobs_df;
     sf_has_location := sf_has_location jobs_df;
     sf_has_description := sf_has_description jobs_df;
     sf_has_salary_clean :=
       sf_has_salary jobs_df || sf_has_salary_clean jobs_df;
     sf_rows :=
       filter has_essentials
         (map (cleaned_row (sf_has_salary jobs_df) (sf_has_location jobs_df))
            (drop_duplicates (sf_rows jobs_df))) |}.
Proof.
  intros H. rewrite <- (clean_job_data_rows jobs_df H).
  unfold clean_job_data.
  destruct (sf_rows jobs_df); [contradiction | reflexivity].
Qed.

(** X16: every row of the cleaned frame has a title and a company, no
    two rows have the same title and company, and each row is the cleaned
    form of a row of the input; in the other direction every input row
    with title and company is represented in the result by a row of the
    same title and company. *)
Theorem clean_job_data_output (jobs_df : ScrapedFrame) :
  let out := clean_job_data jobs_df in
  Forall (fun j => exists t c, sc_title j = Str t /\ sc_company j = Str c)
    (sf_rows out) /\
  ForallOrdPairs (fun a b => same_key a b = false) (sf_rows out) /\
  (forall j, In j (sf_rows out) ->
     exists j0, In j0 (sf_rows jobs_df) /\
       j = cleaned_row (sf_has_salary jobs_df) (sf_has_location jobs_df) j0) /\
  (forall j0, In j0 (sf_rows jobs_df) -> has_essentials j0 = true ->
     exists j, In j (sf_rows out) /\ same_key j j0 = true).
Proof. exact (clean_rows_facts jobs_df). Qed.

Lemma clean_job_data_output_witness :
  map (fun j => (sc_title j, sc_company j, sc_location j, sc_salary_clean j))
    (sf_rows (clean_job_data scraped_sample))
  = [ (Str "Business Analyst", Str "Globex", Str "Remote (Poland)",
       Str "12000");
      (Str "Product Manager", Str "Initech", Str "fully Remote", PyNone) ] /\
  Forall (fun j => exists t c, sc_title j = Str t /\ sc_company j = Str c)
    (sf_rows (clean_job_data scraped_sample)).
Proof.
  split; [reflexivity |].
  exact (proj1 (clean_job_data_output scraped_sample)).
Defined.

(** ** Replacement that ignores the case *)

Lemma lower_length (s : string) :
  String.length (PyStr.lower s) = String.length s.
Proof. induction s as [| c s IH]; simpl; congruence. Qed.

Lemma lower_slice_from (k : nat) (s : string) :
  PyStr.lower (slice_from k s) = slice_from k (PyStr.lower s).
Proof.
  revert s. induction k as [| k IH]; intros s; [reflexivity |].
  destruct s as [| c s]; [reflexivity | apply IH].
Qed.

Lemma prefix_split (p t : string) :
  String.prefix p t = true -> t = p ++ slice_from (String.length p) t.
Proof.
  revert t. induction p as [| a p IH]; intros t H; [reflexivity |].
  destruct t as [| b t]; [discriminate H |].
  simpl in H. destruct (ascii_dec a b) as [-> | _]; [| discriminate H].
  cbn [append String.length slice_from]. f_equal. now apply IH.
Qed.

Lemma prefix_of_append (p x : string) : String.prefix p (p ++ x) = true.
Proof.
  induction p as [| a p IH]; [destruct x; reflexivity |].
  simpl. destruct (ascii_dec a a); [exact IH | contradiction].
Qed.

Lemma contains_of_append (p x : string) : PyStr.contains p (p ++ x) = true.
Proof.
  destruct (p ++ x) eqn:E; cbn [PyStr.contains]; rewrite <- E;
    now rewrite prefix_of_append.
Qed.

Section ReplaceIgnoreCase.

Variables pat repl : string.
Hypothesis pat_not_empty : pat <> "".
Hypothesis same_letters : PyStr.lower repl = PyStr.lower pat.

Lemma repl_length : String.length repl = String.length pat.
Proof.
  rewrite <- (lower_length repl), <- (lower_length pat).
  now rewrite same_letters.
Qed.

Lemma repl_cons :
  exists r0 repl',
    repl = String r0 repl' /\
    (String.length pat - 1)%nat = String.length repl'.
Proof.
  pose proof repl_length as Hl. pose proof pat_not_empty as Hp.
  revert Hl Hp. generalize pat. generalize repl.
  intros [| r0 r'] [| p0 p'] Hl Hp;
    try contradiction; try discriminate Hl.
  exists r0, r'. split; [reflexivity |].
  cbn [String.length] in *. lia.
Qed.

Lemma replace_skips (a x : string) :
  replace_from true pat repl (String.length a) (a ++ x)
  = replace_from true pat repl 0 x.
Proof.
  induction a as [| c a IH]; [reflexivity | exact IH].
Qed.

(** The replacement changes the case of letters only. *)
Lemma replace_lower (k : nat) (s : string) :
  PyStr.lower (replace_from true pat repl k s)
  = slice_from k (PyStr.lower s).
Proof.
  revert k. induction s as [| c s IH]; intros k.
  - destruct k; reflexivity.
  - destruct k as [| k]; [| apply IH].
    cbn [replace_from slice_from].
    destruct (String.prefix (PyStr.lower pat) (PyStr.lower (String c s)))
      eqn:T.
    + rewrite lower_app, same_letters, IH.
      etransitivity; [| symmetry; exact (prefix_split _ _ T)].
      f_equal. rewrite lower_length.
      destruct pat as [| p0 pat']; [contradiction |].
      cbn [String.length Nat.sub PyStr.lower slice_from].
      now rewrite Nat.sub_0_r.
    + cbn [PyStr.lower]. f_equal. apply (IH 0%nat).
Qed.

Lemma replace_idem (k : nat) (s : string) :
  replace_from true pat repl 0 (replace_from true pat repl k s)
  = replace_from true pat repl k s.
Proof.
  revert k. induction s as [| c s IH]; intros k.
  - destruct k; reflexivity.
  - destruct k as [| k]; [| apply IH].
    cbn [replace_from].
    destruct (String.prefix (PyStr.lower pat) (PyStr.lower (String c s)))
      eqn:T.
    + set (rest := replace_from true pat repl (String.length pat - 1) s).
      assert (Hrest : replace_from true pat repl 0 rest = rest)
        by apply IH.
      destruct repl_cons as [r0 [repl' [Er Hk]]].
      assert (T' : String.prefix (PyStr.lower pat)
                     (PyStr.lower (repl ++ rest)) = true).
      { rewrite lower_app, same_letters. apply prefix_of_append. }
      assert (Hshape : repl ++ rest = String r0 (repl' ++ rest))
        by (now rewrite Er).
      rewrite Hshape in T' |- *. cbn [replace_from].
      rewrite T'. rewrite <- Hshape. f_equal.
      fold rest. rewrite Hk, replace_skips. exact Hrest.
    + cbn [replace_from].
      assert (T' : String.prefix (PyStr.lower pat)
                     (PyStr.lower
                        (String c (replace_from true pat repl 0 s)))
                   = false).
      { cbn [PyStr.lower]. rewrite (replace_lower 0 s). exact T. }
      rewrite T'. f_equal. apply (IH 0%nat).
Qed.

(** Where the pattern occurs in some case, the replacement occurs as it
    is written. *)
Lemma replace_canonical (s : string) :
  PyStr.contains_ci pat s = true ->
  PyStr.contains repl (replace_from true pat repl 0 s) = true.
Proof.
  unfold PyStr.contains_ci.
  induction s as [| c s IH]; intros H.
  - cbn [PyStr.lower PyStr.contains] in H. rewrite orb_false_r in H.
    destruct (PyStr.lower pat) eqn:E; [| discriminate H].
    destruct pat; [contradiction | discriminate E].
  - cbn [replace_from].
    destruct (String.prefix (PyStr.lower pat) (PyStr.lower (String c s)))
      eqn:T.
    + apply contains_of_append.
    + cbn [PyStr.lower PyStr.contains] in H.
      cbn [PyStr.lower] in T. rewrite T in H. cbn [orb] in H.
      cbn [PyStr.contains]. rewrite (IH H). apply orb_true_r.
Qed.

End ReplaceIgnoreCase.

Lemma standardize_location_lower (s : string) :
  PyStr.lower (standardize_location s) = PyStr.lower s.
Proof.
  unfold standardize_location, str_replace_ignore_case.
  apply (replace_lower "remote" "Remote"); [discriminate | reflexivity].
Qed.

Lemma standardize_location_idem (s : string) :
  standardize_location (standardize_location s) = standardize_location s.
Proof.
  unfold standardize_location, str_replace_ignore_case.
  apply (replace_idem "remote" "Remote"); [discriminate | reflexivity].
Qed.

Lemma str_contains_standardized (parts : list string) (c : cell) :
  str_contains parts (str_map standardize_location c) = str_contains parts c.
Proof.
  destruct c as [s | |]; try reflexivity.
  cbn [str_map str_contains].
  induction (regex_alternatives parts) as [| part l IH]; [reflexivity |].
  cbn [existsb]. rewrite IH. f_equal.
  unfold PyStr.contains_ci. now rewrite standardize_location_lower.
Qed.

(** X17: the standardization of a location changes nothing but the case
    of letters: wherever "remote" occurs in any case the result has
    "Remote", a second standardization changes nothing, and the location
    filter gives the same answer on a location before and after. *)
Theorem location_standardization (s : string) :
  PyStr.lower (standardize_location s) = PyStr.lower s /\
  standardize_location (standardize_location s) = standardize_location s /\
  (PyStr.contains_ci "remote" s = true ->
   PyStr.contains "Remote" (standardize_location s) = true) /\
  (forall parts,
     str_contains parts (str_map standardize_location (Str s))
     = str_contains parts (Str s)).
Proof.
  split; [apply standardize_location_lower |].
  split; [apply standardize_location_idem |].
  split.
  - unfold standardize_location, str_replace_ignore_case.
    apply (replace_canonical "remote" "Remote"); [discriminate | reflexivity].
  - intros parts. apply str_contains_standardized.
Qed.

Lemma location_standardization_witness :
  PyStr.contains_ci "remote" "REMOTE (Poland) / remote" = true /\
  standardize_location "REMOTE (Poland) / remote"
  = "Remote (Poland) / Remote" /\
  PyStr.contains "Remote" (standardize_location "REMOTE (Poland) / remote")
  = true.
Proof.
  split; [reflexivity | split; [reflexivity |]].
  exact (proj1 (proj2 (proj2 (location_standardization
                                "REMOTE (Poland) / remote"))) eq_refl).
Defined.

Lemma filter_twice {A : Type} (p : A -> bool) (l : list A) :
  filter p (filter p l) = filter p l.
Proof.
  induction l as [| x l IH]; [reflexivity |].
  cbn [filter]. destruct (p x) eqn:E; [| exact IH].
  cbn [filter]. now rewrite E, IH.
Qed.

Lemma cleaned_row_idem (hs hl : bool) (j : ScrapedJob) :
  cleaned_row hs hl (cleaned_row hs hl j) = cleaned_row hs hl j.
Proof.
  unfold cleaned_row. destruct j as [t c l d s u p pl sd scl].
  destruct hs, hl; unfold with_location_standardized, with_salary_clean;
    cbn; try reflexivity; f_equal;
    destruct l as [l | |]; cbn; try reflexivity;
    now rewrite standardize_location_idem.
Qed.

(** X18: cleaning is idempotent: a cleaned frame is left as it is by a
    second cleaning. *)
Theorem clean_job_data_idempotent (jobs_df : ScrapedFrame) :
  clean_job_data (clean_job_data jobs_df) = clean_job_data jobs_df.
Proof.
  set (out := clean_job_data jobs_df).
  destruct (sf_rows out) as [| y rest] eqn:Eout.
  { unfold clean_job_data at 1. fold out. now rewrite Eout. }
  assert (Hne : sf_rows jobs_df <> []).
  { intros H. unfold out, clean_job_data in Eout. rewrite H in Eout.
    cbv iota in Eout. congruence. }
  assert (Hne' : sf_rows out <> []) by (rewrite Eout; discriminate).
  destruct (clean_rows_facts jobs_df) as [_ [Hpairs [Hfrom _]]].
  fold out in Hpairs, Hfrom.
  set (hs := sf_has_salary jobs_df) in *.
  set (hl := sf_has_location jobs_df) in *.
  assert (Hout := clean_job_data_value jobs_df Hne).
  fold out hs hl in Hout.
  assert (Hfs : sf_has_salary out = hs) by (rewrite Hout; reflexivity).
  assert (Hfl : sf_has_location out = hl) by (rewrite Hout; reflexivity).
  assert (Hfd : sf_has_description out = sf_has_description jobs_df)
    by (rewrite Hout; reflexivity).
  assert (Hfc : sf_has_salary_clean out = hs || sf_has_salary_clean jobs_df)
    by (rewrite Hout; reflexivity).
  assert (Hrows : filter has_essentials
                    (map (cleaned_row hs hl) (drop_duplicates (sf_rows out)))
                  = sf_rows out).
  { unfold drop_duplicates.
    rewrite drop_duplicates_from_distinct;
      [| exact Hpairs | intros a b []].
    assert (Hfix : map (cleaned_row hs hl) (sf_rows out) = sf_rows out).
    { rewrite <- (map_id (sf_rows out)) at 2.
      apply map_ext_in. intros j Hj.
      destruct (Hfrom j Hj) as [j0 [_ ->]]. apply cleaned_row_idem. }
    rewrite Hfix. rewrite Hout at 1 2. cbn [sf_rows]. apply filter_twice. }
  rewrite (clean_job_data_value out Hne'), Hfs, Hfl, Hfd, Hfc, Hrows.
  rewrite Hout. cbn [sf_rows]. f_equal.
  now rewrite orb_assoc, orb_diag.
Qed.

(** ** Search over the platforms *)

Lemma fill_missing_absorbs_left (a b : ScrapedFrame) (j : ScrapedJob) :
  fill_missing (concat_frames a b) (fill_missing a j) = fill_missing a j.
Proof.
  unfold fill_missing, concat_frames.
  cbn [sf_has_salary sf_has_location sf_has_description sf_has_salary_clean
       sc_title sc_company sc_location sc_description sc_salary sc_job_url
       sc_date_posted sc_source_platform sc_search_date sc_salary_clean].
  destruct (sf_has_salary a), (sf_has_location a), (sf_has_description a),
    (sf_has_salary_clean a), (sf_has_salary b), (sf_has_location b),
    (sf_has_description b), (sf_has_salary_clean b); reflexivity.
Qed.

Lemma fill_missing_absorbs_right (a b : ScrapedFrame) (j : ScrapedJob) :
  fill_missing (concat_frames a b) (fill_missing b j) = fill_missing b j.
Proof.
  unfold fill_missing, concat_frames.
  cbn [sf_has_salary sf_has_location sf_has_description sf_has_salary_clean
       sc_title sc_company sc_location sc_description sc_salary sc_job_url
       sc_date_posted sc_source_platform sc_search_date sc_salary_clean].
  destruct (sf_has_salary a), (sf_has_location a), (sf_has_description a),
    (sf_has_salary_clean a), (sf_has_salary b), (sf_has_location b),
    (sf_has_description b), (sf_has_salary_clean b); reflexivity.
Qed.

(** The rows of a concatenation, when the rows of the first frame have
    no value in the columns their frame lacks. *)
Lemma concat_rows (a b : ScrapedFrame) :
  (forall j, In j (sf_rows a) -> fill_missing a j = j) ->
  sf_rows (concat_frames a b)
  = (sf_rows a ++ map (fill_missing b) (sf_rows b))%list /\
  (forall j, In j (sf_rows (concat_frames a b)) ->
     fill_missing (concat_frames a b) j = j).
Proof.
  intros H.
  assert (E : map (fill_missing a) (sf_rows a) = sf_rows a).
  { rewrite <- (map_id (sf_rows a)) at 2. apply map_ext_in. exact H. }
  split.
  - cbn [concat_frames sf_rows]. now rewrite E.
  - cbn [concat_frames sf_rows]. rewrite E. intros j Hj.
    apply in_app_or in Hj. destruct Hj as [Hj | Hj].
    + rewrite <- (H j Hj). apply fill_missing_absorbs_left.
    + apply in_map_iff in Hj. destruct Hj as [x [<- _]].
      apply fill_missing_absorbs_right.
Qed.

Lemma cleaned_row_tags (hs hl : bool) (j : ScrapedJob) :
  sc_source_platform (cleaned_row hs hl j) = sc_source_platform j /\
  sc_search_date (cleaned_row hs hl j) = sc_search_date j.
Proof. destruct hs, hl; split; reflexivity. Qed.

Section SearchFacts.

Variable scrape_jobs :
  string -> string -> string -> Z -> Z -> result (option ScrapedFrame).
Variable elapsed : string -> Q.
Variable criteria : Criteria.
Variable settings : SearchSettings.
Variable today : Z.

Lemma search_step_value (acc : ScrapedFrame) (hist : SearchHistory)
  (p : string) :
  search_step scrape_jobs elapsed criteria settings today (acc, hist) p =
  match platform_answer scrape_jobs criteria settings p with
  | Some (f, term, place) =>
      (concat_frames acc (annotate_frame p today f),
       log_search_results today term place p
         (Z.of_nat (List.length (sf_rows f))) (elapsed p) hist)
  | None => (acc, hist)
  end.
Proof.
  unfold search_step, platform_answer.
  destruct (search_platform scrape_jobs criteria settings p)
    as [[[[f term] place] |] | e]; reflexivity.
Qed.

(** A platform that contributes was called with the first job title and
    the first location of the configuration, and gave rows. *)
Lemma platform_answer_some (p : string) (f : ScrapedFrame)
  (term place : string) :
  platform_answer scrape_jobs criteria settings p = Some (f, term, place) ->
  sf_rows f <> [] /\
  (exists titles, job_titles settings = Some (term :: titles)) /\
  (exists places, locations criteria = place :: places) /\
  exists wanted,
    max_results_per_platform settings = Some wanted /\
    scrape_jobs p term place wanted
      (match hours_old settings with Some h => h | None => 168 end)
    = Ok (Some f).
Proof.
  unfold platform_answer, search_platform.
  destruct (job_titles settings) as [[| t titles] |];
    cbn [getitem first_item bind]; try discriminate.
  destruct (locations criteria) as [| pl places];
    cbn [first_item bind]; try discriminate.
  destruct (max_results_per_platform settings) as [wanted |];
    cbn [getitem bind]; try discriminate.
  destruct (scrape_jobs p t pl wanted _) as [[g |] | e] eqn:E;
    cbn [bind]; try discriminate.
  destruct (sf_rows g) as [| x l] eqn:Er; try discriminate.
  intros H. injection H as <- <- <-.
  split; [rewrite Er; discriminate |].
  split; [now exists titles |]. split; [now exists places |].
  exists wanted. split; [reflexivity | exact E].
Qed.

Lemma search_fold (ps : list string) (acc : ScrapedFrame)
  (hist : SearchHistory) :
  (forall j, In j (sf_rows acc) -> fill_missing acc j = j) ->
  let out :=
    fold_left (search_step scrape_jobs elapsed criteria settings today) ps
      (acc, hist) in
  sf_rows (fst out)
  = (sf_rows acc
     ++ flat_map (platform_rows scrape_jobs criteria settings today) ps)%list /\
  (forall j, In j (sf_rows (fst out)) -> fill_missing (fst out) j = j) /\
  exists new,
    search_runs (snd out) = (search_runs hist ++ new)%list /\
    search_sequence (snd out)
    = search_sequence hist + Z.of_nat (List.length new) /\
    map run_id new
    = map (fun k => search_sequence hist + Z.of_nat k)
        (seq 1 (List.length new)) /\
    (List.length new <= List.length ps)%nat /\
    Forall (fun r =>
              In (platform r) ps /\ search_date r = today /\
              run_new_jobs r = None /\ 0 < results_count r /\
              (exists titles,
                 job_titles settings = Some (search_term r :: titles)) /\
              (exists places,
                 locations criteria = run_location r :: places)) new /\
    sum_counts new
    = Z.of_nat
        (List.length
           (flat_map (platform_rows scrape_jobs criteria settings today) ps)).
Proof.
  revert acc hist. induction ps as [| p ps IH]; intros acc hist Hn.
  - cbn [fold_left fst snd flat_map]. rewrite app_nil_r.
    split; [reflexivity | split; [exact Hn |]].
    exists []. cbn [List.length seq map sum_counts fold_right].
    rewrite app_nil_r.
    repeat split; try reflexivity; try lia. constructor.
  - cbn [fold_left]. rewrite search_step_value.
    cbn [flat_map]. unfold platform_rows at 1 3.
    destruct (platform_answer scrape_jobs criteria settings p)
      as [[[f term] place] |] eqn:E.
    + destruct (platform_answer_some p f term place E)
        as [Hrows [Htitles [Hplaces _]]].
      set (acc1 := concat_frames acc (annotate_frame p today f)).
      set (hist1 := log_search_results today term place p
                      (Z.of_nat (List.length (sf_rows f))) (elapsed p) hist).
      destruct (concat_rows acc (annotate_frame p today f) Hn)
        as [Hacc1 Hn1].
      fold acc1 in Hacc1, Hn1.
      destruct (IH acc1 hist1 Hn1)
        as [Hr [Hnorm [new [H1 [H2 [H3 [H4 [H5 H6]]]]]]]].
      assert (Hp : map (fill_missing (annotate_frame p today f))
                     (sf_rows (annotate_frame p today f))
                   = map (fun j => fill_missing f (annotate p today j))
                       (sf_rows f)).
      { cbn [annotate_frame sf_rows]. rewrite map_map. reflexivity. }
      split; [| split; [exact Hnorm |]].
      * rewrite Hr, Hacc1, Hp. now rewrite <- app_assoc.
      * exists ({| run_id := search_sequence hist + 1;
                   search_date := today;
                   platform := p;
                   search_term := term;
                   run_location := place;
                   results_count := Z.of_nat (List.length (sf_rows f));
                   run_new_jobs := None;
                   run_execution_time := elapsed p |} :: new).
        split; [| split; [| split; [| split; [| split]]]].
        -- rewrite H1. unfold hist1.
           cbn [log_search_results search_runs].
           now rewrite <- app_assoc.
        -- rewrite H2. unfold hist1.
           cbn [log_search_results search_sequence List.length]. lia.
        -- cbn [List.length seq map run_id].
           apply (f_equal2 (@cons Z)); [lia |].
           rewrite H3. unfold hist1.
           cbn [log_search_results search_sequence].
           rewrite <- (seq_shift (List.length new) 1), map_map.
           apply map_ext. intros k. lia.
        -- cbn [List.length]. lia.
        -- constructor.
           ++ cbn [platform search_date run_new_jobs results_count
                   search_term run_location].
              split; [now left |]. split; [reflexivity |].
              split; [reflexivity |].
              split; [| split; assumption].
              destruct (sf_rows f); [contradiction | cbn [List.length]; lia].
           ++ eapply Forall_impl; [| exact H5].
              intros r [Hr1 Hr2]. split; [now right | exact Hr2].
        -- cbn [sum_counts fold_right results_count].
           fold (sum_counts new). rewrite H6.
           rewrite length_app, length_map. lia.
    + destruct (IH acc hist Hn)
        as [Hr [Hnorm [new [H1 [H2 [H3 [H4 [H5 H6]]]]]]]].
      cbn [app].
      split; [exact Hr | split; [exact Hnorm |]].
      exists new.
      split; [exact H1 | split; [exact H2 | split; [exact H3 |]]].
      split; [cbn [List.length]; lia |].
      split; [| exact H6].
      eapply Forall_impl; [| exact H5].
      intros r [Hr1 Hr2]. split; [now right | exact Hr2].
Qed.

Lemma search_loop_facts (history : SearchHistory) :
  let out := search_loop scrape_jobs elapsed criteria settings today history in
  sf_rows (fst out)
  = flat_map (platform_rows scrape_jobs criteria settings today) platforms /\
  exists new,
    search_runs (snd out) = (search_runs history ++ new)%list /\
    search_sequence (snd out)
    = search_sequence history + Z.of_nat (List.length new) /\
    map run_id new
    = map (fun k => search_sequence history + Z.of_nat k)
        (seq 1 (List.length new)) /\
    (List.length new <= 3)%nat /\
    Forall (fun r =>
              In (platform r) platforms /\ search_date r = today /\
              run_new_jobs r = None /\ 0 < results_count r /\
              (exists titles,
                 job_titles settings = Some (search_term r :: titles)) /\
              (exists places,
                 locations criteria = run_location r :: places)) new /\
    sum_counts new = Z.of_nat (List.length (sf_rows (fst out))).
Proof.
  intros out.
  assert (Hn : forall j, In j (sf_rows empty_frame) ->
                 fill_missing empty_frame j = j) by (intros j []).
  destruct (search_fold platforms empty_frame history Hn)
    as [Hr [_ [new [H1 [H2 [H3 [H4 [H5 H6]]]]]]]].
  fold (search_loop scrape_jobs elapsed criteria settings today history)
    in Hr, H1, H2.
  fold out in Hr, H1, H2.
  split; [exact Hr |].
  exists new. rewrite Hr.
  repeat (split; [assumption |]). exact H6.
Qed.

Lemma search_value (history : SearchHistory) :
  search_jobs_multi_platform scrape_jobs elapsed criteria settings today
    history
  = (clean_job_data
       (fst (search_loop scrape_jobs elapsed criteria settings today
               history)),
     snd (search_loop scrape_jobs elapsed criteria settings today history)).
Proof.
  unfold search_jobs_multi_platform.
  now destruct (search_loop scrape_jobs elapsed criteria settings today
                  history).
Qed.

Lemma drop_duplicates_from_length (seen l : list ScrapedJob) :
  (List.length (drop_duplicates_from seen l) <= List.length l)%nat.
Proof.
  revert seen. induction l as [| y l IH]; intros seen; [apply Nat.le_refl |].
  cbn [drop_duplicates_from].
  destruct (existsb (same_key y) seen); cbn [List.length].
  - apply Nat.le_trans with (List.length l); [apply IH | lia].
  - apply le_n_S, IH.
Qed.

(** The cleaned frame is no longer than the frame cleaned. *)
Lemma clean_job_data_length (jobs_df : ScrapedFrame) :
  (List.length (sf_rows (clean_job_data jobs_df))
   <= List.length (sf_rows jobs_df))%nat.
Proof.
  destruct (sf_rows jobs_df) as [| x l] eqn:E.
  - unfold clean_job_data. rewrite E. cbv iota. rewrite E. apply Nat.le_refl.
  - assert (Hne : sf_rows jobs_df <> []) by (rewrite E; discriminate).
    rewrite (clean_job_data_value jobs_df Hne). cbn [sf_rows].
    eapply Nat.le_trans; [apply List.filter_length_le |].
    rewrite length_map, <- E. apply drop_duplicates_from_length.
Qed.

End SearchFacts.

(** X19: a platform whose call raises, returns nothing or returns an
    empty frame is skipped and the loop goes on: the rows collected are
    the rows of the platforms that gave rows, in the order linkedin,
    indeed, glassdoor, and every row of the frame returned carries the
    name of one of the three platforms and the date of the search. *)
Theorem search_skips_failed_platforms
  (scrape_jobs :
     string -> string -> string -> Z -> Z -> result (option ScrapedFrame))
  (elapsed : string -> Q) (criteria : Criteria) (settings : SearchSettings)
  (today : Z) (history : SearchHistory) :
  let collected :=
    fst (search_loop scrape_jobs elapsed criteria settings today history) in
  let out :=
    fst (search_jobs_multi_platform scrape_jobs elapsed criteria settings
           today history) in
  sf_rows collected
  = flat_map (platform_rows scrape_jobs criteria settings today) platforms /\
  out = clean_job_data collected /\
  Forall (fun j =>
            exists p,
              In p platforms /\ sc_source_platform j = Str p /\
              sc_search_date j = Some today) (sf_rows out).
Proof.
  intros collected out.
  destruct (search_loop_facts scrape_jobs elapsed criteria settings today
              history) as [Hrows _].
  fold collected in Hrows.
  assert (Hout : out = clean_job_data collected).
  { unfold out, collected. now rewrite search_value. }
  split; [exact Hrows | split; [exact Hout |]].
  rewrite Hout. apply Forall_forall. intros j Hj.
  destruct (clean_rows_facts collected) as [_ [_ [Hfrom _]]].
  destruct (Hfrom j Hj) as [j0 [Hj0 ->]].
  destruct (cleaned_row_tags (sf_has_salary collected)
              (sf_has_location collected) j0) as [-> ->].
  rewrite Hrows in Hj0. apply in_flat_map in Hj0.
  destruct Hj0 as [p [Hp Hj0]]. exists p. split; [exact Hp |].
  unfold platform_rows in Hj0.
  destruct (platform_answer scrape_jobs criteria settings p)
    as [[[f term] place] |]; [| destruct Hj0].
  apply in_map_iff in Hj0. destruct Hj0 as [x [<- _]].
  split; reflexivity.
Qed.

(** X20: the search logs one run for each platform that gave rows and
    for no other: at most three runs are appended to the history, under
    consecutive ids, each with the date of the search, a positive number
    of results, the first job title and the first location of the
    configuration, and no number of new jobs; the runs already logged
    stay, and the frame returned has no more rows than the runs logged
    report together. *)
Theorem search_history_accounts_for_rows
  (scrape_jobs :
     string -> string -> string -> Z -> Z -> result (option ScrapedFrame))
  (elapsed : string -> Q) (criteria : Criteria) (settings : SearchSettings)
  (today : Z) (history : SearchHistory) :
  let out :=
    search_jobs_multi_platform scrape_jobs elapsed criteria settings today
      history in
  exists new,
    search_runs (snd out) = (search_runs history ++ new)%list /\
    search_sequence (snd out)
    = search_sequence history + Z.of_nat (List.length new) /\
    map run_id new
    = map (fun k => search_sequence history + Z.of_nat k)
        (seq 1 (List.length new)) /\
    (List.length new <= 3)%nat /\
    Forall (fun r =>
              In (platform r) platforms /\ search_date r = today /\
              run_new_jobs r = None /\ 0 < results_count r /\
              (exists titles,
                 job_titles settings = Some (search_term r :: titles)) /\
              (exists places,
                 locations criteria = run_location r :: places)) new /\
    Z.of_nat (List.length (sf_rows (fst out))) <= sum_counts new.
Proof.
  intros out. unfold out. rewrite search_value. cbn [fst snd].
  destruct (search_loop_facts scrape_jobs elapsed criteria settings today
              history) as [_ [new [H1 [H2 [H3 [H4 [H5 H6]]]]]]].
  exists new.
  repeat (split; [assumption |]).
  rewrite H6. apply inj_le, clean_job_data_length.
Qed.

(** ** The first occurrence of a title and company *)

Lemma drop_duplicates_from_first (seen l1 : list ScrapedJob)
  (x : ScrapedJob) (l2 : list ScrapedJob) :
  existsb (same_key x) seen = false ->
  (forall y, In y l1 -> same_key y x = false) ->
  In x (drop_duplicates_from seen (l1 ++ x :: l2)).
Proof.
  revert seen. induction l1 as [| y l1 IH]; intros seen Hseen Hl1.
  - cbn [app drop_duplicates_from]. rewrite Hseen. now left.
  - cbn [app drop_duplicates_from].
    assert (Hy : same_key y x = false) by (apply Hl1; now left).
    assert (Hrest : forall z, In z l1 -> same_key z x = false)
      by (intros z Hz; apply Hl1; now right).
    destruct (existsb (same_key y) seen).
    + now apply IH.
    + right. apply IH; [| exact Hrest].
      cbn [existsb]. now rewrite same_key_sym, Hy, Hseen.
Qed.

Lemma distinct_keys_unique (l : list ScrapedJob) (a b : ScrapedJob) :
  ForallOrdPairs (fun x y => same_key x y = false) l ->
  In a l -> In b l -> same_key a b = true -> a = b.
Proof.
  induction 1 as [| x l Hx Hl IH]; intros Ha Hb Hk; [destruct Ha |].
  rewrite Forall_forall in Hx.
  destruct Ha as [<- | Ha], Hb as [<- | Hb].
  - reflexivity.
  - rewrite (Hx b Hb) in Hk. discriminate Hk.
  - rewrite same_key_sym, (Hx a Ha) in Hk. discriminate Hk.
  - now apply IH.
Qed.

(** X21: of the rows with one title and company the first is kept.  When
    no row before a row with title and company has the same title and
    company, the cleaned frame holds the cleaned form of that row, and
    it is the only row of the cleaned frame with that title and
    company. *)
Theorem first_occurrence_is_kept (jobs_df : ScrapedFrame)
  (l1 : list ScrapedJob) (x : ScrapedJob) (l2 : list ScrapedJob) :
  sf_rows jobs_df = (l1 ++ x :: l2)%list ->
  has_essentials x = true ->
  (forall y, In y l1 -> same_key y x = false) ->
  let kept :=
    cleaned_row (sf_has_salary jobs_df) (sf_has_location jobs_df) x in
  In kept (sf_rows (clean_job_data jobs_df)) /\
  forall j, In j (sf_rows (clean_job_data jobs_df)) ->
    same_key j x = true -> j = kept.
Proof.
  intros Hrows Hess Hfirst kept.
  assert (Hne : sf_rows jobs_df <> [])
    by (rewrite Hrows; destruct l1; discriminate).
  assert (Hin : In kept (sf_rows (clean_job_data jobs_df))).
  { rewrite (clean_job_data_rows jobs_df Hne).
    apply filter_In. split.
    - apply in_map. unfold drop_duplicates. rewrite Hrows.
      now apply drop_duplicates_from_first.
    - unfold kept. now rewrite cleaned_row_essentials. }
  split; [exact Hin |].
  intros j Hj Hk.
  destruct (clean_rows_facts jobs_df) as [_ [Hpairs _]].
  apply (distinct_keys_unique (sf_rows (clean_job_data jobs_df)) j kept
           Hpairs Hj Hin).
  unfold kept. rewrite same_key_sym, cleaned_row_key_left.
  now rewrite same_key_sym.
Qed.

Lemma first_occurrence_is_kept_witness :
  let x := scraped_row (Str "Business Analyst") (Str "Globex")
             (Str "REMOTE (Poland)") (Str " 12,000 PLN ") in
  let kept := cleaned_row true true x in
  In kept (sf_rows (clean_job_data scraped_sample)) /\
  forall j, In j (sf_rows (clean_job_data scraped_sample)) ->
    same_key j x = true -> j = kept.
Proof.
  exact (first_occurrence_is_kept scraped_sample []
           (scraped_row (Str "Business Analyst") (Str "Globex")
              (Str "REMOTE (Poland)") (Str " 12,000 PLN "))
           [ scraped_row (Str "Business Analyst") (Str "Globex")
               (Str "Warsaw") NaN;
             scraped_row (Str "Product Manager") NaN
               (Str "Krakow") (Str "9,500 PLN");
             scraped_row (Str "Product Manager") (Str "Initech")
               (Str "fully remote") PyNone ]
           eq_refl eq_refl (fun y (H : In y []) => match H with end)).
Defined.

(** ** The daily routine *)

Lemma as_data_frame_length (f : ScrapedFrame) :
  (List.length (rows (as_data_frame f)) <= List.length (sf_rows f))%nat.
Proof.
  cbn [as_data_frame rows].
  induction (sf_rows f) as [| j l IH]; [apply Nat.le_refl |].
  cbn [flat_map]. rewrite length_app.
  destruct (raw_of_scraped (sf_has_salary f) j); cbn [List.length]; lia.
Qed.

(** Read as the frame of [filter_jobs], a cleaned frame keeps all its
    rows. *)
Lemma as_data_frame_of_cleaned (jobs_df : ScrapedFrame) :
  List.length (rows (as_data_frame (clean_job_data jobs_df)))
  = List.length (sf_rows (clean_job_data jobs_df)).
Proof.
  destruct (clean_rows_facts jobs_df) as [Hess _].
  cbn [as_data_frame rows].
  induction Hess as [| j l [t [c [Ht Hc]]] _ IH]; [reflexivity |].
  cbn [flat_map]. rewrite length_app, IH.
  unfold raw_of_scraped. now rewrite Ht, Hc.
Qed.

Section DailyFacts.

Variable scrape_jobs :
  string -> string -> string -> Z -> Z -> result (option ScrapedFrame).
Variable elapsed : string -> Q.
Variable tfidf_cosine : string -> string -> result Q.
Variable fl : Q -> Q.
Variable cv_request : option string -> string -> result string.
Variable cover_letter_request : App.t -> result string.
Variable config : Config.
Variable settings : SearchSettings.
Variable today now : Z.
Variable total_time : Q.

(** [run_daily_search] in terms of the steps it calls. *)
Lemma run_daily_search_value (db : Database) (history : SearchHistory) :
  let found :=
    search_jobs_multi_platform scrape_jobs elapsed (search_criteria config)
      settings today history in
  exists filtered,
    filter_jobs tfidf_cosine fl config (as_data_frame (fst found))
    = Ok filtered /\
    run_daily_search scrape_jobs elapsed tfidf_cosine fl cv_request
      cover_letter_request config settings today now total_time db history
    = (process_high_priority_jobs cv_request cover_letter_request
         (fst (save_jobs_to_database today now filtered db)),
       snd found,
       Some {| total_jobs := Z.of_nat (List.length (sf_rows (fst found)));
               filtered_jobs := Z.of_nat (List.length (rows filtered));
               new_jobs :=
                 snd (save_jobs_to_database today now filtered db);
               execution_time := total_time |}).
Proof.
  intros found. unfold run_daily_search. fold found.
  destruct found as [all_jobs history']. cbn [fst snd].
  cbn [search_polish_job_sites empty_frame sf_rows].
  rewrite filter_jobs_value. eexists. split; [reflexivity |].
  now destruct (save_jobs_to_database today now _ db).
Qed.

End DailyFacts.

Lemma filter_jobs_length
  (tfidf_cosine : string -> string -> result Q) (fl : Q -> Q)
  (config : Config) (jobs_df : DataFrame RawJob)
  (out : DataFrame ScoredJob) :
  filter_jobs tfidf_cosine fl config jobs_df = Ok out ->
  (List.length (rows out) <= List.length (rows jobs_df))%nat.
Proof.
  rewrite filter_jobs_value. intros H. injection H as <-.
  cbn [rows with_rows]. unfold sort_values_match_score_desc.
  rewrite <- (Permutation_length (stable_sort_perm ScoredJob _ _)).
  eapply Nat.le_trans; [apply List.filter_length_le |].
  rewrite length_map.
  apply Nat.le_trans
    with (List.length (location_rows (search_criteria config) jobs_df)).
  - unfold blacklist_rows.
    destruct (blacklisted_companies (search_criteria config));
      [apply List.filter_length_le | apply Nat.le_refl].
  - unfold location_rows.
    destruct (has_location jobs_df);
      [apply List.filter_length_le | apply Nat.le_refl].
Qed.

(** The value returned by the save step and the growth of the table. *)
Lemma save_count_range (today now : Z) (jobs_df : DataFrame ScoredJob)
  (db : Database) :
  let r := save_jobs_to_database today now jobs_df db in
  (snd r = None <-> rows jobs_df = []) /\
  (List.length (applications db)
   <= List.length (applications (fst r)))%nat /\
  (forall n, snd r = Some n ->
     Z.of_nat (List.length (applications (fst r)))
     - Z.of_nat (List.length (applications db)) <= n /\
     0 <= n <= Z.of_nat (List.length (rows jobs_df))).
Proof.
  intros r. unfold r.
  destruct (rows jobs_df) as [| x l] eqn:E.
  - unfold save_jobs_to_database. rewrite E. cbn [fst snd].
    split; [split; reflexivity |].
    split; [apply Nat.le_refl | intros n H; discriminate H].
  - assert (Hne : rows jobs_df <> []) by (rewrite E; discriminate).
    rewrite (save_count today now jobs_df db Hne), save_conn.
    set (hl := has_location jobs_df). set (hd := has_description jobs_df).
    set (st0 := {| conn := db; total_changes := 0; new_jobs_count := 0 |}).
    destruct (loop_appends today now hl hd (rows jobs_df) st0)
      as [added [Happ [_ [_ [_ Htot]]]]].
    assert (H0 : counters_agree st0) by (unfold counters_agree; simpl; lia).
    destruct (loop_counters today now hl hd (rows jobs_df) st0 H0)
      as [[[Hnn Hle] _] Hcount].
    cbn [conn total_changes new_jobs_count st0] in *.
    rewrite Happ, length_app.
    split; [split; discriminate |].
    split; [lia |].
    intros n Hn. injection Hn as <-. rewrite <- E. lia.
Qed.

(** X22: for criteria whose entries are plain, so that the filter does
    not raise, the daily routine returns a summary in which the filtered
    jobs are at most the jobs found, the number of new jobs is missing
    exactly when no job passed the filter and is otherwise between the
    growth of the table and the number of filtered jobs; the search
    history is the one left by the search, and a consistent store stays
    consistent and loses no row. *)
Theorem daily_search_summary
  (scrape_jobs :
     string -> string -> string -> Z -> Z -> result (option ScrapedFrame))
  (elapsed : string -> Q)
  (tfidf_cosine : string -> string -> result Q) (fl : Q -> Q)
  (cv_request : option string -> string -> result string)
  (cover_letter_request : App.t -> result string)
  (config : Config) (settings : SearchSettings) (today now : Z)
  (total_time : Q) (db : Database) (history : SearchHistory) :
  plain_criteria (search_criteria config) = true ->
  db_wf db ->
  let found :=
    search_jobs_multi_platform scrape_jobs elapsed (search_criteria config)
      settings today history in
  let out :=
    run_daily_search scrape_jobs elapsed tfidf_cosine fl cv_request
      cover_letter_request config settings today now total_time db history in
  let db' := fst (fst out) in
  exists s,
    snd out = Some s /\
    snd (fst out) = snd found /\
    total_jobs s = Z.of_nat (List.length (sf_rows (fst found))) /\
    0 <= filtered_jobs s <= total_jobs s /\
    (new_jobs s = None <-> filtered_jobs s = 0) /\
    (forall n, new_jobs s = Some n ->
       Z.of_nat (List.length (applications db'))
       - Z.of_nat (List.length (applications db)) <= n /\
       0 <= n <= filtered_jobs s) /\
    db_wf db' /\
    (List.length (applications db) <= List.length (applications db'))%nat.
Proof.
  intros _ Hwf found out db'.
  destruct (run_daily_search_value scrape_jobs elapsed tfidf_cosine fl
              cv_request cover_letter_request config settings today now
              total_time db history) as [filtered [Hf Hout]].
  fold found in Hf, Hout. fold out in Hout.
  pose proof (filter_jobs_length tfidf_cosine fl config _ filtered Hf)
    as Hlen.
  pose proof (as_data_frame_length (fst found)) as Hraw.
  destruct (save_count_range today now filtered db) as [Hnone [Hgrow Hn]].
  set (db1 := fst (save_jobs_to_database today now filtered db)) in *.
  assert (Hwf1 : db_wf db1) by (apply save_wf; exact Hwf).
  assert (Hdb' : db' = process_high_priority_jobs cv_request
                         cover_letter_request db1)
    by (unfold db'; now rewrite Hout).
  assert (Hsame : List.length (applications db')
                  = List.length (applications db1)).
  { rewrite Hdb', (process_rows cv_request cover_letter_request db1 Hwf1).
    cbn [applications]. apply length_map. }
  eexists. split; [rewrite Hout; reflexivity |].
  cbn [total_jobs filtered_jobs new_jobs].
  split; [now rewrite Hout |].
  split; [reflexivity |].
  split; [lia |].
  split.
  - rewrite Hnone. split; intros H.
    + now rewrite H.
    + destruct (rows filtered); [reflexivity | discriminate H].
  - split; [| split].
    + intros n H. rewrite Hsame. apply (Hn n H).
    + rewrite Hdb'. now apply process_wf.
    + now rewrite Hsame.
Qed.

Lemma daily_search_summary_witness :
  plain_criteria (search_criteria config_example) = true /\
  db_wf empty_db /\
  exists s,
    snd (run_daily_search sample_scraper sample_elapsed
           (tfidf_constant (13 # 20)) fl_exact cv_request_ok
           cover_letter_request_ok config_example sample_settings 20 1000
           (7 # 2) empty_db empty_history) = Some s /\
    total_jobs s = 2 /\ filtered_jobs s = 2 /\ new_jobs s = Some 2.
Proof.
  split; [reflexivity | split; [exact empty_db_wf |]].
  destruct (daily_search_summary sample_scraper sample_elapsed
              (tfidf_constant (13 # 20)) fl_exact cv_request_ok
              cover_letter_request_ok config_example sample_settings 20 1000
              (7 # 2) empty_db empty_history eq_refl empty_db_wf)
    as [s [Hs _]].
  exists s. split; [exact Hs |].
  vm_compute in Hs. injection Hs as <-.
  split; [reflexivity | split; reflexivity].
Defined.

(** X23: with [blacklisted_companies] set to the empty list, the value
    of the default configuration, and plain entries in the list of
    locations, the daily routine searches and logs as usual but stores
    nothing: whatever the platforms return, the summary reports no
    filtered job and no number of new jobs, and the store is the one left
    by the high-priority pass on the store as it was. *)
Theorem daily_search_with_empty_blacklist
  (scrape_jobs :
     string -> string -> string -> Z -> Z -> result (option ScrapedFrame))
  (elapsed : string -> Q)
  (tfidf_cosine : string -> string -> result Q) (fl : Q -> Q)
  (cv_request : option string -> string -> result string)
  (cover_letter_request : App.t -> result string)
  (config : Config) (settings : SearchSettings) (today now : Z)
  (total_time : Q) (db : Database) (history : SearchHistory) :
  plain_criteria (search_criteria config) = true ->
  blacklisted_companies (search_criteria config) = Some [] ->
  let found :=
    search_jobs_multi_platform scrape_jobs elapsed (search_criteria config)
      settings today history in
  run_daily_search scrape_jobs elapsed tfidf_cosine fl cv_request
    cover_letter_request config settings today now total_time db history
  = (process_high_priority_jobs cv_request cover_letter_request db,
     snd found,
     Some {| total_jobs := Z.of_nat (List.length (sf_rows (fst found)));
             filtered_jobs := 0;
             new_jobs := None;
             execution_time := total_time |}).
Proof.
  intros _ Hb found.
  destruct (run_daily_search_value scrape_jobs elapsed tfidf_cosine fl
              cv_request cover_letter_request config settings today now
              total_time db history) as [filtered [Hf Hout]].
  fold found in Hf, Hout.
  rewrite (empty_blacklist_drops_every_job tfidf_cosine fl config _ Hb)
    in Hf.
  injection Hf as <-. exact Hout.
Qed.

Lemma daily_search_with_empty_blacklist_witness :
  plain_criteria (search_criteria default_config) = true /\
  blacklisted_companies (search_criteria default_config) = Some [] /\
  run_daily_search sample_scraper sample_elapsed (tfidf_constant (13 # 20))
    fl_exact cv_request_ok cover_letter_request_ok default_config
    sample_settings 20 1000 (7 # 2) empty_db empty_history
  = (empty_db,
     snd (search_jobs_multi_platform sample_scraper sample_elapsed
            (search_criteria default_config) sample_settings 20
            empty_history),
     Some {| total_jobs := 2;
             filtered_jobs := 0;
             new_jobs := None;
             execution_time := 7 # 2 |}).
Proof.
  split; [reflexivity | split; [reflexivity |]].
  exact (daily_search_with_empty_blacklist sample_scraper sample_elapsed
           (tfidf_constant (13 # 20)) fl_exact cv_request_ok
           cover_letter_request_ok default_config sample_settings 20 1000
           (7 # 2) empty_db empty_history eq_refl eq_refl).
Defined.

(** ** A configuration without search term or location *)

Lemma platform_answer_none
  (scrape_jobs :
     string -> string -> string -> Z -> Z -> result (option ScrapedFrame))
  (criteria : Criteria) (settings : SearchSettings) (p : string) :
  job_titles settings = None \/ job_titles settings = Some [] \/
  locations criteria = [] \/ max_results_per_platform settings = None ->
  platform_answer scrape_jobs criteria settings p = None.
Proof.
  intros H. unfold platform_answer, search_platform.
  destruct (job_titles settings) as [[| t titles] |];
    cbn [getitem first_item bind]; try reflexivity.
  destruct (locations criteria) as [| pl places];
    cbn [first_item bind]; try reflexivity.
  destruct (max_results_per_platform settings) as [wanted |];
    cbn [getitem bind]; try reflexivity.
  destruct H as [H | [H | [H | H]]]; discriminate H.
Qed.

Lemma search_step_none
  (scrape_jobs :
     string -> string -> string -> Z -> Z -> result (option ScrapedFrame))
  (elapsed : string -> Q) (criteria : Criteria) (settings : SearchSettings)
  (today : Z) (state : ScrapedFrame * SearchHistory) (p : string) :
  job_titles settings = None \/ job_titles settings = Some [] \/
  locations criteria = [] \/ max_results_per_platform settings = None ->
  search_step scrape_jobs elapsed criteria settings today state p = state.
Proof.
  intros H. destruct state as [acc hist].
  rewrite search_step_value.
  now rewrite (platform_answer_none scrape_jobs criteria settings p H).
Qed.

(** X24: when the configuration has no job title, no location or no
    number of results, the lookup fails inside the [try] of every
    platform: no platform is called, nothing is logged, the search
    returns the empty frame, and the daily routine still returns a
    summary, of 0 jobs found, 0 filtered and no number of new jobs,
    after the high-priority pass on the store as it was. *)
Theorem search_without_settings
  (scrape_jobs :
     string -> string -> string -> Z -> Z -> result (option ScrapedFrame))
  (elapsed : string -> Q)
  (tfidf_cosine : string -> string -> result Q) (fl : Q -> Q)
  (cv_request : option string -> string -> result string)
  (cover_letter_request : App.t -> result string)
  (config : Config) (settings : SearchSettings) (today now : Z)
  (total_time : Q) (db : Database) (history : SearchHistory) :
  job_titles settings = None \/ job_titles settings = Some [] \/
  locations (search_criteria config) = [] \/
  max_results_per_platform settings = None ->
  search_jobs_multi_platform scrape_jobs elapsed (search_criteria config)
    settings today history
  = (empty_frame, history) /\
  run_daily_search scrape_jobs elapsed tfidf_cosine fl cv_request
    cover_letter_request config settings today now total_time db history
  = (process_high_priority_jobs cv_request cover_letter_request db,
     history,
     Some {| total_jobs := 0;
             filtered_jobs := 0;
             new_jobs := None;
             execution_time := total_time |}).
Proof.
  intros H.
  assert (Hs : search_jobs_multi_platform scrape_jobs elapsed
                 (search_criteria config) settings today history
               = (empty_frame, history)).
  { rewrite search_value. unfold search_loop, platforms.
    cbn [fold_left].
    rewrite !(search_step_none scrape_jobs elapsed (search_criteria config)
                settings today _ _ H).
    reflexivity. }
  split; [exact Hs |].
  destruct (run_daily_search_value scrape_jobs elapsed tfidf_cosine fl
              cv_request cover_letter_request config settings today now
              total_time db history) as [filtered [Hf Hout]].
  rewrite Hs in Hf, Hout. cbn [fst snd] in Hf, Hout.
  unfold filter_jobs in Hf.
  cbn [as_data_frame empty_frame sf_rows flat_map rows] in Hf.
  injection Hf as <-. exact Hout.
Qed.

Lemma search_without_settings_witness :
  (job_titles settings_without_titles = None \/
   job_titles settings_without_titles = Some [] \/
   locations (search_criteria config_example) = [] \/
   max_results_per_platform settings_without_titles = None) /\
  search_jobs_multi_platform sample_scraper sample_elapsed
    (search_criteria config_example) settings_without_titles 20
    empty_history
  = (empty_frame, empty_history) /\
  run_daily_search sample_scraper sample_elapsed (tfidf_constant (13 # 20))
    fl_exact cv_request_ok cover_letter_request_ok config_example
    settings_without_titles 20 1000 (7 # 2) empty_db empty_history
  = (process_high_priority_jobs cv_request_ok cover_letter_request_ok
       empty_db,
     empty_history,
     Some {| total_jobs := 0;
             filtered_jobs := 0;
             new_jobs := None;
             execution_time := 7 # 2 |}).
Proof.
  split; [right; left; reflexivity |].
  exact (search_without_settings sample_scraper sample_elapsed
           (tfidf_constant (13 # 20)) fl_exact cv_request_ok
           cover_letter_request_ok config_example settings_without_titles
           20 1000 (7 # 2) empty_db empty_history
           (or_intror (or_introl eq_refl))).
Defined.

(** ** Performance report *)

Section Groups.

Variable A : Type.
Variable key : A -> string.

Lemma sum_column_cons (B : Type) (f : B -> Z) (k : B) (ks : list B) :
  sum_column f (k :: ks) = f k + sum_column f ks.
Proof. reflexivity. Qed.

Lemma sum_column_map (B C : Type) (f : C -> Z) (h : B -> C) (ks : list B) :
  sum_column f (map h ks) = sum_column (fun k => f (h k)) ks.
Proof.
  induction ks as [| k ks IH]; [reflexivity |].
  cbn [map]. now rewrite !sum_column_cons, IH.
Qed.

Lemma sum_column_split (f g : string -> Z) (ks : list string) :
  sum_column (fun k => f k + g k) ks = sum_column f ks + sum_column g ks.
Proof.
  induction ks as [| k ks IH]; [reflexivity |].
  rewrite !sum_column_cons, IH. lia.
Qed.

Lemma sum_column_ext (f g : string -> Z) (ks : list string) :
  (forall k, f k = g k) -> sum_column f ks = sum_column g ks.
Proof.
  intros H. induction ks as [| k ks IH]; [reflexivity |].
  now rewrite !sum_column_cons, H, IH.
Qed.

(** A key is counted once in a list of distinct keys that has it. *)
Lemma sum_column_one (a : string) (ks : list string) :
  NoDup ks -> In a ks ->
  sum_column (fun k => if String.eqb a k then 1 else 0) ks = 1.
Proof.
  induction 1 as [| k ks Hk Hnd IH]; intros Ha; [destruct Ha |].
  rewrite sum_column_cons.
  destruct (String.eqb_spec a k) as [-> | Hne].
  - assert (Hz : sum_column (fun k0 => if String.eqb k k0 then 1 else 0) ks
                 = 0).
    { clear IH Hnd Ha. induction ks as [| k' ks IH]; [reflexivity |].
      rewrite sum_column_cons.
      destruct (String.eqb_spec k k') as [-> | _].
      - exfalso. apply Hk. now left.
      - rewrite IH; [reflexivity |]. intros H. apply Hk. now right. }
    rewrite Hz. reflexivity.
  - destruct Ha as [-> | Ha]; [contradiction |].
    now rewrite (IH Ha).
Qed.

Lemma group_of_cons (k : string) (x : A) (l : list A) :
  Z.of_nat (List.length (group_of key k (x :: l)))
  = (if String.eqb (key x) k then 1 else 0)
    + Z.of_nat (List.length (group_of key k l)).
Proof.
  unfold group_of. cbn [filter].
  destruct (String.eqb (key x) k); cbn [List.length]; lia.
Qed.

(** The groups of a list of distinct keys that has every key of the rows
    share out the rows. *)
Lemma group_sizes_sum (ks : list string) (l : list A) :
  NoDup ks -> (forall x, In x l -> In (key x) ks) ->
  sum_column (fun k => Z.of_nat (List.length (group_of key k l))) ks
  = Z.of_nat (List.length l).
Proof.
  intros Hnd. induction l as [| x l IH]; intros Hin.
  - cbn [List.length]. clear Hnd Hin.
    induction ks as [| k ks IH]; [reflexivity |].
    rewrite sum_column_cons, IH. reflexivity.
  - rewrite (sum_column_ext _ _ ks (fun k => group_of_cons k x l)).
    rewrite sum_column_split.
    rewrite (sum_column_one (key x) ks Hnd (Hin x (or_introl eq_refl))).
    rewrite IH; [cbn [List.length]; lia |].
    intros y Hy. apply Hin. now right.
Qed.

Lemma group_keys_facts (l : list A) :
  NoDup (group_keys key l) /\
  (forall x, In x l -> In (key x) (group_keys key l)) /\
  (forall k, In k (group_keys key l) <->
             (0 < List.length (group_of key k l))%nat).
Proof.
  unfold group_keys. split; [apply NoDup_nodup |]. split.
  - intros x Hx. apply nodup_In. now apply in_map.
  - intros k. rewrite nodup_In, in_map_iff. unfold group_of. split.
    + intros [x [Hk Hx]].
      assert (Hin : In x (filter (fun y => String.eqb (key y) k) l)).
      { apply filter_In. split; [exact Hx |]. rewrite Hk.
        apply String.eqb_refl. }
      destruct (filter _ l); [destruct Hin | cbn [List.length]; lia].
    + intros Hlen.
      destruct (filter (fun y => String.eqb (key y) k) l) as [| x g] eqn:E;
        [cbn [List.length] in Hlen; lia |].
      assert (Hin : In x (filter (fun y => String.eqb (key y) k) l))
        by (rewrite E; now left).
      apply filter_In in Hin. destruct Hin as [Hx Hk].
      exists x. split; [now apply String.eqb_eq | exact Hx].
Qed.

End Groups.

(** X25: the report counts every stored job under exactly one status and
    every search run of the last 30 days under exactly one platform: the
    statuses listed are distinct, each with the number of jobs of that
    status, which is positive, and the numbers add up to the number of
    stored jobs; likewise for the platforms and the recent runs. *)
Theorem report_counts_each_row_once (fl : Q -> Q) (py_round : nat -> Q -> Q)
  (today : Z) (db : Database) (history : SearchHistory) :
  let report := generate_report fl py_round today db history in
  let recent :=
    filter (fun r => today - 30 <=? search_date r) (search_runs history) in
  NoDup (map fst (report_applications report)) /\
  (forall s n,
     In (s, n) (report_applications report) <->
     n = count_rows (fun r => String.eqb (App.status r) s)
           (applications db) /\ 0 < n) /\
  sum_column snd (report_applications report)
  = Z.of_nat (List.length (applications db)) /\
  NoDup (map fst (search_performance report)) /\
  (forall p stats,
     In (p, stats) (search_performance report) ->
     searches stats
     = count_rows (fun r => String.eqb (platform r) p) recent /\
     0 < searches stats) /\
  sum_column (fun entry => searches (snd entry)) (search_performance report)
  = Z.of_nat (List.length recent).
Proof.
  intros report recent.
  destruct (group_keys_facts App.t App.status (applications db))
    as [Hnd [Hall Hpos]].
  destruct (group_keys_facts SearchRun platform recent)
    as [Hnd' [Hall' Hpos']].
  unfold report, generate_report.
  cbn [report_applications search_performance]. fold recent.
  split; [| split; [| split; [| split; [| split]]]].
  - rewrite map_map. cbn [fst]. now rewrite map_id.
  - intros s n. rewrite in_map_iff. unfold count_rows. split.
    + intros [k [Hk Hin]]. injection Hk as -> <-.
      split; [reflexivity |]. apply Hpos in Hin. lia.
    + intros [-> Hn]. exists s. split; [reflexivity |].
      apply Hpos. unfold group_of. lia.
  - rewrite <- (group_sizes_sum App.t App.status
                  (group_keys App.status (applications db))
                  (applications db) Hnd Hall).
    now rewrite sum_column_map.
  - rewrite map_map. cbn [fst]. now rewrite map_id.
  - intros p stats Hin. apply in_map_iff in Hin.
    destruct Hin as [k [Hk Hin]]. injection Hk as -> <-.
    cbn [searches]. split; [reflexivity |].
    apply Hpos' in Hin. lia.
  - rewrite <- (group_sizes_sum SearchRun platform
                  (group_keys platform recent) recent Hnd' Hall').
    now rewrite sum_column_map.
Qed.

(** X26: no call of the program writes the status [applied].  So in the
    report on a store reached from the empty store by ingestions,
    high-priority passes and follow-up sweeps the response rate is 0 and
    the only statuses counted are [found] and [ready_to_apply]. *)
Theorem report_on_written_store (fl : Q -> Q) (py_round : nat -> Q -> Q)
  (cv_request : option string -> string -> result string)
  (cover_letter_request : App.t -> result string)
  (ops : list store_op) (today : Z) (history : SearchHistory) :
  let db := run_ops cv_request cover_letter_request ops empty_db in
  let report := generate_report fl py_round today db history in
  response_rate report = 0%Q /\
  Forall (fun entry => fst entry = "found" \/ fst entry = "ready_to_apply")
    (report_applications report) /\
  (List.length (report_applications report) <= 2)%nat.
Proof.
  intros db report.
  destruct (run_ops_invariant cv_request cover_letter_request ops empty_db)
    as [_ Hst].
  { split; [exact empty_db_wf | constructor]. }
  fold db in Hst.
  assert (Hkeys : forall k, In k (group_keys App.status (applications db)) ->
                    k = "found" \/ k = "ready_to_apply").
  { intros k Hk. unfold group_keys in Hk. apply nodup_In in Hk.
    apply in_map_iff in Hk. destruct Hk as [r [<- Hr]].
    rewrite Forall_forall in Hst. exact (Hst r Hr). }
  split; [| split].
  - unfold report, generate_report. cbn [response_rate].
    replace (count_rows (fun r => String.eqb (App.status r) "applied")
               (applications db)) with 0; [reflexivity |].
    unfold count_rows. rewrite filter_none; [reflexivity |].
    intros r Hr. rewrite Forall_forall in Hst.
    destruct (Hst r Hr) as [-> | ->]; reflexivity.
  - unfold report, generate_report. cbn [report_applications].
    apply Forall_forall. intros entry Hin. apply in_map_iff in Hin.
    destruct Hin as [k [<- Hk]]. cbn [fst]. now apply Hkeys.
  - unfold report, generate_report. cbn [report_applications].
    rewrite length_map.
    assert (Hnd : NoDup (group_keys App.status (applications db)))
      by apply NoDup_nodup.
    apply (NoDup_incl_length Hnd (l' := ["found"; "ready_to_apply"])).
    intros k Hk. destruct (Hkeys k Hk) as [-> | ->];
      [now left | right; now left].
Qed.

(** ** The cleaned salary *)

Lemma replace_comma_free (skip : nat) (s : string) :
  has_char "," (replace_from false "," "" skip s) = false.
Proof.
  revert skip. induction s as [| c s IH]; intros skip; [reflexivity |].
  cbn [replace_from]. destruct skip as [| k]; [| apply IH].
  destruct (String.prefix "," (String c s)) eqn:E.
  - cbn [String.length Nat.sub append]. apply IH.
  - cbn [has_char]. rewrite IH, orb_false_r.
    apply Ascii.eqb_neq. intros ->.
    cbn [String.prefix] in E.
    destruct (ascii_dec "," ","); [| contradiction].
    destruct s; discriminate E.
Qed.

Lemma has_char_lstrip (c : ascii) (s : string) :
  has_char c s = false -> has_char c (lstrip s) = false.
Proof.
  induction s as [| a s IH]; intros H; [reflexivity |].
  cbn [lstrip]. destruct (py_isspace a); [| exact H].
  apply IH. cbn [has_char] in H. now apply orb_false_iff in H.
Qed.

Lemma has_char_rstrip (c : ascii) (s : string) :
  has_char c s = false -> has_char c (rstrip s) = false.
Proof.
  induction s as [| a s IH]; intros H; [reflexivity |].
  cbn [has_char] in H. apply orb_false_iff in H. destruct H as [Ha Hs].
  cbn [rstrip]. specialize (IH Hs).
  destruct (rstrip s) as [| b r].
  - destruct (py_isspace a); [reflexivity |].
    cbn [has_char]. now rewrite Ha.
  - cbn [has_char] in *. now rewrite Ha, IH.
Qed.

Lemma rstrip_idem (s : string) : rstrip (rstrip s) = rstrip s.
Proof.
  induction s as [| a s IH]; [reflexivity |].
  cbn [rstrip]. destruct (rstrip s) as [| b r] eqn:E.
  - destruct (py_isspace a) eqn:Ea; [reflexivity |].
    cbn [rstrip]. now rewrite Ea.
  - change (rstrip (String a (String b r)))
      with (match rstrip (String b r) with
            | EmptyString =>
                if py_isspace a then EmptyString else String a EmptyString
            | rest => String a rest
            end).
    now rewrite IH.
Qed.

(** What [rstrip] leaves of a text stripped on the left begins as the
    text does. *)
Lemma lstrip_rstrip (s : string) :
  lstrip (rstrip (lstrip s)) = rstrip (lstrip s).
Proof.
  assert (H : lstrip s = EmptyString \/
              exists a t, lstrip s = String a t /\ py_isspace a = false).
  { induction s as [| a s IH]; [now left |].
    cbn [lstrip]. destruct (py_isspace a) eqn:Ea; [exact IH |].
    right. now exists a, s. }
  destruct H as [-> | [a [t [-> Ha]]]]; [reflexivity |].
  cbn [rstrip].
  destruct (rstrip t); [rewrite Ha |]; cbn [lstrip]; now rewrite Ha.
Qed.

Lemma strip_idem (s : string) : strip (strip s) = strip s.
Proof. unfold strip. now rewrite lstrip_rstrip, rstrip_idem. Qed.

Lemma clean_salary_text (s : string) :
  has_char "," (clean_salary s) = false /\
  strip (clean_salary s) = clean_salary s.
Proof.
  unfold clean_salary. split; [| apply strip_idem].
  unfold strip. apply has_char_rstrip, has_char_lstrip.
  apply replace_comma_free.
Qed.

(** X27: in the cleaned frame of a frame with rows and a salary column,
    the column [salary_clean] is there; the salary of a row is the one
    scraped, a missing salary has a missing clean salary, and a clean
    salary that is a text has no comma and neither begins nor ends with
    white space. *)
Theorem salary_clean_column (jobs_df : ScrapedFrame) :
  sf_has_salary jobs_df = true ->
  sf_rows jobs_df <> [] ->
  let out := clean_job_data jobs_df in
  sf_has_salary_clean out = true /\
  forall j, In j (sf_rows out) ->
    (exists j0, In j0 (sf_rows jobs_df) /\ sc_salary j = sc_salary j0) /\
    sc_salary_clean j = str_map clean_salary (sc_salary j) /\
    (is_missing (sc_salary j) = true -> sc_salary_clean j = sc_salary j) /\
    (forall t, sc_salary_clean j = Str t ->
       has_char "," t = false /\ strip t = t).
Proof.
  intros Hs Hne out.
  split.
  { unfold out. rewrite (clean_job_data_value jobs_df Hne).
    cbn [sf_has_salary_clean]. now rewrite Hs. }
  intros j Hj.
  destruct (clean_rows_facts jobs_df) as [_ [_ [Hfrom _]]].
  destruct (Hfrom j Hj) as [j0 [Hj0 ->]]. rewrite Hs.
  assert (Hsal : sc_salary (cleaned_row true (sf_has_location jobs_df) j0)
                 = sc_salary j0)
    by (destruct (sf_has_location jobs_df); reflexivity).
  assert (Hclean : sc_salary_clean
                     (cleaned_row true (sf_has_location jobs_df) j0)
                   = str_map clean_salary (sc_salary j0))
    by (destruct (sf_has_location jobs_df); reflexivity).
  rewrite Hsal, Hclean.
  split; [now exists j0 |]. split; [reflexivity |]. split.
  - destruct (sc_salary j0); [discriminate | reflexivity | reflexivity].
  - intros t Ht. destruct (sc_salary j0) as [s | |]; try discriminate Ht.
    cbn [str_map] in Ht. injection Ht as <-. apply clean_salary_text.
Qed.

Lemma salary_clean_column_witness :
  sf_has_salary scraped_sample = true /\
  sf_rows scraped_sample <> [] /\
  map sc_salary_clean (sf_rows (clean_job_data scraped_sample))
  = [Str "12000"; PyNone] /\
  sf_has_salary_clean (clean_job_data scraped_sample) = true.
Proof.
  split; [reflexivity | split; [discriminate | split; [reflexivity |]]].
  refine (proj1 (salary_clean_column scraped_sample eq_refl _)).
  discriminate.
Defined.
